(** * Message ingestion service: storage, webhook protocol and metrics

    A shallow embedding of [app/storage.py], [app/models.py],
    [app/main.py] and [app/metrics.py], and the properties of the
    message store, of the webhook handler and of the metrics collector.

    Conventions.
    - A Python [str] or [bytes] value is a [string]: a sequence of 8-bit
      characters (the UTF-8 bytes of a text, the latin-1 bytes of an HTTP
      header).  [str.lower] is the interpreter's own function: the
      embedding takes it as a parameter ([Py.Unicode]).
    - [None] is [None]; an [Optional[str]] argument is an [option string].
    - Python integers are [Z]; counters, which only ever grow from zero,
      are [nat].
    - The SQLite table is the list of its rows in storage order. *)

From Stdlib Require Import List String Ascii ZArith Lia Bool Arith.
From Stdlib Require Import Permutation Sorted DecimalString DecimalNat.
From Stdlib Require Import QArith Lqa.
Import ListNotations.

Local Close Scope Q_scope.
Local Open Scope string_scope.
Local Open Scope list_scope.

(* ================================================================== *)
(** * Python values and built-ins used by the service *)
(* ================================================================== *)

Module Py.

(** [bytes] objects share the representation of [str]. *)
Definition bytes := string.

(** Truth value of an [Optional[str]]: [None] and [""] are falsy. *)
Definition truthy (o : option string) : bool :=
  match o with
  | None => false
  | Some s => negb (s =? "")
  end.

(** [x or ""] for an [Optional[str]]. *)
Definition or_empty (o : option string) : string :=
  match o with
  | None => ""
  | Some s => s
  end.

Definition is_upper (c : ascii) : bool :=
  let n := nat_of_ascii c in (65 <=? n)%nat && (n <=? 90)%nat.

Definition lower_char (c : ascii) : ascii :=
  if is_upper c then ascii_of_nat (nat_of_ascii c + 32) else c.

(** The folding of the letters A-Z, every other character kept: what
    [s.lower()] is when [s] is ASCII text. *)
Fixpoint ascii_lower (s : string) : string :=
  match s with
  | EmptyString => EmptyString
  | String c t => String (lower_char c) (ascii_lower t)
  end.

(** [s.lower()].  The interpreter folds every cased letter of Unicode,
    by tables and context rules of its own; the service only calls
    it, and so does the embedding. *)
Class Unicode := {
  lower : string -> string
}.

(** [needle in hay] for two strings. *)
Fixpoint contains (needle hay : string) : bool :=
  prefix needle hay ||
  match hay with
  | EmptyString => false
  | String _ t => contains needle t
  end.

(** Clamping of one slice bound against a sequence of length [n]. *)
Definition clamp (n i : Z) : Z :=
  if (i <? 0)%Z then Z.max (i + n) 0 else Z.min i n.

(** [l[start:stop]] with integer bounds. *)
Definition slice {A} (l : list A) (start stop : Z) : list A :=
  let n := Z.of_nat (List.length l) in
  let a := clamp n start in
  let b := clamp n stop in
  firstn (Z.to_nat (b - a)) (skipn (Z.to_nat a) l).

(** [s.replace(old, new)] for a non-empty [old]: occurrences are
    replaced from left to right without overlap.  [skip] counts the
    characters of a matched occurrence still to be dropped. *)
Fixpoint replace_from (old new s : string) (skip : nat) : string :=
  match s with
  | EmptyString => EmptyString
  | String c t =>
      match skip with
      | S k => replace_from old new t k
      | O =>
          if prefix old s
          then new ++ replace_from old new t (String.length old - 1)
          else String c (replace_from old new t 0)
      end
  end.

Definition replace (old new s : string) : string :=
  replace_from old new s 0.

(** [str.isascii()]. *)
Fixpoint isascii (s : string) : bool :=
  match s with
  | EmptyString => true
  | String c t => (nat_of_ascii c <? 128)%nat && isascii t
  end.

(** [len(s)] of a text: its characters, one for each byte that is not
    a continuation byte of the UTF-8 encoding. *)
Definition is_continuation (c : ascii) : bool :=
  let n := nat_of_ascii c in (128 <=? n)%nat && (n <=? 191)%nat.

Fixpoint len (s : string) : nat :=
  match s with
  | EmptyString => 0
  | String c t => if is_continuation c then len t else S (len t)
  end.

(** [bytes.hex()], which is how [hexdigest()] shows [digest()]. *)
Definition hex_digit (n : nat) : ascii :=
  nth n (list_ascii_of_string "0123456789abcdef") "f"%char.

Fixpoint hexlify (b : bytes) : string :=
  match b with
  | EmptyString => EmptyString
  | String c t =>
      let n := nat_of_ascii c in
      String (hex_digit (n / 16)) (String (hex_digit (n mod 16)) (hexlify t))
  end.

(** [str(n)] for a non-negative integer. *)
Definition str_of_nat (n : nat) : string :=
  NilZero.string_of_uint (Nat.to_uint n).

(** [sep.join(lines)]. *)
Definition join (sep : string) (lines : list string) : string :=
  String.concat sep lines.

(** Exceptions that reach the handlers. *)
Inductive sqlite_class :=
| Warning | Error | InterfaceError | DatabaseError | DataError
| OperationalError | IntegrityError | InternalError
| ProgrammingError | NotSupportedError.

Record sqlite_error := SqliteError { err_class : sqlite_class; err_msg : string }.

Inductive exn :=
| TypeError (msg : string)
| Sqlite (e : sqlite_error).

(** Result of a call: a value or a raised exception. *)
Inductive result (E A : Type) :=
| Returned (a : A)
| Raised (e : E).
Arguments Returned {E A} a.
Arguments Raised {E A} e.

Definition bind {E A B} (r : result E A) (k : A -> result E B) : result E B :=
  match r with
  | Returned a => k a
  | Raised e => Raised e
  end.

(** [hmac.compare_digest(a, b)] on two [str] arguments: strings with a
    non-ASCII character are refused with a [TypeError]. *)
Definition compare_digest (a b : string) : result exn bool :=
  if isascii a && isascii b
  then Returned (a =? b)
  else Raised (TypeError "comparing strings with non-ASCII characters is not supported").

(** A [defaultdict(int)]: keys in insertion order with their counts. *)
Section Dict.
Context {K : Type} (keq : K -> K -> bool).

Definition dict := list (K * nat).

(** [d.get(k, 0)], which is also what [d[k]] reads before an update. *)
Fixpoint get (d : dict) (k : K) : nat :=
  match d with
  | [] => 0
  | (k', v) :: d' => if keq k' k then v else get d' k
  end.

(** [d[k] += 1]: an existing key keeps its place, a new key is
    appended. *)
Fixpoint incr (d : dict) (k : K) : dict :=
  match d with
  | [] => [(k, 1)]
  | (k', v) :: d' =>
      if keq k' k then (k', S v) :: d' else (k', v) :: incr d' k
  end.
End Dict.

End Py.

Notation "x <- r ;; k" := (Py.bind r (fun x => k))
  (at level 61, r at next level, right associativity).

(* ================================================================== *)
(** * The [messages] table ([models.py]) *)
(* ================================================================== *)

Module Sqlite.
Import Py.

(** One row of [messages].  [message_id TEXT PRIMARY KEY] carries no
    [NOT NULL], so SQLite stores NULL there; the four [NOT NULL]
    columns always hold a text; [text] is nullable. *)
Record row := Row {
  message_id : option string;
  from_msisdn : string;
  to_msisdn : string;
  ts : string;
  text : option string;
  created_at : string
}.

Definition table := list row.

(** The six values bound to the [INSERT] statement; each may be
    [None], which SQLite binds as NULL. *)
Record params := Params {
  p_message_id : option string;
  p_from_msisdn : option string;
  p_to_msisdn : option string;
  p_ts : option string;
  p_text : option string;
  p_created_at : option string
}.

Definition integrity (msg : string) : sqlite_error :=
  SqliteError IntegrityError msg.

(** [NOT NULL] check of one column. *)
Definition not_null (column : string) (v : option string)
  : result sqlite_error string :=
  match v with
  | Some s => Returned s
  | None => Raised (integrity ("NOT NULL constraint failed: messages." ++ column))
  end.

Definition opt_eqb (a b : option string) : bool :=
  match a, b with
  | Some x, Some y => x =? y
  | _, _ => false
  end.

(** The primary key is violated by an equal non-NULL key; NULLs never
    collide. *)
Definition key_taken (tbl : table) (k : option string) : bool :=
  existsb (fun r => opt_eqb (message_id r) k) tbl.

(** [INSERT INTO messages (...) VALUES (?, ?, ?, ?, ?, ?)] followed by
    [commit], on a database that executes the statement: the
    constraints of [CREATE_MESSAGES_SQL] are checked, [NOT NULL]
    columns first, then the key. *)
Definition insert_row (tbl : table) (a : params) : result sqlite_error table :=
  f <- not_null "from_msisdn" (p_from_msisdn a) ;;
  t <- not_null "to_msisdn" (p_to_msisdn a) ;;
  s <- not_null "ts" (p_ts a) ;;
  c <- not_null "created_at" (p_created_at a) ;;
  if key_taken tbl (p_message_id a)
  then Raised (integrity "UNIQUE constraint failed: messages.message_id")
  else Returned (tbl ++ [Row (p_message_id a) f t s (p_text a) c]).

(** The same statement with the condition of the backing store made
    explicit: [fault] is the error the engine raises for a reason of
    its own (database locked, table missing, I/O error) while
    connecting, executing or committing; [None] when it does not. *)
Definition execute_insert (fault : option sqlite_error) (tbl : table) (a : params)
  : result sqlite_error table :=
  match fault with
  | Some e => Raised e
  | None => insert_row tbl a
  end.

(** ** Comparison of TEXT values (BINARY collation), NULL first *)

Definition text_ltb (a b : string) : bool := String.ltb a b.
Definition text_leb (a b : string) : bool := String.leb a b.

Definition opt_leb (a b : option string) : bool :=
  match a, b with
  | None, _ => true
  | Some _, None => false
  | Some x, Some y => text_leb x y
  end.

(** [ORDER BY] with an executable comparison: insertion into an
    ordered list, rows with equal keys staying in input order. *)
Section OrderBy.
Context {A : Type} (leb : A -> A -> bool).

Fixpoint insert_sorted (x : A) (l : list A) : list A :=
  match l with
  | [] => [x]
  | y :: l' => if leb x y then x :: l else y :: insert_sorted x l'
  end.

Fixpoint order_by (l : list A) : list A :=
  match l with
  | [] => []
  | x :: l' => insert_sorted x (order_by l')
  end.
End OrderBy.

(** What SQL promises of [ORDER BY]: the rows, rearranged, sorted by
    the key.  The relative order of rows with equal keys is left to
    the engine. *)
Definition order_by_admits {A} (le : A -> A -> Prop) (input output : list A) : Prop :=
  Permutation input output /\ StronglySorted le output.

End Sqlite.

(* ================================================================== *)
(** * [Storage] ([storage.py]) *)
(* ================================================================== *)

Module Storage.
Import Py Sqlite.

(** ** [insert_message] *)

(** [try: execute; commit; return "created"
     except aiosqlite.IntegrityError: return "duplicate"].
    Any other exception leaves the function as it is.  A failed
    statement leaves the table as it was. *)
Definition insert_message (fault : option sqlite_error) (tbl : table) (a : params)
  : result sqlite_error string * table :=
  match execute_insert fault tbl a with
  | Returned tbl' => (Returned "created", tbl')
  | Raised e =>
      match err_class e with
      | IntegrityError => (Returned "duplicate", tbl)
      | _ => (Raised e, tbl)
      end
  end.

(** ** [list_messages] *)

(** A row as [dict(r)] of the [SELECT]: five columns, [created_at]
    is not selected. *)
Record message := Message {
  m_message_id : option string;
  m_from : string;
  m_to : string;
  m_ts : string;
  m_text : option string
}.

Definition select_columns (r : row) : message :=
  Message (message_id r) (from_msisdn r) (to_msisdn r) (ts r) (text r).

(** The [WHERE] clause assembled from the truthy filters:
    [from_msisdn = ?] and [ts >= ?], joined by [AND]. *)
Definition where_from (from_filter : option string) (r : row) : bool :=
  if truthy from_filter then from_msisdn r =? or_empty from_filter else true.

Definition where_since (since : option string) (r : row) : bool :=
  if truthy since then text_leb (or_empty since) (ts r) else true.

Definition where_sql (from_filter since : option string) (r : row) : bool :=
  where_from from_filter r && where_since since r.

(** [ORDER BY ts ASC, message_id ASC]. *)
Definition order_key_leb (a b : row) : bool :=
  text_ltb (ts a) (ts b) ||
  ((ts a =? ts b) && opt_leb (message_id a) (message_id b)).

(** [base_select]: the rows that pass the SQL filters, ordered. *)
Definition base_select (from_filter since : option string) (tbl : table)
  : list message :=
  map select_columns (order_by order_key_leb (filter (where_sql from_filter since) tbl)).

(** [q_lower in (r.get("text") or "").lower()]. *)
Definition text_matches {U : Unicode} (q : string) (m : message) : bool :=
  contains (lower q) (lower (or_empty (m_text m))).

(** The Python-side search, applied only for a truthy [q]. *)
Definition search {U : Unicode} (q : option string) (rows : list message)
  : list message :=
  if truthy q then filter (text_matches (or_empty q)) rows else rows.

(** [rows] just before pagination. *)
Definition matching_rows {U : Unicode} (from_filter since q : option string)
  (tbl : table) : list message :=
  search q (base_select from_filter since tbl).

Definition list_messages {U : Unicode} (limit offset : Z)
  (from_filter since q : option string) (tbl : table) : list message * Z :=
  let rows := matching_rows from_filter since q tbl in
  let total := Z.of_nat (List.length rows) in
  let data := slice rows offset (offset + limit) in
  (data, total).

(** ** [stats] *)

(** [SELECT COUNT( * ) FROM messages]. *)
Definition count_all (tbl : table) : nat := List.length tbl.

(** The groups of [GROUP BY from_msisdn]. *)
Definition senders (tbl : table) : list string :=
  nodup string_dec (map from_msisdn tbl).

(** [COUNT( * )] within the group of one sender. *)
Definition count_from (s : string) (tbl : table) : nat :=
  List.length (filter (fun r => from_msisdn r =? s) tbl).

(** [SELECT COUNT(DISTINCT from_msisdn) FROM messages]. *)
Definition count_senders (tbl : table) : nat := List.length (senders tbl).

(** [SELECT from_msisdn, COUNT( * ) AS c ... GROUP BY from_msisdn],
    before ordering. *)
Definition group_by_sender (tbl : table) : list (string * nat) :=
  map (fun s => (s, count_from s tbl)) (senders tbl).

(** [ORDER BY c DESC]: the only key is the count. *)
Definition count_desc (a b : string * nat) : Prop := (snd b <= snd a)%nat.

Definition count_desc_b (a b : string * nat) : bool := (snd b <=? snd a)%nat.

(** The results the top-senders query may return: the groups in some
    order admitted by [ORDER BY c DESC], cut by [LIMIT 10]. *)
Definition top_senders_admits (tbl : table) (res : list (string * nat)) : Prop :=
  exists ordered,
    order_by_admits count_desc (group_by_sender tbl) ordered /\
    res = firstn 10 ordered.

(** One such result, computed: the groups as [group_by_sender] lists
    them, ordered by a stable sort. *)
Definition top_senders_stable (tbl : table) : list (string * nat) :=
  firstn 10 (order_by count_desc_b (group_by_sender tbl)).

(** [SELECT MIN(ts), MAX(ts) FROM messages]; NULL on an empty table. *)
Definition text_min (a b : string) : string := if text_leb a b then a else b.
Definition text_max (a b : string) : string := if text_leb a b then b else a.

Definition min_ts (tbl : table) : option string :=
  match map ts tbl with
  | [] => None
  | t :: l => Some (fold_left text_min l t)
  end.

Definition max_ts (tbl : table) : option string :=
  match map ts tbl with
  | [] => None
  | t :: l => Some (fold_left text_max l t)
  end.

Record snapshot := Snapshot {
  total_messages : nat;
  senders_count : nat;
  messages_per_sender : list (string * nat);
  first_message_ts : option string;
  last_message_ts : option string
}.

(** [stats] as a relation between the table and the dictionary it
    returns: four fields are functions of the table, the ranking is
    any result the query admits. *)
Definition stats (tbl : table) (s : snapshot) : Prop :=
  total_messages s = count_all tbl /\
  senders_count s = count_senders tbl /\
  top_senders_admits tbl (messages_per_sender s) /\
  first_message_ts s = min_ts tbl /\
  last_message_ts s = max_ts tbl.

(** The snapshot computed with the stable ranking. *)
Definition stats_stable (tbl : table) : snapshot :=
  Snapshot (count_all tbl) (count_senders tbl) (top_senders_stable tbl)
           (min_ts tbl) (max_ts tbl).

End Storage.

(* ================================================================== *)
(** * [Metrics] ([metrics.py]) *)
(* ================================================================== *)

Module Metrics.
Import Py.

Definition pair_eqb (a b : string * string) : bool :=
  (fst a =? fst b) && (snd a =? snd b).

(** The three [defaultdict(int)] of a collector.  The lock only
    serialises the updates and has no content of its own. *)
Record t := Make {
  http_requests : dict (K := string * string);
  webhook_requests : dict (K := string);
  latency_buckets : dict (K := string)
}.

(** [Metrics()]. *)
Definition init : t := Make [] [] [].

(** [self.http_requests[(path, str(status))] += 1]. *)
Definition inc_http (path : string) (status : nat) (m : t) : t :=
  Make (incr pair_eqb (http_requests m) (path, str_of_nat status))
       (webhook_requests m) (latency_buckets m).

(** [self.webhook_requests[result] += 1]. *)
Definition inc_webhook (result : string) (m : t) : t :=
  Make (http_requests m) (incr String.eqb (webhook_requests m) result)
       (latency_buckets m).

(** The bucket an observation falls in.  A latency is a finite float,
    hence a rational, and its comparisons with 100 and 500 are exact. *)
Definition bucket_of (ms : Q) : string :=
  if Qle_bool ms (100 # 1) then "100"
  else if Qle_bool ms (500 # 1) then "500"
  else "+Inf".

(** [observe_latency]. *)
Definition observe_latency (ms : Q) (m : t) : t :=
  Make (http_requests m) (webhook_requests m)
       (incr String.eqb (latency_buckets m) (bucket_of ms)).

(** One sample of the exposition: metric name, labels, value. *)
Record sample := Sample {
  s_name : string;
  s_labels : list (string * string);
  s_value : nat
}.

Definition count_100 (m : t) : nat := get String.eqb (latency_buckets m) "100".
Definition count_500 (m : t) : nat := get String.eqb (latency_buckets m) "500".
Definition count_inf (m : t) : nat := get String.eqb (latency_buckets m) "+Inf".
Definition total (m : t) : nat := count_100 m + count_500 m + count_inf m.

Definition http_samples (m : t) : list sample :=
  map (fun '((path, status), value) =>
         Sample "http_requests_total" [("path", path); ("status", status)] value)
      (http_requests m).

Definition webhook_samples (m : t) : list sample :=
  map (fun '(result, value) =>
         Sample "webhook_requests_total" [("result", result)] value)
      (webhook_requests m).

(** The four latency lines, in the order they are appended. *)
Definition latency_samples (m : t) : list sample :=
  [ Sample "request_latency_ms_bucket" [("le", "100")] (count_100 m);
    Sample "request_latency_ms_bucket" [("le", "500")] (count_100 m + count_500 m);
    Sample "request_latency_ms_bucket" [("le", "+Inf")] (total m);
    Sample "request_latency_ms_count" [] (total m) ].

Definition samples (m : t) : list sample :=
  http_samples m ++ webhook_samples m ++ latency_samples m.

Definition quote : string := String (ascii_of_nat 34) EmptyString.
Definition newline : string := String (ascii_of_nat 10) EmptyString.

Definition format_label (l : string * string) : string :=
  fst l ++ "=" ++ quote ++ snd l ++ quote.

(** [name{label="value",...} number], or [name number] without labels. *)
Definition format_sample (s : sample) : string :=
  match s_labels s with
  | [] => s_name s ++ " " ++ str_of_nat (s_value s)
  | ls => s_name s ++ "{" ++ join "," (map format_label ls) ++ "} "
          ++ str_of_nat (s_value s)
  end.

(** [render_prometheus]. *)
Definition render_prometheus (m : t) : string :=
  join newline (map format_sample (samples m)) ++ newline.

(** The value of the latency line with boundary [le], and of the
    unlabelled count line, as rendered. *)
Definition rendered_bucket (le : string) (m : t) : option nat :=
  option_map s_value
    (find (fun s => (s_name s =? "request_latency_ms_bucket") &&
                    match s_labels s with
                    | [(k, v)] => (k =? "le") && (v =? le)
                    | _ => false
                    end)
          (latency_samples m)).

Definition rendered_count (m : t) : option nat :=
  option_map s_value
    (find (fun s => s_name s =? "request_latency_ms_count") (latency_samples m)).

(** A run of observations, oldest first. *)
Definition observe_all (l : list Q) (m : t) : t :=
  fold_left (fun acc ms => observe_latency ms acc) l m.

End Metrics.

(* ================================================================== *)
(** * The HTTP handlers ([main.py]) *)
(* ================================================================== *)

Module Main.
Import Py Sqlite.

(** A validated payload, as [WebhookMessage] holds it. *)
Record WebhookMessage (datetime : Type) := WebhookMsg {
  w_message_id : string;
  w_from : string;
  w_to : string;
  w_ts : datetime;
  w_text : option string
}.
Arguments WebhookMsg {datetime}.
Arguments w_message_id {datetime}.
Arguments w_from {datetime}.
Arguments w_to {datetime}.
Arguments w_ts {datetime}.
Arguments w_text {datetime}.

(** The library functions the handler calls: [datetime.isoformat],
    the digest of [hmac.new(key, msg, hashlib.sha256)], and
    [WebhookMessage.parse_raw], which either returns a message or
    raises an exception [e], kept as [str(e)]. *)
Class Runtime := {
  datetime : Type;
  isoformat : datetime -> string;
  hmac_sha256 : bytes -> bytes -> bytes;
  parse_raw : bytes -> result string (WebhookMessage datetime)
}.

(** [hmac.new(key, msg, hashlib.sha256).hexdigest()]. *)
Definition hexdigest {R : Runtime} (key msg : bytes) : string :=
  hexlify (hmac_sha256 key msg).

(** What the process holds: the database file and the global
    [metrics] instance. *)
Record state := State {
  db : table;
  metrics : Metrics.t
}.

(** How a handler is left.  [Processed result] is the normal return
    of [webhook]: the response [{"status": "ok"}] with status 200,
    after logging [webhook_processed] with that [result]. *)
Inductive reply :=
| Processed (result : string)
| HTTPException (status_code : nat) (detail : string)
| Unhandled (e : exn).

Definition record (label : string) (st : state) : state :=
  State (db st) (Metrics.inc_webhook label (metrics st)).

(** [str.encode()]: the UTF-8 bytes, which a [string] already is. *)
Definition encode (s : string) : bytes := s.

(** The timestamp text handed to the store. *)
Definition iso_z {R : Runtime} (d : datetime) : string :=
  replace "+00:00" "Z" (isoformat d).

Definition params_of {R : Runtime} (msg : WebhookMessage datetime) (now : datetime)
  : params :=
  Params (Some (w_message_id msg)) (Some (w_from msg)) (Some (w_to msg))
         (Some (iso_z (w_ts msg))) (w_text msg) (Some (iso_z now)).

(** [POST /webhook].  [secret] is [settings.WEBHOOK_SECRET], [now]
    the clock reading taken for [created_at], [fault] the condition
    of the backing store during the insert. *)
Definition webhook {R : Runtime} (secret : string) (fault : option sqlite_error)
  (now : datetime) (raw : bytes) (x_signature : option string) (st : state)
  : reply * state :=
  if negb (truthy x_signature) then
    (HTTPException 401 "invalid signature", record "invalid_signature" st)
  else
    let expected_sig := hexdigest (encode secret) raw in
    match compare_digest expected_sig (or_empty x_signature) with
    | Raised e => (Unhandled e, st)
    | Returned false =>
        (HTTPException 401 "invalid signature", record "invalid_signature" st)
    | Returned true =>
        match parse_raw raw with
        | Raised e =>
            (HTTPException 422 e, record "validation_error" st)
        | Returned msg =>
            match Storage.insert_message fault (db st) (params_of msg now) with
            | (Raised e, tbl) => (Unhandled (Sqlite e), State tbl (metrics st))
            | (Returned result, tbl) =>
                (Processed result, record result (State tbl (metrics st)))
            end
        end
    end.

Definition status_of (r : reply) : nat :=
  match r with
  | Processed _ => 200
  | HTTPException status_code _ => status_code
  | Unhandled _ => 500
  end.

(** [RequestLoggingMiddleware.dispatch] around a handler: whatever the
    handler does, the latency and the (path, status) pair are
    recorded; the status stays 500 when the handler raises. *)
Definition dispatch (path : string) (latency_ms : Q)
  (handler : state -> reply * state) (st : state) : reply * state :=
  let (r, st1) := handler st in
  (r, State (db st1)
            (Metrics.inc_http path (status_of r)
               (Metrics.observe_latency latency_ms (metrics st1)))).

(** [GET /messages]: the bounds on [limit] and [offset] are checked
    before the store is asked. *)
Record page := Page {
  data : list Storage.message;
  total : Z;
  limit : Z;
  offset : Z
}.

Definition get_messages {U : Unicode} (limit offset : Z)
  (from_ since q : option string) (tbl : table) : result (nat * string) page :=
  if ((limit <? 1) || (100 <? limit))%Z then Raised (422, "limit out of range")
  else if (offset <? 0)%Z then Raised (422, "offset out of range")
  else
    let (data, total) := Storage.list_messages limit offset from_ since q tbl in
    Returned (Page data total limit offset).

(** The webhook counter of one label. *)
Definition counter (l : string) (s : state) : nat :=
  Py.get String.eqb (Metrics.webhook_requests (metrics s)) l.

(** The outcomes of the ingestion protocol and the labels under which
    they are counted. *)
Inductive outcome := Created | Duplicate | InvalidSignature | ValidationError.

Definition label (o : outcome) : string :=
  match o with
  | Created => "created"
  | Duplicate => "duplicate"
  | InvalidSignature => "invalid_signature"
  | ValidationError => "validation_error"
  end.

(** The outcome a reply stands for: 401 and 422 are the two
    rejections, a processed request is a creation or a duplicate
    according to the store. *)
Definition outcome_of (r : reply) : option outcome :=
  match r with
  | HTTPException 401 _ => Some InvalidSignature
  | HTTPException 422 _ => Some ValidationError
  | Processed result =>
      if result =? "created" then Some Created
      else if result =? "duplicate" then Some Duplicate
      else None
  | _ => None
  end.

End Main.

(* ================================================================== *)
(** * The vocabulary of the specification *)
(* ================================================================== *)

Module Spec.
Import Py Sqlite Storage.

(** ** The Message shape *)

Definition is_digit (c : ascii) : bool :=
  let n := nat_of_ascii c in (48 <=? n)%nat && (n <=? 57)%nat.

Fixpoint all_digits (s : string) : bool :=
  match s with
  | EmptyString => true
  | String c t => is_digit c && all_digits t
  end.

(** [+] followed by one or more digits. *)
Definition e164 (s : string) : bool :=
  match s with
  | String c rest => (c =? "+")%char && negb (rest =? "") && all_digits rest
  | EmptyString => false
  end.

(** The four [NOT NULL] columns are bound.  The handler binds them,
    and the identifier, for every message that passed validation,
    whatever the validation ([Main.params_of]); the text may be
    absent. *)
Definition complete (a : params) : bool :=
  match p_from_msisdn a, p_to_msisdn a, p_ts a, p_created_at a with
  | Some _, Some _, Some _, Some _ => true
  | _, _, _, _ => false
  end.

(** The row an accepted insert stores: the six values as given. *)
Definition stores (a : params) (r : row) : Prop :=
  p_message_id a = message_id r /\
  p_from_msisdn a = Some (from_msisdn r) /\
  p_to_msisdn a = Some (to_msisdn r) /\
  p_ts a = Some (ts r) /\
  p_text a = text r /\
  p_created_at a = Some (created_at r).

(** The rows stored under one identifier. *)
Definition rows_with_id (k : string) (tbl : table) : list row :=
  filter (fun r => opt_eqb (message_id r) (Some k)) tbl.

(** No two rows share an identifier. *)
Definition unique_ids (tbl : table) : Prop := NoDup (map message_id tbl).

(** ** Orders *)

Definition text_lt (a b : string) : Prop := String.compare a b = Lt.
Definition text_le (a b : string) : Prop := a = b \/ text_lt a b.

Definition opt_le (a b : option string) : Prop :=
  match a, b with
  | None, _ => True
  | Some _, None => False
  | Some x, Some y => text_le x y
  end.

(** [(timestamp, message_id)] ascending. *)
Definition message_le (a b : message) : Prop :=
  text_lt (m_ts a) (m_ts b) \/
  (m_ts a = m_ts b /\ opt_le (m_message_id a) (m_message_id b)).

(** Count descending, then sender ascending. *)
Definition ranked (a b : string * nat) : Prop :=
  (snd b < snd a)%nat \/ (snd a = snd b /\ text_le (fst a) (fst b)).

(** ** Case-insensitive substrings *)

(** What the properties use of [str.lower()]: on ASCII text it folds
    the letters A-Z and nothing else, and only the empty text is
    folded to the empty text. *)
Definition folding (U : Unicode) : Prop :=
  (forall s, isascii s = true -> lower s = ascii_lower s) /\
  (forall s, lower s = "" -> s = "").

(** [q], lower-cased, is a contiguous part of [t], lower-cased. *)
Definition folded_substring {U : Unicode} (q t : string) : Prop :=
  exists pre post : string, lower t = (pre ++ lower q ++ post)%string.

(** The same up to the case of the letters A-Z. *)
Inductive same_ignoring_case : string -> string -> Prop :=
| sic_nil : same_ignoring_case "" ""
| sic_cons c d s t :
    lower_char c = lower_char d ->
    same_ignoring_case s t ->
    same_ignoring_case (String c s) (String d t).

(** A contiguous part of [t] is [q] up to the case of the letters
    A-Z. *)
Definition ci_substring (q t : string) : Prop :=
  exists pre mid post : string,
    t = (pre ++ mid ++ post)%string /\ same_ignoring_case mid q.

(** ** The filters of [list], read conjunctively *)

Definition passes_from (from_filter : option string) (r : row) : Prop :=
  forall f, from_filter = Some f -> f <> "" -> from_msisdn r = f.

Definition passes_since (since : option string) (r : row) : Prop :=
  forall s, since = Some s -> s <> "" -> text_le s (ts r).

Definition passes_query {U : Unicode} (q : option string) (r : row) : Prop :=
  forall x, q = Some x -> x <> "" ->
    exists t, text r = Some t /\ folded_substring x t.

Definition passes {U : Unicode} (from_filter since q : option string) (r : row)
  : Prop :=
  passes_from from_filter r /\ passes_since since r /\ passes_query q r.

(** The same test as a computation, for counting. *)
Definition row_matches {U : Unicode} (from_filter since q : option string)
  (r : row) : bool :=
  where_sql from_filter since r &&
  (if truthy q then text_matches (or_empty q) (select_columns r) else true).

Definition count_matching {U : Unicode} (from_filter since q : option string)
  (tbl : table) : nat :=
  List.length (filter (row_matches from_filter since q) tbl).

(** ** Two small tables *)

Definition sent (id sender : string) : row :=
  Row (Some id) sender "+14155550100" "2025-01-15T10:00:00Z" (Some "Hello")
      "2025-01-15T10:00:01Z".

(** Two senders with one message each, the later sender stored first. *)
Definition two_senders : table := [sent "m1" "+2"; sent "m2" "+1"].

(** Sender A with three messages and sender B with one. *)
Definition three_and_one : table :=
  [sent "a1" "+100"; sent "b1" "+200"; sent "a2" "+100"; sent "a3" "+100"].

(** ** The lines of the exposition, as text *)

(** The text whose lines are [ls], each closed by a newline. *)
Definition unlines (ls : list string) : string :=
  String.concat "" (map (fun l => (l ++ Metrics.newline)%string) ls).

(** [http_requests_total{path="...",status="..."} n]. *)
Definition http_line (kv : (string * string) * nat) : string :=
  "http_requests_total{path=" ++ Metrics.quote ++ fst (fst kv) ++ Metrics.quote
  ++ ",status=" ++ Metrics.quote ++ snd (fst kv) ++ Metrics.quote ++ "} "
  ++ str_of_nat (snd kv).

(** [webhook_requests_total{result="..."} n]. *)
Definition webhook_line (kv : string * nat) : string :=
  "webhook_requests_total{result=" ++ Metrics.quote ++ fst kv ++ Metrics.quote ++ "} "
  ++ str_of_nat (snd kv).

Definition bucket_line (le : string) (n : nat) : string :=
  "request_latency_ms_bucket{le=" ++ Metrics.quote ++ le ++ Metrics.quote ++ "} "
  ++ str_of_nat n.

Definition count_line (n : nat) : string :=
  "request_latency_ms_count " ++ str_of_nat n.

(** The four latency lines, cumulative, and the count. *)
Definition latency_lines (c100 c500 cinf : nat) : list string :=
  [ bucket_line "100" c100;
    bucket_line "500" (c100 + c500);
    bucket_line "+Inf" (c100 + c500 + cinf);
    count_line (c100 + c500 + cinf) ].

(** ** Latency classes *)

Definition count_if (p : Q -> bool) (l : list Q) : nat := List.length (filter p l).

(** A counter after an observation that is, or is not, of its class. *)
Definition bump (b : bool) (n : nat) : nat := if b then S n else n.

Definition fast (ms : Q) : bool := Qle_bool ms (100 # 1).
Definition medium (ms : Q) : bool := negb (Qle_bool ms (100 # 1)) && Qle_bool ms (500 # 1).
Definition slow (ms : Q) : bool := negb (Qle_bool ms (500 # 1)).

End Spec.

(* ================================================================== *)
(** * A runtime to evaluate the handlers on *)
(* ================================================================== *)

(** HMAC-SHA256 as [hmac] and [hashlib] compute it (FIPS 180-4 and
    RFC 2104), on bytes held as numbers below 256 and 32-bit words held
    in [N]. *)
Module Hashlib.
Local Open Scope N_scope.

Definition mask32 : N := 0xffffffff.
Definition trunc (x : N) : N := N.land x mask32.
Definition add (a b : N) : N := trunc (a + b).
Definition rotr (n x : N) : N := N.lor (N.shiftr x n) (trunc (N.shiftl x (32 - n))).
Definition shr (n x : N) : N := N.shiftr x n.
Definition xor3 (a b c : N) : N := N.lxor (N.lxor a b) c.

Definition ch (x y z : N) : N := N.lxor (N.land x y) (N.land (N.lxor x mask32) z).
Definition maj (x y z : N) : N := xor3 (N.land x y) (N.land x z) (N.land y z).
Definition bsig0 (x : N) : N := xor3 (rotr 2 x) (rotr 13 x) (rotr 22 x).
Definition bsig1 (x : N) : N := xor3 (rotr 6 x) (rotr 11 x) (rotr 25 x).
Definition ssig0 (x : N) : N := xor3 (rotr 7 x) (rotr 18 x) (shr 3 x).
Definition ssig1 (x : N) : N := xor3 (rotr 17 x) (rotr 19 x) (shr 10 x).

(** The round constants are the first 32 bits of the fractional parts
    of the cube roots of the first 64 primes; the initial hash value
    takes the square roots of the first 8. *)
Definition is_prime (n : nat) : bool :=
  forallb (fun d => negb (n mod d =? 0)%nat) (seq 2 (n - 2)).

Definition primes (count : nat) : list N :=
  map N.of_nat (firstn count (filter is_prime (seq 2 400))).

(** The integer cube root of [x], one bit at a time from bit [bits]. *)
Fixpoint root3 (bits : nat) (x r : N) : N :=
  match bits with
  | O => r
  | S b =>
      let c := r + N.shiftl 1 (N.of_nat b) in
      root3 b x (if c * c * c <=? x then c else r)
  end.

Definition frac_cbrt (p : N) : N := trunc (root3 40 (N.shiftl p 96) 0).
Definition frac_sqrt (p : N) : N := trunc (N.sqrt (N.shiftl p 64)).

Definition K : list N := Eval vm_compute in map frac_cbrt (primes 64).

(** The [n] low bytes of [x], most significant first. *)
Fixpoint big_endian (n : nat) (x : N) : list N :=
  match n with
  | O => []
  | S n' => N.land (N.shiftr x (8 * N.of_nat n')) 0xff :: big_endian n' x
  end.

Definition word_of (bs : list N) : N :=
  fold_left (fun acc b => N.lor (N.shiftl acc 8) b) bs 0.

(** Consecutive groups of [k] elements; [fuel] bounds their number. *)
Fixpoint chunks {A} (fuel k : nat) (l : list A) : list (list A) :=
  match fuel, l with
  | O, _ => []
  | _, [] => []
  | S fuel', _ => firstn k l :: chunks fuel' k (skipn k l)
  end.

Definition pad (msg : list N) : list N :=
  let len := List.length msg in
  let zeros := ((64 - (len + 9) mod 64) mod 64)%nat in
  msg ++ [0x80] ++ repeat 0 zeros ++ big_endian 8 (8 * N.of_nat len).

(** The message schedule: the 16 words of a block extended to 64. *)
Fixpoint extend (n : nat) (w : list N) : list N :=
  match n with
  | O => w
  | S n' =>
      let t := List.length w in
      let at_ i := nth (t - i) w 0 in
      extend n' (w ++ [add (add (ssig1 (at_ 2%nat)) (at_ 7%nat))
                           (add (ssig0 (at_ 15%nat)) (at_ 16%nat))])
  end.

Definition regs : Type := N * N * N * N * N * N * N * N.

Definition round (st : regs) (kw : N * N) : regs :=
  let '(a, b, c, d, e, f, g, h) := st in
  let t1 := add (add (add h (bsig1 e)) (add (ch e f g) (fst kw))) (snd kw) in
  let t2 := add (bsig0 a) (maj a b c) in
  (add t1 t2, a, b, c, add d t1, e, f, g).

Definition compress (h : regs) (block : list N) : regs :=
  let w := extend 48 (map word_of (chunks 16 4 block)) in
  let '(a, b, c, d, e, f, g, h') := fold_left round (combine K w) h in
  let '(a0, b0, c0, d0, e0, f0, g0, h0) := h in
  (add a0 a, add b0 b, add c0 c, add d0 d, add e0 e, add f0 f, add g0 g, add h0 h').

Definition initial : regs :=
  Eval vm_compute in
    match map frac_sqrt (primes 8) with
    | [a; b; c; d; e; f; g; h] => (a, b, c, d, e, f, g, h)
    | _ => (0, 0, 0, 0, 0, 0, 0, 0)
    end.

Definition sha256 (msg : list N) : list N :=
  let padded := pad msg in
  let '(a, b, c, d, e, f, g, h) :=
    fold_left compress (chunks (List.length padded) 64 padded) initial in
  flat_map (big_endian 4) [a; b; c; d; e; f; g; h].

Definition hmac (key msg : list N) : list N :=
  let key0 := if (64 <? List.length key)%nat then sha256 key else key in
  let key1 := key0 ++ repeat 0 (64 - List.length key0) in
  sha256 (map (N.lxor 0x5c) key1 ++ sha256 (map (N.lxor 0x36) key1 ++ msg)).

Definition to_bytes (s : string) : list N :=
  map N_of_ascii (list_ascii_of_string s).

Definition of_bytes (l : list N) : string :=
  string_of_list_ascii (map ascii_of_N l).

(** [hmac.new(key, msg, hashlib.sha256).digest()]. *)
Definition hmac_sha256 (key msg : string) : string :=
  of_bytes (hmac (to_bytes key) (to_bytes msg)).

End Hashlib.

(** A decoder for the payloads of the test-suite: a JSON object whose
    members are strings without escapes, or [null]; UTC timestamps
    written [YYYY-MM-DDTHH:MM:SSZ].  The checks are those of
    [WebhookMessage]. *)
Module Sample.
Import Py Main.

Inductive token :=
| TLBrace | TRBrace | TColon | TComma | TNull
| TString (s : string).

Definition code (c : ascii) : nat := nat_of_ascii c.

Definition is_space (c : ascii) : bool :=
  (code c =? 32)%nat || (code c =? 9)%nat || (code c =? 10)%nat || (code c =? 13)%nat.

Definition push (t : token) (r : option (list token)) : option (list token) :=
  option_map (cons t) r.

(** [cur] holds the string literal being read, [skip] the characters
    of a keyword still to pass. *)
Fixpoint lex (s : string) (cur : option string) (skip : nat) : option (list token) :=
  match s with
  | EmptyString =>
      match cur with
      | None => Some []
      | Some _ => None
      end
  | String c t =>
      match skip with
      | S k => lex t cur k
      | O =>
          match cur with
          | Some acc =>
              if (code c =? 34)%nat then push (TString acc) (lex t None 0)
              else if (code c =? 92)%nat || (code c <? 32)%nat then None
              else lex t (Some (acc ++ String c EmptyString)%string) 0
          | None =>
              if is_space c then lex t None 0
              else if (code c =? 123)%nat then push TLBrace (lex t None 0)
              else if (code c =? 125)%nat then push TRBrace (lex t None 0)
              else if (code c =? 58)%nat then push TColon (lex t None 0)
              else if (code c =? 44)%nat then push TComma (lex t None 0)
              else if (code c =? 34)%nat then lex t (Some EmptyString) 0
              else if prefix "null" s then push TNull (lex t None 3)
              else None
          end
      end
  end.

Definition obj := list (string * option string).

(** The members after the opening brace. *)
Fixpoint members (ts : list token) (acc : obj) : option obj :=
  match ts with
  | TString k :: TColon :: TString v :: TComma :: rest =>
      members rest (acc ++ [(k, Some v)])
  | TString k :: TColon :: TNull :: TComma :: rest =>
      members rest (acc ++ [(k, None)])
  | [TString k; TColon; TString v; TRBrace] => Some (acc ++ [(k, Some v)])
  | [TString k; TColon; TNull; TRBrace] => Some (acc ++ [(k, None)])
  | _ => None
  end.

Definition loads (raw : bytes) : option obj :=
  match lex raw None 0 with
  | Some [TLBrace; TRBrace] => Some []
  | Some (TLBrace :: ts) => members ts []
  | _ => None
  end.

(** [obj.get(key)]: the last member of that name wins. *)
Definition field (o : obj) (key : string) : option string :=
  fold_left (fun found kv => if fst kv =? key then snd kv else found) o None.

(** One character of a timestamp against one of the pattern: [d]
    stands for a digit. *)
Fixpoint shaped (pattern s : string) : bool :=
  match pattern, s with
  | EmptyString, EmptyString => true
  | String p pattern', String c s' =>
      (if (p =? "d")%char then Spec.is_digit c else (p =? c)%char) && shaped pattern' s'
  | _, _ => false
  end.

(** A UTC instant, kept as its text without the zone. *)
Definition instant := string.

Definition fromisoformat (s : string) : option instant :=
  if shaped "dddd-dd-ddTdd:dd:ddZ" s then Some (substring 0 19 s) else None.

Definition isoformat (d : instant) : string := d ++ "+00:00".

Definition validate (o : obj) : result string (WebhookMessage instant) :=
  match field o "message_id", field o "from", field o "to", field o "ts" with
  | Some id, Some f, Some t, Some s =>
      if id =? "" then Raised "message_id: too short"
      else if negb (Spec.e164 f) then Raised "from: does not match the pattern"
      else if negb (Spec.e164 t) then Raised "to: does not match the pattern"
      else
        match fromisoformat s with
        | None => Raised "ts: invalid datetime"
        | Some d =>
            match field o "text" with
            | Some x =>
                if (4096 <? len x)%nat then Raised "text: too long"
                else Returned (WebhookMsg id f t d (Some x))
            | None => Returned (WebhookMsg id f t d None)
            end
        end
  | _, _, _, _ => Raised "field required"
  end.

Definition parse_raw (raw : bytes) : result string (WebhookMessage instant) :=
  match loads raw with
  | Some o => validate o
  | None => Raised "invalid JSON"
  end.

Definition runtime : Runtime := {|
  datetime := instant;
  Main.isoformat := isoformat;
  hmac_sha256 := Hashlib.hmac_sha256;
  Main.parse_raw := parse_raw
|}.

(** [str.lower()] on the texts made of ASCII characters and of the
    unaccented Greek letters (U+0391 to U+03A9 and U+03B1 to U+03C9,
    two bytes each); every other byte is kept.  A capital sigma
    becomes the final sigma (U+03C2) when a cased letter comes before
    it and none after it, characters that are case-ignorable being
    passed over; it becomes U+03C3 otherwise. *)
Definition is_letter (c : ascii) : bool :=
  is_upper c || ((97 <=? code c)%nat && (code c <=? 122)%nat).

(** The case-ignorable characters of ASCII: ['], [.], [:], [^], [`]. *)
Definition is_ignorable (c : ascii) : bool :=
  existsb (Nat.eqb (code c)) [39; 46; 58; 94; 96]%nat.

Definition greek_capital (c d : ascii) : bool :=
  (code c =? 206)%nat && (145 <=? code d)%nat && (code d <=? 169)%nat &&
  negb (code d =? 162)%nat.

Definition greek_small (c d : ascii) : bool :=
  ((code c =? 206)%nat && (177 <=? code d)%nat && (code d <=? 191)%nat) ||
  ((code c =? 207)%nat && (128 <=? code d)%nat && (code d <=? 137)%nat).

Definition two_bytes (a b : nat) : string :=
  String (ascii_of_nat a) (String (ascii_of_nat b) EmptyString).

(** Is the first character that is not case-ignorable a cased one? *)
Fixpoint cased_ahead (s : string) : bool :=
  match s with
  | EmptyString => false
  | String c t =>
      if is_ignorable c then cased_ahead t
      else is_letter c ||
           match t with
           | String d _ => greek_capital c d || greek_small c d
           | EmptyString => false
           end
  end.

(** [after_cased]: the last character passed that is not
    case-ignorable was a cased one. *)
Fixpoint lower_from (after_cased : bool) (s : string) : string :=
  match s with
  | EmptyString => EmptyString
  | String c t =>
      let one :=
        String (lower_char c)
               (lower_from (if is_ignorable c then after_cased else is_letter c) t) in
      match t with
      | EmptyString => one
      | String d t' =>
          if greek_capital c d then
            (if (code d =? 163)%nat
             then if after_cased && negb (cased_ahead t')
                  then two_bytes 207 130 else two_bytes 207 131
             else if (code d <=? 159)%nat
                  then two_bytes 206 (code d + 32) else two_bytes 207 (code d - 32))
            ++ lower_from true t'
          else if greek_small c d then String c (String d (lower_from true t'))
          else one
      end
  end.

Definition str_lower (s : string) : string := lower_from false s.

Definition unicode : Unicode := {| lower := str_lower |}.

(** [json.dumps] of a flat dictionary of strings. *)
Definition member (kv : string * string) : string :=
  Metrics.quote ++ fst kv ++ Metrics.quote ++ ": " ++
  Metrics.quote ++ snd kv ++ Metrics.quote.

Definition dumps (d : list (string * string)) : string :=
  "{" ++ join ", " (map member d) ++ "}".

(** The requests of [test_webhook.py]. *)
Definition secret : string := "testsecret".

Definition body : bytes :=
  dumps [("message_id", "m1"); ("from", "+919876543210"); ("to", "+14155550100");
         ("ts", "2025-01-15T10:00:00Z"); ("text", "Hello")].

Definition signature : string :=
  "de2bb90148fc3e9c14a9fc1ff94e7b5f98417fc0be0f6e59db0d94330bd191c7".

Definition now : instant := "2025-01-15T10:00:01".

Definition fresh : state := State [] Metrics.init.

(** The arguments [webhook] binds for that body at that time. *)
Definition arguments : Sqlite.params :=
  Sqlite.Params (Some "m1") (Some "+919876543210") (Some "+14155550100")
                (Some "2025-01-15T10:00:00Z") (Some "Hello")
                (Some "2025-01-15T10:00:01Z").

(** The same message under an identifier not used elsewhere. *)
Definition arguments3 : Sqlite.params :=
  Sqlite.Params (Some "m3") (Some "+919876543210") (Some "+14155550100")
                (Some "2025-01-15T10:00:00Z") (Some "Hello")
                (Some "2025-01-15T10:00:01Z").

Definition row3 : Sqlite.row :=
  Sqlite.Row (Some "m3") "+919876543210" "+14155550100"
             "2025-01-15T10:00:00Z" (Some "Hello") "2025-01-15T10:00:01Z".

(** A store that already holds two messages. *)
Definition busy : state := State Spec.two_senders Metrics.init.

(** A Greek text, capital alpha, capital sigma, capital alpha
    (U+0391 U+03A3 U+0391), its first two letters as a query, and a
    message with that text. *)
Definition alpha_sigma_alpha : string :=
  two_bytes 206 145 ++ two_bytes 206 163 ++ two_bytes 206 145.

Definition alpha_sigma : string := two_bytes 206 145 ++ two_bytes 206 163.

Definition greek_row : Sqlite.row :=
  Sqlite.Row (Some "g1") "+919876543210" "+14155550100"
             "2025-01-15T10:00:00Z" (Some alpha_sigma_alpha) "2025-01-15T10:00:01Z".

Definition locked : sqlite_error :=
  SqliteError OperationalError "database is locked".

End Sample.


(* ================================================================== *)
(** * The application behind its middleware ([main.py]) *)
(* ================================================================== *)

Module App.
Import Py Sqlite Storage Main.

(** The database path: a [sqlite:///] URL loses every occurrence of
    that scheme, any other URL is taken as the path. *)
Definition scheme : string := "sqlite:///".

Definition db_path (db_url : string) : string :=
  if prefix scheme db_url then replace scheme "" db_url else db_url.

(** A run of calls on a collector. *)
Inductive op :=
| IncHttp (path : string) (status : nat)
| IncWebhook (result : string)
| ObserveLatency (ms : Q).

Definition apply (m : Metrics.t) (o : op) : Metrics.t :=
  match o with
  | IncHttp path status => Metrics.inc_http path status m
  | IncWebhook result => Metrics.inc_webhook result m
  | ObserveLatency ms => Metrics.observe_latency ms m
  end.

Definition apply_all (ops : list op) (m : Metrics.t) : Metrics.t :=
  fold_left apply ops m.

Definition is_http (path : string) (status : nat) (o : op) : bool :=
  match o with
  | IncHttp p s => (p =? path) && (s =? status)%nat
  | _ => false
  end.

Definition is_webhook (result : string) (o : op) : bool :=
  match o with
  | IncWebhook r => r =? result
  | _ => false
  end.

(** The sum of the counts of a dictionary. *)
Definition dict_sum {K} (d : dict (K := K)) : nat :=
  fold_right (fun kv acc => snd kv + acc) 0 d.

(** The HTTP counter of one (path, status) pair. *)
Definition http_count (path : string) (status : nat) (m : Metrics.t) : nat :=
  get Metrics.pair_eqb (Metrics.http_requests m) (path, str_of_nat status).

Section Server.
Context {U : Unicode} {R : Runtime}.
Variable secret : string.

(** The requests the routes answer.  [fault] is the condition of the
    backing store while the handler uses it. *)
Inductive request :=
| PostWebhook (fault : option sqlite_error) (now : datetime) (raw : bytes)
              (x_signature : option string)
| GetMessages (fault : option sqlite_error) (limit offset : Z)
              (from_ since q : option string)
| GetStats (fault : option sqlite_error)
| GetLive
| GetReady (fault : option sqlite_error)
| GetMetrics
| GetHome.

Inductive response :=
| Webhook (r : reply)
| Messages (p : page)
| Stats (s : snapshot)
| PlainText (status_code : nat) (content : string)
| Rejected (status_code : nat) (detail : string)
| Crashed (e : sqlite_error).

(** The status the middleware sees: 500 when an exception leaves the
    handler. *)
Definition status (r : response) : nat :=
  match r with
  | Webhook w => status_of w
  | Messages _ => 200
  | Stats _ => 200
  | PlainText status_code _ => status_code
  | Rejected status_code _ => status_code
  | Crashed _ => 500
  end.

Definition path_of (q : request) : string :=
  match q with
  | PostWebhook _ _ _ _ => "/webhook"
  | GetMessages _ _ _ _ _ _ => "/messages"
  | GetStats _ => "/stats"
  | GetLive => "/health/live"
  | GetReady _ => "/health/ready"
  | GetMetrics => "/metrics"
  | GetHome => "/"
  end.

(** [GET /messages]: the bounds are checked first, then the store is
    read. *)
Definition messages (fault : option sqlite_error) (limit offset : Z)
  (from_ since q : option string) (tbl : table) : response :=
  match get_messages limit offset from_ since q tbl with
  | Raised (status_code, detail) => Rejected status_code detail
  | Returned p =>
      match fault with
      | Some e => Crashed e
      | None => Messages p
      end
  end.

(** [GET /health/ready]. *)
Definition ready (fault : option sqlite_error) : response :=
  if negb (truthy (Some secret)) then PlainText 503 "SERVICE UNAVAILABLE"
  else
    match fault with
    | None => PlainText 200 "OK"
    | Some _ => PlainText 503 "SERVICE UNAVAILABLE"
    end.

(** What each route function returns and does to the state. *)
Inductive handles (st : state) : request -> response -> state -> Prop :=
| handles_webhook fault now raw x_signature :
    handles st (PostWebhook fault now raw x_signature)
      (Webhook (fst (webhook secret fault now raw x_signature st)))
      (snd (webhook secret fault now raw x_signature st))
| handles_messages fault limit offset from_ since q :
    handles st (GetMessages fault limit offset from_ since q)
      (messages fault limit offset from_ since q (db st)) st
| handles_stats s :
    stats (db st) s -> handles st (GetStats None) (Stats s) st
| handles_stats_crashed e :
    handles st (GetStats (Some e)) (Crashed e) st
| handles_live :
    handles st GetLive (PlainText 200 "OK") st
| handles_ready fault :
    handles st (GetReady fault) (ready fault) st
| handles_metrics :
    handles st GetMetrics (PlainText 200 (Metrics.render_prometheus (metrics st))) st
| handles_home :
    handles st GetHome (PlainText 200 "API is Running") st.

(** The [finally] block of the middleware: the latency, then the
    (path, status) pair. *)
Definition counted (q : request) (latency_ms : Q) (r : response) (st : state) : state :=
  State (db st)
        (Metrics.inc_http (path_of q) (status r)
           (Metrics.observe_latency latency_ms (metrics st))).

(** Requests served one after the other, each with its latency, and
    the responses given. *)
Inductive run (st : state) : list (request * Q) -> list response -> state -> Prop :=
| run_done : run st [] [] st
| run_step q latency_ms r st1 reqs rs st2 :
    handles st q r st1 ->
    run (counted q latency_ms r st1) reqs rs st2 ->
    run st ((q, latency_ms) :: reqs) (r :: rs) st2.

(** The requests of a run answered on [path] with [status_code]. *)
Definition hits (path : string) (status_code : nat)
  (reqs : list (request * Q)) (rs : list response) : nat :=
  List.length
    (filter (fun qr => (path_of (fst (fst qr)) =? path) &&
                       (status (snd qr) =? status_code)%nat)
            (combine reqs rs)).

(** The responses of a run that are a created message. *)
Definition is_created (r : response) : bool :=
  match r with
  | Webhook (Processed result) => result =? "created"
  | _ => false
  end.

(** The responses of a run that are a webhook outcome of label [l]. *)
Definition outcome_is (l : string) (r : response) : bool :=
  match r with
  | Webhook w =>
      match outcome_of w with
      | Some o => label o =? l
      | None => false
      end
  | _ => false
  end.

End Server.

End App.

(* ================================================================== *)
(** * Further vocabulary *)
(* ================================================================== *)

Module Terms.
Import Py Sqlite Storage Main.

(** The non-NULL identifiers of a table, in storage order. *)
Definition keys (tbl : table) : list string :=
  flat_map (fun r => match message_id r with
                     | Some k => [k]
                     | None => []
                     end) tbl.

(** What the primary key enforces: no identifier twice. *)
Definition key_unique (tbl : table) : Prop := NoDup (keys tbl).

(** The three filters of [list_messages] on a listed message. *)
Definition message_matches {U : Unicode} (from_filter since q : option string)
  (m : message) : bool :=
  (if truthy from_filter then m_from m =? or_empty from_filter else true) &&
  (if truthy since then text_leb (or_empty since) (m_ts m) else true) &&
  (if truthy q then text_matches (or_empty q) m else true).

(** A string without the character [c]. *)
Fixpoint free_of (c : ascii) (s : string) : bool :=
  match s with
  | EmptyString => true
  | String d t => negb (d =? c)%char && free_of c t
  end.

End Terms.

(* ================================================================== *)
(** * A small history to evaluate on *)
(* ================================================================== *)

Module History.
Import Py Sqlite Storage Main App.

(** Three stored messages, not in the order of their timestamps. *)
Definition first_row : row :=
  Row (Some "m1") "+100" "+14155550100" "2025-01-15T10:00:00Z" (Some "Hello world")
      "2025-01-15T10:00:01Z".
Definition second_row : row :=
  Row (Some "m2") "+200" "+14155550100" "2025-01-14T09:00:00Z" None
      "2025-01-15T10:00:02Z".
Definition third_row : row :=
  Row (Some "m3") "+100" "+14155550100" "2025-01-16T08:30:00Z" (Some "bye")
      "2025-01-16T08:30:01Z".

Definition rows : table := [first_row; second_row; third_row].

Definition answer : snapshot :=
  Snapshot 3 2 [("+100", 2); ("+200", 1)]
           (Some "2025-01-14T09:00:00Z") (Some "2025-01-16T08:30:00Z").

(** A call that binds no identifier. *)
Definition anonymous : params :=
  Params None (Some "+100") (Some "+14155550100") (Some "2025-01-17T00:00:00Z")
         None (Some "2025-01-17T00:00:01Z").

Definition anonymous_row : row :=
  Row None "+100" "+14155550100" "2025-01-17T00:00:00Z" None "2025-01-17T00:00:01Z".

(** The delivery of [test_webhook.py], then a liveness probe. *)
Definition delivery : request (R := Sample.runtime) :=
  PostWebhook (R := Sample.runtime) None Sample.now Sample.body (Some Sample.signature).

Definition delivered : reply * state :=
  webhook (R := Sample.runtime) Sample.secret None Sample.now Sample.body
          (Some Sample.signature) Sample.fresh.

Definition requests : list (request (R := Sample.runtime) * Q) :=
  [(delivery, (12 # 1)%Q); (GetLive (R := Sample.runtime), (1 # 2)%Q)].

Definition responses : list response :=
  [Webhook (Processed "created"); PlainText 200 "OK"].

Definition after_delivery : state :=
  counted delivery (12 # 1)%Q (Webhook (Processed "created")) (snd delivered).

Definition at_end : state :=
  counted (R := Sample.runtime) GetLive (1 # 2)%Q (PlainText 200 "OK") after_delivery.

End History.

(* ================================================================== *)
(** * Facts about the Python and SQLite layers *)
(* ================================================================== *)

Module PyFacts.
Import Py.

Lemma truthy_some (s : string) : truthy (Some s) = true <-> s <> "".
Proof.
  unfold truthy. rewrite negb_true_iff. apply String.eqb_neq.
Qed.

Lemma truthy_or_empty (o : option string) :
  truthy o = true -> o = Some (or_empty o).
Proof. destruct o; simpl; [reflexivity | discriminate]. Qed.

(** ** Slices *)

Lemma slice_length {A} (l : list A) (start stop : Z) :
  (0 <= start)%Z -> (start <= stop)%Z ->
  Z.of_nat (List.length (slice l start stop)) =
  Z.min (stop - start) (Z.max 0 (Z.of_nat (List.length l) - start)).
Proof.
  intros Hs Hst. unfold slice, clamp.
  destruct (Z.ltb_spec start 0); [lia|].
  destruct (Z.ltb_spec stop 0); [lia|].
  rewrite length_firstn, length_skipn. lia.
Qed.

Lemma slice_beyond {A} (l : list A) (start stop : Z) :
  (Z.of_nat (List.length l) <= start)%Z -> slice l start stop = [].
Proof.
  intros H. unfold slice, clamp.
  destruct (Z.ltb_spec start 0); [lia|].
  rewrite skipn_all2 by lia. apply firstn_nil.
Qed.

Lemma slice_nonneg {A} (l : list A) (start stop : Z) :
  (0 <= start)%Z -> (start <= stop)%Z ->
  slice l start stop =
  firstn (Z.to_nat stop - Z.to_nat start) (skipn (Z.to_nat start) l).
Proof.
  intros H0 H1. unfold slice, clamp.
  destruct (Z.ltb_spec start 0); [lia|]. destruct (Z.ltb_spec stop 0); [lia|].
  destruct (Z.le_gt_cases (Z.of_nat (List.length l)) start) as [Hbig | Hsmall].
  - rewrite !skipn_all2 by lia. now rewrite !firstn_nil.
  - rewrite (Z.min_l start) by lia.
    destruct (Z.le_gt_cases stop (Z.of_nat (List.length l))).
    + rewrite Z.min_l by lia. f_equal. lia.
    + rewrite Z.min_r by lia.
      rewrite !firstn_all2; try reflexivity; rewrite length_skipn; lia.
Qed.

(** From the start, a slice as long as the sequence is the sequence. *)
Lemma slice_all {A} (l : list A) (stop : Z) :
  (Z.of_nat (List.length l) <= stop)%Z -> slice l 0 (0 + stop) = l.
Proof.
  intros H. rewrite slice_nonneg by lia. simpl. apply firstn_all2. lia.
Qed.

(** A slice is a contiguous part of the sequence. *)
Lemma slice_infix {A} (l : list A) (start stop : Z) :
  exists pre post, l = pre ++ slice l start stop ++ post.
Proof.
  unfold slice.
  set (n := Z.to_nat (_ - _)). set (a := Z.to_nat _).
  exists (firstn a l), (skipn n (skipn a l)).
  now rewrite (firstn_skipn n), (firstn_skipn a).
Qed.

(** ** Substrings *)

Lemma prefix_iff (p s : string) :
  prefix p s = true <-> exists post, s = (p ++ post)%string.
Proof.
  revert s. induction p as [|a p IH]; intros s; simpl.
  - destruct s; simpl; split; eauto.
  - destruct s as [|b s]; simpl.
    + split; [discriminate | intros [post H]; discriminate].
    + destruct (ascii_dec a b) as [->|Hne].
      * rewrite IH. split; intros [post H]; exists post.
        -- now rewrite H.
        -- now injection H.
      * split; [discriminate|]. intros [post H]. injection H. congruence.
Qed.

Lemma contains_iff (needle hay : string) :
  contains needle hay = true <->
  exists pre post, hay = (pre ++ needle ++ post)%string.
Proof.
  induction hay as [|c hay IH].
  - simpl. rewrite orb_false_r.
    destruct needle; simpl.
    + split; [exists "", ""; reflexivity | reflexivity].
    + split; [discriminate|]. intros (pre & post & H).
      destruct pre; discriminate.
  - cbn [contains]. rewrite orb_true_iff, IH, prefix_iff. split.
    + intros [[post H] | (pre & post & H)].
      * exists "", post. exact H.
      * exists (String c pre), post. simpl. now rewrite H.
    + intros (pre & post & H). destruct pre as [|c' pre]; simpl in H.
      * left. now exists post.
      * right. injection H as _ H. now exists pre, post.
Qed.

Lemma append_assoc (a b c : string) : ((a ++ b) ++ c = a ++ b ++ c)%string.
Proof. induction a; simpl; congruence. Qed.

Lemma ascii_lower_app (a b : string) :
  ascii_lower (a ++ b)%string = (ascii_lower a ++ ascii_lower b)%string.
Proof. induction a; simpl; congruence. Qed.

Lemma ascii_lower_app_inv (t a b : string) :
  ascii_lower t = (a ++ b)%string ->
  exists t1 t2, t = (t1 ++ t2)%string /\ ascii_lower t1 = a /\ ascii_lower t2 = b.
Proof.
  revert t. induction a as [|c a IH]; intros t H; simpl in H.
  - exists "", t. auto.
  - destruct t as [|d t]; [discriminate|]. simpl in H.
    injection H as Hc Ht. destruct (IH _ Ht) as (t1 & t2 & -> & <- & <-).
    exists (String d t1), t2. simpl. now rewrite Hc.
Qed.

(** ** Hexadecimal text is ASCII *)

Lemma hex_digit_ascii (n : nat) : (nat_of_ascii (hex_digit n) <? 128)%nat = true.
Proof.
  unfold hex_digit. do 16 (destruct n as [|n]; [reflexivity|]).
  destruct n; reflexivity.
Qed.

Lemma hexlify_isascii (b : bytes) : isascii (hexlify b) = true.
Proof.
  induction b as [|c b IH]; simpl; [reflexivity|].
  now rewrite !hex_digit_ascii, IH.
Qed.

(** ** Dictionaries of counters *)

Section Dict.
Context {K : Type} (keq : K -> K -> bool).
Hypothesis keq_spec : forall a b, reflect (a = b) (keq a b).

Lemma get_incr_same (d : dict) (k : K) : get keq (incr keq d k) k = S (get keq d k).
Proof.
  induction d as [|[k' v] d IH]; simpl.
  - destruct (keq_spec k k); congruence.
  - destruct (keq_spec k' k) as [->|Hne]; simpl.
    + destruct (keq_spec k k); congruence.
    + destruct (keq_spec k' k); [congruence | exact IH].
Qed.

Lemma get_incr_other (d : dict) (k k0 : K) :
  k0 <> k -> get keq (incr keq d k) k0 = get keq d k0.
Proof.
  intros Hne. induction d as [|[k' v] d IH]; simpl.
  - destruct (keq_spec k k0); congruence.
  - destruct (keq_spec k' k) as [->|Hk]; simpl.
    + destruct (keq_spec k k0); congruence.
    + destruct (keq_spec k' k0); [reflexivity | exact IH].
Qed.
End Dict.

End PyFacts.

Module SqliteFacts.
Import Py Sqlite.

(** ** The BINARY collation is a total order *)

Lemma ascii_compare_refl (c : ascii) : Ascii.compare c c = Eq.
Proof. unfold Ascii.compare. apply N.compare_refl. Qed.

Lemma ascii_compare_lt_trans (a b c : ascii) :
  Ascii.compare a b = Lt -> Ascii.compare b c = Lt -> Ascii.compare a c = Lt.
Proof.
  unfold Ascii.compare. rewrite !N.compare_lt_iff. apply N.lt_trans.
Qed.

Lemma compare_refl (s : string) : String.compare s s = Eq.
Proof.
  induction s as [|c s IH]; simpl; [reflexivity|].
  now rewrite ascii_compare_refl.
Qed.

Lemma compare_lt_trans (a b c : string) :
  String.compare a b = Lt -> String.compare b c = Lt -> String.compare a c = Lt.
Proof.
  revert b c. induction a as [|x a IH]; intros [|y b] [|z c]; simpl;
    try congruence.
  destruct (Ascii.compare x y) eqn:Hxy; try discriminate;
    destruct (Ascii.compare y z) eqn:Hyz; try discriminate; intros H1 H2.
  - apply Ascii.compare_eq_iff in Hxy, Hyz. subst.
    rewrite ascii_compare_refl. eauto.
  - apply Ascii.compare_eq_iff in Hxy. subst. now rewrite Hyz.
  - apply Ascii.compare_eq_iff in Hyz. subst. now rewrite Hxy.
  - now rewrite (ascii_compare_lt_trans _ _ _ Hxy Hyz).
Qed.

Lemma text_leb_refl (a : string) : text_leb a a = true.
Proof. unfold text_leb, String.leb. now rewrite compare_refl. Qed.

Lemma text_ltb_leb (a b : string) :
  text_ltb a b = true <-> text_leb a b = true /\ a <> b.
Proof.
  unfold text_ltb, text_leb, String.ltb, String.leb.
  destruct (String.compare a b) eqn:H.
  - apply String.compare_eq_iff in H. intuition congruence.
  - split; [|reflexivity]. intros _. split; [reflexivity|].
    intros ->. rewrite compare_refl in H. discriminate.
  - intuition congruence.
Qed.

Lemma text_leb_cases (a b : string) :
  text_leb a b = true <-> text_ltb a b = true \/ a = b.
Proof.
  rewrite text_ltb_leb. split.
  - intros H. destruct (string_dec a b); auto.
  - intros [[H _] | ->]; [exact H | apply text_leb_refl].
Qed.

Lemma text_ltb_trans (a b c : string) :
  text_ltb a b = true -> text_ltb b c = true -> text_ltb a c = true.
Proof.
  unfold text_ltb, String.ltb.
  destruct (String.compare a b) eqn:H1; try discriminate.
  destruct (String.compare b c) eqn:H2; try discriminate.
  now rewrite (compare_lt_trans _ _ _ H1 H2).
Qed.

Lemma text_leb_trans (a b c : string) :
  text_leb a b = true -> text_leb b c = true -> text_leb a c = true.
Proof.
  rewrite !text_leb_cases. intros [H1 | ->] [H2 | ->]; auto.
  left. eapply text_ltb_trans; eauto.
Qed.

Lemma text_leb_antisym (a b : string) :
  text_leb a b = true -> text_leb b a = true -> a = b.
Proof. apply String.leb_antisym. Qed.

Lemma text_leb_total (a b : string) : text_leb a b = true \/ text_leb b a = true.
Proof. apply String.leb_total. Qed.

Lemma text_ltb_irrefl (a : string) : text_ltb a a = false.
Proof. unfold text_ltb, String.ltb. now rewrite compare_refl. Qed.

Lemma text_ltb_total (a b : string) :
  text_ltb a b = true \/ a = b \/ text_ltb b a = true.
Proof.
  destruct (text_leb_total a b) as [H | H]; apply text_leb_cases in H;
    intuition auto.
Qed.

Lemma opt_leb_total (a b : option string) : opt_leb a b = true \/ opt_leb b a = true.
Proof. destruct a, b; simpl; auto using text_leb_total. Qed.

Lemma opt_leb_trans (a b c : option string) :
  opt_leb a b = true -> opt_leb b c = true -> opt_leb a c = true.
Proof.
  destruct a, b, c; simpl; try congruence. apply text_leb_trans.
Qed.

Lemma opt_leb_antisym (a b : option string) :
  opt_leb a b = true -> opt_leb b a = true -> a = b.
Proof.
  destruct a, b; simpl; try congruence.
  intros H1 H2. f_equal. now apply text_leb_antisym.
Qed.

(** ** Sorting *)

Section OrderBy.
Context {A : Type} (leb : A -> A -> bool).
Let le (a b : A) : Prop := leb a b = true.

Hypothesis leb_total : forall a b, leb a b = true \/ leb b a = true.
Hypothesis leb_trans : forall a b c, leb a b = true -> leb b c = true -> leb a c = true.

Lemma insert_sorted_perm (x : A) (l : list A) :
  Permutation (x :: l) (insert_sorted leb x l).
Proof.
  induction l as [|y l IH]; simpl; [reflexivity|].
  destruct (leb x y); [reflexivity|].
  rewrite perm_swap. now constructor.
Qed.

Lemma order_by_perm (l : list A) : Permutation l (order_by leb l).
Proof.
  induction l as [|x l IH]; simpl; [constructor|].
  rewrite <- insert_sorted_perm. now constructor.
Qed.

Lemma insert_sorted_sorted (x : A) (l : list A) :
  StronglySorted le l -> StronglySorted le (insert_sorted leb x l).
Proof.
  induction 1 as [|y l Hs IH Hy]; simpl.
  - repeat constructor.
  - destruct (leb x y) eqn:E.
    + constructor; [now constructor|]. constructor; [exact E|].
      eapply Forall_impl; [|exact Hy]. intros z Hz. eapply leb_trans; eauto.
    + constructor; [exact IH|].
      rewrite <- insert_sorted_perm. constructor; [|exact Hy].
      destruct (leb_total x y); [congruence | assumption].
Qed.

Lemma order_by_sorted (l : list A) : StronglySorted le (order_by leb l).
Proof.
  induction l; simpl; [constructor | now apply insert_sorted_sorted].
Qed.

Lemma order_by_admitted (l : list A) : order_by_admits le l (order_by leb l).
Proof. split; [apply order_by_perm | apply order_by_sorted]. Qed.
End OrderBy.

(** Two sorted arrangements of the same elements coincide when the
    order separates the elements. *)
Lemma sorted_perm_unique {A} (R : A -> A -> Prop) (l1 l2 : list A) :
  (forall a b, In a l1 -> In b l1 -> R a b -> R b a -> a = b) ->
  StronglySorted R l1 -> StronglySorted R l2 -> Permutation l1 l2 -> l1 = l2.
Proof.
  revert l2. induction l1 as [|a l1 IH]; intros l2 Hanti H1 H2 Hp.
  - now apply Permutation_nil in Hp.
  - destruct l2 as [|b l2].
    + symmetry in Hp. now apply Permutation_nil in Hp.
    + inversion H1 as [|? ? Hs1 Ha]; subst. inversion H2 as [|? ? Hs2 Hb]; subst.
      rewrite Forall_forall in Ha, Hb.
      assert (Heq : a = b).
      { assert (Hina : In a (b :: l2)) by (eapply Permutation_in; [exact Hp | now left]).
        assert (Hinb : In b (a :: l1))
          by (eapply Permutation_in; [symmetry; exact Hp | now left]).
        destruct Hina as [-> | Hina]; [reflexivity|].
        destruct Hinb as [-> | Hinb]; [reflexivity|].
        apply Hanti; [now left | now right | now apply Ha | now apply Hb]. }
      subst b. f_equal. apply IH; auto.
      * intros x y Hx Hy. apply Hanti; now right.
      * eapply Permutation_cons_inv; exact Hp.
Qed.

Lemma StronglySorted_filter {A} (R : A -> A -> Prop) (f : A -> bool) (l : list A) :
  StronglySorted R l -> StronglySorted R (filter f l).
Proof.
  induction 1 as [|a l Hs IH Ha]; simpl; [constructor|].
  destruct (f a); [|exact IH]. constructor; [exact IH|].
  rewrite Forall_forall in *. intros x Hx. apply filter_In in Hx. now apply Ha.
Qed.

Lemma StronglySorted_map {A B} (R : A -> A -> Prop) (S : B -> B -> Prop)
  (f : A -> B) (l : list A) :
  (forall a b, R a b -> S (f a) (f b)) ->
  StronglySorted R l -> StronglySorted S (map f l).
Proof.
  intros HRS. induction 1 as [|a l Hs IH Ha]; simpl; constructor; [exact IH|].
  rewrite Forall_forall in *. intros y Hy. apply in_map_iff in Hy as (x & <- & Hx).
  auto.
Qed.

Lemma StronglySorted_weaken {A} (R S : A -> A -> Prop) (l : list A) :
  (forall a b, R a b -> S a b) -> StronglySorted R l -> StronglySorted S l.
Proof.
  intros HRS. induction 1 as [|a l Hs IH Ha]; constructor; [exact IH|].
  eapply Forall_impl; [|exact Ha]. auto.
Qed.

Lemma StronglySorted_app_l {A} (R : A -> A -> Prop) (l1 l2 : list A) :
  StronglySorted R (l1 ++ l2) -> StronglySorted R l1.
Proof.
  induction l1 as [|a l1 IH]; simpl; intros H; [constructor|].
  inversion H; subst. constructor; [auto|].
  rewrite Forall_app in *. tauto.
Qed.

Lemma StronglySorted_app_r {A} (R : A -> A -> Prop) (l1 l2 : list A) :
  StronglySorted R (l1 ++ l2) -> StronglySorted R l2.
Proof.
  induction l1 as [|a l1 IH]; simpl; intros H; [exact H|].
  inversion H; subst. auto.
Qed.

Lemma StronglySorted_app_between {A} (R : A -> A -> Prop) (l1 l2 : list A) :
  StronglySorted R (l1 ++ l2) ->
  forall x y, In x l1 -> In y l2 -> R x y.
Proof.
  induction l1 as [|a l1 IH]; simpl; intros H x y Hx Hy; [contradiction|].
  inversion H as [|? ? Hs Ha]; subst. destruct Hx as [-> | Hx].
  - rewrite Forall_forall in Ha. apply Ha. apply in_or_app. now right.
  - now apply IH.
Qed.

(** ** The key constraint *)

Lemma key_taken_iff (tbl : table) (k : option string) :
  key_taken tbl k = true <->
  exists s, k = Some s /\ In (Some s) (map message_id tbl).
Proof.
  unfold key_taken. rewrite existsb_exists. split.
  - intros (r & Hr & He). destruct (message_id r) as [x|] eqn:Hx, k as [y|];
      simpl in He; try discriminate.
    apply String.eqb_eq in He. subst. exists y. split; [reflexivity|].
    rewrite <- Hx. now apply in_map.
  - intros (s & -> & Hin). apply in_map_iff in Hin as (r & Hr & Hin).
    exists r. split; [exact Hin|]. rewrite Hr. simpl. apply String.eqb_refl.
Qed.

End SqliteFacts.

(* ================================================================== *)
(** * The message store *)
(* ================================================================== *)

Module StorageFacts.
Import Py Sqlite Storage Spec PyFacts SqliteFacts.

(** ** Insertion *)

Lemma complete_not_null (a : params) :
  complete a = true ->
  exists f t s c,
    a = Params (p_message_id a) (Some f) (Some t) (Some s) (p_text a) (Some c) /\
    stores a (Row (p_message_id a) f t s (p_text a) c) /\
    or_empty (p_from_msisdn a) = f /\ or_empty (p_to_msisdn a) = t /\
    or_empty (p_ts a) = s /\ or_empty (p_created_at a) = c.
Proof.
  destruct a as [k [f|] [t|] [s|] x [c|]]; simpl; try discriminate.
  intros _. exists f, t, s, c. repeat split.
Qed.

Lemma insert_row_complete (tbl : table) (a : params) :
  complete a = true ->
  insert_row tbl a =
    if key_taken tbl (p_message_id a)
    then Raised (integrity "UNIQUE constraint failed: messages.message_id")
    else Returned (tbl ++ [Row (p_message_id a) (or_empty (p_from_msisdn a))
                               (or_empty (p_to_msisdn a)) (or_empty (p_ts a))
                               (p_text a) (or_empty (p_created_at a))]).
Proof.
  intros H. destruct a as [k [f|] [t|] [s|] x [c|]]; try discriminate.
  reflexivity.
Qed.

(** Every error of the statement itself is an integrity error. *)
Lemma insert_row_raises_integrity (tbl : table) (a : params) (e : sqlite_error) :
  insert_row tbl a = Raised e -> err_class e = IntegrityError.
Proof.
  unfold insert_row, not_null, bind.
  destruct (p_from_msisdn a); [|now intros [= <-]].
  destruct (p_to_msisdn a); [|now intros [= <-]].
  destruct (p_ts a); [|now intros [= <-]].
  destruct (p_created_at a); [|now intros [= <-]].
  destruct (key_taken tbl (p_message_id a)); [now intros [= <-] | discriminate].
Qed.

Lemma insert_row_taken (tbl : table) (a : params) (k : string) :
  p_message_id a = Some k -> In (Some k) (map message_id tbl) ->
  exists e, insert_row tbl a = Raised e.
Proof.
  intros Hk Hin.
  assert (Ht : key_taken tbl (p_message_id a) = true)
    by (apply key_taken_iff; eauto).
  unfold insert_row, not_null, bind.
  destruct (p_from_msisdn a); [|eauto].
  destruct (p_to_msisdn a); [|eauto].
  destruct (p_ts a); [|eauto].
  destruct (p_created_at a); [|eauto].
  rewrite Ht. eauto.
Qed.

Lemma insert_message_taken (tbl : table) (a : params) (k : string) :
  p_message_id a = Some k -> In (Some k) (map message_id tbl) ->
  insert_message None tbl a = (Returned "duplicate", tbl).
Proof.
  intros Hk Hin. destruct (insert_row_taken tbl a k Hk Hin) as [e He].
  unfold insert_message, execute_insert. rewrite He.
  now rewrite (insert_row_raises_integrity _ _ _ He).
Qed.

Lemma rows_with_id_absent (k : string) (tbl : table) :
  ~ In (Some k) (map message_id tbl) -> rows_with_id k tbl = [].
Proof.
  intros Hn. unfold rows_with_id. induction tbl as [|r tbl IH]; [reflexivity|].
  simpl in *. destruct (message_id r) as [x|] eqn:Hx; simpl.
  - destruct (String.eqb_spec x k) as [->|Hne]; [tauto|]. apply IH. tauto.
  - apply IH. tauto.
Qed.

(** A table changes only by gaining one row at its end. *)
Lemma insert_message_table (fault : option sqlite_error) (tbl : table) (a : params) :
  snd (insert_message fault tbl a) = tbl \/
  exists r, stores a r /\
    insert_message fault tbl a = (Returned "created", tbl ++ [r]).
Proof.
  unfold insert_message, execute_insert.
  destruct fault as [e|].
  - left. now destruct (err_class e).
  - destruct (insert_row tbl a) as [tbl'|e] eqn:H.
    + right. revert H. unfold insert_row, not_null, bind.
      destruct a as [k [f|] [t|] [s|] x [c|]]; simpl; try discriminate.
      destruct (key_taken tbl k); [discriminate|]. intros [= <-].
      eexists. split; [|reflexivity]. repeat split.
    + left. now destruct (err_class e).
Qed.

(** Validated inserts keep the identifiers distinct. *)
Lemma insert_message_unique_ids (fault : option sqlite_error) (tbl : table)
  (a : params) (k : string) :
  p_message_id a = Some k -> unique_ids tbl ->
  unique_ids (snd (insert_message fault tbl a)).
Proof.
  intros Hk Hu. unfold insert_message, execute_insert.
  destruct fault as [e|]; [now destruct (err_class e)|].
  destruct (insert_row tbl a) as [tbl'|e] eqn:H; [|now destruct (err_class e)].
  revert H. unfold insert_row, not_null, bind.
  destruct a as [k' [f|] [t|] [s|] x [c|]]; simpl in *; try discriminate.
  destruct (key_taken tbl k') eqn:Ht; [discriminate|]. intros [= <-].
  unfold unique_ids in *. rewrite map_app. simpl. subst k'.
  apply NoDup_app; repeat constructor; auto.
  - intros y Hy [<-|[]]. 
    assert (key_taken tbl (Some k) = true) by (apply key_taken_iff; eauto).
    congruence.
Qed.

(** The three ways [insert_message] ends. *)
Lemma insert_message_exits (fault : option sqlite_error) (tbl : table) (a : params) :
  (exists r, stores a r /\
      insert_message fault tbl a = (Returned "created", tbl ++ [r])) \/
  insert_message fault tbl a = (Returned "duplicate", tbl) \/
  (exists e, fault = Some e /\ err_class e <> IntegrityError /\
      insert_message fault tbl a = (Raised e, tbl)).
Proof.
  destruct (insert_message_table fault tbl a) as [Htbl | H]; [|now left].
  right. revert Htbl. unfold insert_message, execute_insert.
  destruct fault as [e|].
  - intros _. destruct (err_class e) eqn:Hc;
      try (right; exists e; repeat split; congruence).
    now left.
  - destruct (insert_row tbl a) as [tbl'|e] eqn:H.
    + simpl. intros ->. exfalso. revert H. unfold insert_row, not_null, bind.
      destruct (p_from_msisdn a), (p_to_msisdn a), (p_ts a), (p_created_at a);
        try discriminate.
      destruct (key_taken tbl (p_message_id a)); [discriminate|].
      intros [= H]. apply (f_equal (@List.length row)) in H.
      rewrite length_app in H. simpl in H. lia.
    + intros _. rewrite (insert_row_raises_integrity _ _ _ H). now left.
Qed.

(** C1.  On a store that executes the statement, a message whose
    four mandatory values are bound, as they are for every message
    that passed validation, whatever its text and its numbers, and
    whose identifier is not yet in the table is answered "created"
    and adds exactly one row, the one it describes, at the end of the
    table; once an identifier is in a table, every insert under it is
    answered "duplicate" and, whatever the condition of the store,
    leaves that table as it is; so after two inserts of the message
    exactly one row carries its identifier. *)
Theorem insert_idempotent (tbl : table) (a : params) (k : string) :
  complete a = true ->
  p_message_id a = Some k ->
  ~ In (Some k) (map message_id tbl) ->
  exists r,
    stores a r /\
    insert_message None tbl a = (Returned "created", tbl ++ [r]) /\
    List.length (tbl ++ [r]) = S (List.length tbl) /\
    (forall tbl' b,
        In (Some k) (map message_id tbl') -> p_message_id b = Some k ->
        insert_message None tbl' b = (Returned "duplicate", tbl')) /\
    (forall fault tbl' b,
        In (Some k) (map message_id tbl') -> p_message_id b = Some k ->
        snd (insert_message fault tbl' b) = tbl') /\
    insert_message None (tbl ++ [r]) a = (Returned "duplicate", tbl ++ [r]) /\
    rows_with_id k (tbl ++ [r]) = [r].
Proof.
  intros Hv Hk Hfresh.
  assert (Hfree : key_taken tbl (p_message_id a) = false).
  { destruct (key_taken tbl (p_message_id a)) eqn:E; [|reflexivity].
    apply key_taken_iff in E as (x & Hx & Hin). congruence. }
  eexists. split; [|split; [|split; [|split; [|split; [|split]]]]].
  2:{ unfold insert_message, execute_insert.
      rewrite (insert_row_complete _ _ Hv), Hfree. reflexivity. }
  - destruct (complete_not_null a Hv) as (f & t & s & c & _ & Hs & <- & <- & <- & <-).
    exact Hs.
  - rewrite length_app. simpl. lia.
  - intros tbl' b Hin Hb. now apply (insert_message_taken tbl' b k).
  - intros [e|] tbl' b Hin Hb.
    + unfold insert_message, execute_insert. now destruct (err_class e).
    + now rewrite (insert_message_taken tbl' b k).
  - apply (insert_message_taken _ a k Hk).
    rewrite map_app. apply in_or_app. right. simpl. rewrite Hk. now left.
  - unfold rows_with_id. rewrite filter_app.
    fold (rows_with_id k tbl). rewrite (rows_with_id_absent k tbl Hfresh).
    simpl. rewrite Hk. simpl. now rewrite String.eqb_refl.
Qed.

(** C9.  Whatever the arguments and the condition of the store: an
    integrity error of any kind is answered "duplicate" with the
    table unchanged, a missing value in a [NOT NULL] column included;
    an error of any other class leaves [insert_message] as the same
    exception, the table unchanged; hence the call either returns
    "created" or "duplicate" or raises the store's own non-integrity
    failure, and for a message whose four mandatory values are bound,
    as they are for every validated message, "duplicate" is returned
    exactly when the identifier is taken. *)
Theorem integrity_errors_read_as_duplicate :
  (forall fault tbl a e,
      execute_insert fault tbl a = Raised e ->
      err_class e = IntegrityError ->
      insert_message fault tbl a = (Returned "duplicate", tbl)) /\
  (forall tbl a,
      p_from_msisdn a = None \/ p_to_msisdn a = None \/
      p_ts a = None \/ p_created_at a = None ->
      insert_message None tbl a = (Returned "duplicate", tbl)) /\
  (forall fault tbl a e,
      execute_insert fault tbl a = Raised e ->
      err_class e <> IntegrityError ->
      insert_message fault tbl a = (Raised e, tbl)) /\
  (forall fault tbl a,
      match fst (insert_message fault tbl a) with
      | Returned s => s = "created" \/ s = "duplicate"
      | Raised e => fault = Some e /\ err_class e <> IntegrityError
      end) /\
  (forall tbl a,
      complete a = true ->
      (key_taken tbl (p_message_id a) = true /\
       insert_message None tbl a = (Returned "duplicate", tbl)) \/
      (key_taken tbl (p_message_id a) = false /\
       exists r, stores a r /\
         insert_message None tbl a = (Returned "created", tbl ++ [r]))).
Proof.
  split; [|split; [|split; [|split]]].
  - intros fault tbl a e He Hc. unfold insert_message. now rewrite He, Hc.
  - intros tbl a H. unfold insert_message, execute_insert, insert_row, not_null, bind.
    destruct a as [k [f|] [t|] [s|] x [c|]]; simpl in *;
      try reflexivity.
    destruct H as [H|[H|[H|H]]]; discriminate.
  - intros fault tbl a e He Hc. unfold insert_message. rewrite He.
    destruct (err_class e); congruence.
  - intros fault tbl a. unfold insert_message, execute_insert.
    destruct fault as [e|].
    + destruct (err_class e) eqn:Hc; simpl; auto; split; congruence.
    + destruct (insert_row tbl a) as [tbl'|e] eqn:H; simpl; [auto|].
      rewrite (insert_row_raises_integrity _ _ _ H). simpl. auto.
  - intros tbl a Hv. unfold insert_message, execute_insert.
    rewrite (insert_row_complete _ _ Hv).
    destruct (key_taken tbl (p_message_id a)); [left; auto | right].
    split; [reflexivity|]. eexists. split; [|reflexivity].
    destruct (complete_not_null a Hv) as (f & t & s & c & _ & Hs & <- & <- & <- & <-).
    exact Hs.
Qed.

(** ** Listing *)

Section Listing.
Context {U : Unicode}.

Lemma Permutation_filter {A} (f : A -> bool) (l l' : list A) :
  Permutation l l' -> Permutation (filter f l) (filter f l').
Proof.
  induction 1 as [|x l l' Hp IH|x y l|l l' l'' H1 IH1 H2 IH2]; simpl.
  - constructor.
  - destruct (f x); [now constructor | exact IH].
  - destruct (f x), (f y); try reflexivity. apply perm_swap.
  - now transitivity (filter f l').
Qed.

Lemma filter_filter {A} (f g : A -> bool) (l : list A) :
  filter g (filter f l) = filter (fun x => f x && g x) l.
Proof.
  induction l as [|x l IH]; simpl; [reflexivity|].
  destruct (f x); simpl; [destruct (g x)|]; now rewrite IH.
Qed.

Lemma filter_select (p : message -> bool) (l : list row) :
  filter p (map select_columns l) =
  map select_columns (filter (fun r => p (select_columns r)) l).
Proof.
  induction l as [|r l IH]; simpl; [reflexivity|].
  destruct (p (select_columns r)); simpl; now rewrite IH.
Qed.

Lemma order_key_total (a b : row) :
  order_key_leb a b = true \/ order_key_leb b a = true.
Proof.
  unfold order_key_leb.
  destruct (text_ltb_total (ts a) (ts b)) as [H | [H | H]].
  - left. now rewrite H.
  - rewrite H, !String.eqb_refl, !text_ltb_irrefl. simpl.
    apply opt_leb_total.
  - right. now rewrite H.
Qed.

Lemma order_key_cases (a b : row) :
  order_key_leb a b = true <->
  text_ltb (ts a) (ts b) = true \/
  (ts a = ts b /\ opt_leb (message_id a) (message_id b) = true).
Proof.
  unfold order_key_leb.
  now rewrite orb_true_iff, andb_true_iff, String.eqb_eq.
Qed.

Lemma order_key_trans (a b c : row) :
  order_key_leb a b = true -> order_key_leb b c = true ->
  order_key_leb a c = true.
Proof.
  rewrite !order_key_cases. intros [H1 | [E1 H1]] [H2 | [E2 H2]].
  - left. eapply text_ltb_trans; eauto.
  - left. now rewrite <- E2.
  - left. now rewrite E1.
  - right. split; [congruence|]. eapply opt_leb_trans; eauto.
Qed.

Lemma order_key_antisym (a b : row) :
  order_key_leb a b = true -> order_key_leb b a = true ->
  ts a = ts b /\ message_id a = message_id b.
Proof.
  rewrite !order_key_cases. intros [H1 | [E1 H1]] [H2 | [E2 H2]].
  - pose proof (text_ltb_trans _ _ _ H1 H2) as H.
    rewrite text_ltb_irrefl in H. discriminate.
  - rewrite E2, text_ltb_irrefl in H1. discriminate.
  - rewrite E1, text_ltb_irrefl in H2. discriminate.
  - split; [exact E1|]. now apply opt_leb_antisym.
Qed.

Lemma text_lt_iff (a b : string) : text_lt a b <-> text_ltb a b = true.
Proof.
  unfold text_lt, text_ltb, String.ltb.
  destruct (String.compare a b); intuition congruence.
Qed.

Lemma text_le_iff (a b : string) : text_le a b <-> text_leb a b = true.
Proof.
  unfold text_le. rewrite text_leb_cases, text_lt_iff. tauto.
Qed.

Lemma opt_le_iff (a b : option string) : opt_le a b <-> opt_leb a b = true.
Proof.
  destruct a, b; simpl; try (intuition congruence). apply text_le_iff.
Qed.

Lemma message_le_iff (a b : row) :
  message_le (select_columns a) (select_columns b) <-> order_key_leb a b = true.
Proof.
  unfold message_le. simpl. now rewrite order_key_cases, text_lt_iff, opt_le_iff.
Qed.

Lemma NoDup_map_eq {A B} (f : A -> B) (l : list A) (a b : A) :
  NoDup (map f l) -> In a l -> In b l -> f a = f b -> a = b.
Proof.
  induction l as [|x l IH]; simpl; [contradiction|].
  intros Hn Ha Hb Hf. inversion Hn as [|? ? Hx Hl]; subst.
  destruct Ha as [-> | Ha], Hb as [-> | Hb]; auto.
  - exfalso. apply Hx. rewrite Hf. now apply in_map.
  - exfalso. apply Hx. rewrite <- Hf. now apply in_map.
Qed.

(** The ordered selection does not depend on the storage order when
    the identifiers are distinct. *)
Lemma ordered_storage_independent (p : row -> bool) (tbl tbl' : table) :
  unique_ids tbl -> Permutation tbl tbl' ->
  order_by order_key_leb (filter p tbl') = order_by order_key_leb (filter p tbl).
Proof.
  intros Hu Hp. symmetry.
  apply (sorted_perm_unique (fun a b => order_key_leb a b = true)).
  - intros a b Ha Hb H1 H2.
    apply (Permutation_in _ (Permutation_sym (order_by_perm _ _))) in Ha, Hb.
    apply filter_In in Ha as [Ha _], Hb as [Hb _].
    apply (NoDup_map_eq message_id tbl); auto.
    now apply order_key_antisym.
  - apply order_by_sorted; [apply order_key_total | apply order_key_trans].
  - apply order_by_sorted; [apply order_key_total | apply order_key_trans].
  - rewrite <- !order_by_perm. now apply Permutation_filter.
Qed.

Lemma base_select_sorted (f s : option string) (tbl : table) :
  StronglySorted message_le (base_select f s tbl).
Proof.
  unfold base_select.
  apply (StronglySorted_map (fun a b => order_key_leb a b = true)).
  - intros a b. apply message_le_iff.
  - apply order_by_sorted; [apply order_key_total | apply order_key_trans].
Qed.

Lemma matching_rows_sorted (f s q : option string) (tbl : table) :
  StronglySorted message_le (matching_rows f s q tbl).
Proof.
  unfold matching_rows, search. destruct (truthy q).
  - apply StronglySorted_filter, base_select_sorted.
  - apply base_select_sorted.
Qed.

Lemma matching_rows_perm (f s q : option string) (tbl : table) :
  Permutation (matching_rows f s q tbl)
              (map select_columns (filter (row_matches f s q) tbl)).
Proof.
  unfold matching_rows, search, base_select, row_matches.
  destruct (truthy q).
  - rewrite filter_select. apply Permutation_map.
    rewrite <- filter_filter. apply Permutation_filter.
    symmetry. apply order_by_perm.
  - apply Permutation_map.
    rewrite (filter_ext (fun r => where_sql f s r && true) (where_sql f s))
      by (intros r; apply andb_true_r).
    symmetry. apply order_by_perm.
Qed.

Lemma matching_rows_length (f s q : option string) (tbl : table) :
  List.length (matching_rows f s q tbl) = count_matching f s q tbl.
Proof.
  unfold count_matching.
  rewrite (Permutation_length (matching_rows_perm f s q tbl)).
  apply length_map.
Qed.

(** C10.  An empty string given as the [from] filter, as the [since]
    bound or as the text query gives the page and the total of the
    call without that argument; with [from=""] and no other filter,
    the rows returned are all the rows of the table. *)
Theorem empty_filter_is_no_filter (limit offset : Z) (f s q : option string)
  (tbl : table) :
  list_messages limit offset (Some "") s q tbl =
    list_messages limit offset None s q tbl /\
  list_messages limit offset f (Some "") q tbl =
    list_messages limit offset f None q tbl /\
  list_messages limit offset f s (Some "") tbl =
    list_messages limit offset f s None tbl /\
  Permutation (matching_rows (Some "") None None tbl) (map select_columns tbl).
Proof.
  repeat split.
  rewrite matching_rows_perm. apply Permutation_map.
  unfold row_matches, where_sql, where_from, where_since. simpl.
  now rewrite filter_true.
Qed.

(** C4.  For a limit of at least 1 and a non-negative offset: the
    total is the number of rows of the table that pass all the
    filters, whatever the limit and the offset; the page has
    [min(limit, max(0, total - offset))] rows; and an offset at or
    past the total gives an empty page. *)
Theorem pagination (limit offset : Z) (f s q : option string) (tbl : table) :
  (1 <= limit)%Z -> (0 <= offset)%Z ->
  let page := fst (list_messages limit offset f s q tbl) in
  let total := snd (list_messages limit offset f s q tbl) in
  total = Z.of_nat (count_matching f s q tbl) /\
  (forall limit' offset', snd (list_messages limit' offset' f s q tbl) = total) /\
  Z.of_nat (List.length page) = Z.min limit (Z.max 0 (total - offset)) /\
  ((total <= offset)%Z -> page = []).
Proof.
  intros Hl Ho. unfold list_messages. cbn [fst snd].
  repeat split.
  - now rewrite matching_rows_length.
  - rewrite slice_length by lia. f_equal. lia.
  - apply slice_beyond.
Qed.

(** C5.  Over any table whose identifiers are distinct, with equal or
    distinct timestamps: the rows before pagination are the stored
    messages that pass the filters, all the stored messages when there
    is no filter, sorted by (timestamp, message_id) ascending, an
    order that is total and separates the stored messages, so that
    they are the only sorted arrangement of these messages; the total
    returned is their number, the page returned is the part of them
    that starts at the offset and has at most [limit] rows, so it is
    sorted as well, and with offset 0 and a limit of at least the
    total the page is all of them; and the call returns the same page
    and total whatever the order in which the store holds the rows. *)
Theorem ordering_deterministic (limit offset : Z) (f s q : option string)
  (tbl tbl' : table) :
  unique_ids tbl -> Permutation tbl tbl' ->
  let rows := matching_rows f s q tbl in
  let page := fst (list_messages limit offset f s q tbl) in
  StronglySorted message_le rows /\
  Permutation rows (map select_columns (filter (row_matches f s q) tbl)) /\
  (forall l, Permutation l (map select_columns (filter (row_matches f s q) tbl)) ->
             StronglySorted message_le l -> l = rows) /\
  snd (list_messages limit offset f s q tbl) = Z.of_nat (List.length rows) /\
  ((0 <= offset)%Z -> (0 <= limit)%Z ->
   page = firstn (Z.to_nat limit) (skipn (Z.to_nat offset) rows)) /\
  (forall limit', (Z.of_nat (List.length rows) <= limit')%Z ->
     fst (list_messages limit' 0 f s q tbl) = rows) /\
  (exists pre post, rows = pre ++ page ++ post) /\
  StronglySorted message_le page /\
  Permutation (matching_rows None None None tbl) (map select_columns tbl) /\
  (forall a b, In a rows -> In b rows -> message_le a b \/ message_le b a) /\
  (forall a b, In a rows -> In b rows ->
               message_le a b -> message_le b a -> a = b) /\
  list_messages limit offset f s q tbl' = list_messages limit offset f s q tbl.
Proof.
  intros Hu Hp rows page.
  assert (Hsorted : StronglySorted message_le rows) by apply matching_rows_sorted.
  assert (Hperm : Permutation rows (map select_columns (filter (row_matches f s q) tbl)))
    by apply matching_rows_perm.
  assert (Hinfix : exists pre post, rows = pre ++ page ++ post)
    by apply slice_infix.
  assert (Hrow : forall a, In a rows -> exists r, In r tbl /\ a = select_columns r).
  { intros a Ha. apply (Permutation_in _ Hperm) in Ha.
    apply in_map_iff in Ha as (r & <- & Hr). apply filter_In in Hr as [Hr _].
    eauto. }
  assert (Hanti : forall a b, In a rows -> In b rows ->
                    message_le a b -> message_le b a -> a = b).
  { intros a b Ha Hb.
    destruct (Hrow a Ha) as (ra & Hra & ->), (Hrow b Hb) as (rb & Hrb & ->).
    rewrite !message_le_iff. intros H1 H2. f_equal.
    apply (NoDup_map_eq message_id tbl); auto.
    now apply order_key_antisym. }
  split; [exact Hsorted|]. split; [exact Hperm|].
  split; [|split; [|split; [|split; [|split; [exact Hinfix|]]]]].
  - intros l Hl Hs. symmetry.
    apply (sorted_perm_unique message_le); auto.
    now rewrite Hperm.
  - reflexivity.
  - intros Ho Hl. subst page. unfold list_messages. cbn [fst]. fold rows.
    rewrite slice_nonneg by lia. f_equal. lia.
  - intros limit' Hl. unfold list_messages. cbn [fst]. fold rows.
    now apply slice_all.
  - split; [|split; [|split; [|split]]].
    + destruct Hinfix as (pre & post & E). rewrite E in Hsorted.
      eapply StronglySorted_app_l, StronglySorted_app_r. exact Hsorted.
    + rewrite matching_rows_perm. apply Permutation_map.
      unfold row_matches, where_sql, where_from, where_since. simpl.
      now rewrite filter_true.
    + intros a b Ha Hb.
      destruct (Hrow a Ha) as (ra & _ & ->), (Hrow b Hb) as (rb & _ & ->).
      rewrite !message_le_iff. apply order_key_total.
    + exact Hanti.
    + unfold list_messages, matching_rows, base_select.
      now rewrite (ordered_storage_independent _ tbl tbl' Hu Hp).
Qed.

(** ** Search *)

Lemma same_ignoring_case_iff (a b : string) :
  same_ignoring_case a b <-> ascii_lower a = ascii_lower b.
Proof.
  split.
  - induction 1; simpl; congruence.
  - revert b. induction a as [|c a IH]; intros [|d b]; simpl; try discriminate.
    + constructor.
    + intros [= Hc Hl]. constructor; auto.
Qed.

Lemma contains_ascii_lower_iff (q t : string) :
  contains (ascii_lower q) (ascii_lower t) = true <-> ci_substring q t.
Proof.
  rewrite contains_iff. unfold ci_substring. split.
  - intros (pre & post & H).
    apply ascii_lower_app_inv in H as (t1 & t2 & -> & <- & H).
    apply ascii_lower_app_inv in H as (t3 & t4 & -> & H & <-).
    exists t1, t3, t4. split; [reflexivity|]. now apply same_ignoring_case_iff.
  - intros (pre & mid & post & -> & H). apply same_ignoring_case_iff in H.
    exists (ascii_lower pre), (ascii_lower post). now rewrite !ascii_lower_app, H.
Qed.

(** On ASCII text the folded query is a part of the folded text
    exactly when the query is a part of the text up to the case of
    the letters. *)
Lemma folded_ascii (q t : string) :
  folding U -> isascii q = true -> isascii t = true ->
  folded_substring q t <-> ci_substring q t.
Proof.
  intros [Ha _] Hq Ht. unfold folded_substring.
  rewrite (Ha q Hq), (Ha t Ht), <- contains_iff.
  apply contains_ascii_lower_iff.
Qed.

Lemma text_matches_iff (q : string) (r : row) :
  folding U -> q <> "" ->
  text_matches q (select_columns r) = true <->
  exists t, text r = Some t /\ folded_substring q t.
Proof.
  intros [Ha He] Hq. unfold text_matches, folded_substring. simpl.
  destruct (text r) as [t|]; simpl.
  - rewrite contains_iff. split; [eauto|]. now intros (t' & [= <-] & H).
  - split; [|now intros (t & H & _)]. intros H. exfalso. apply Hq, He.
    rewrite (Ha "" eq_refl) in H. simpl in H.
    destruct (lower q); [reflexivity | discriminate].
Qed.

Lemma where_from_iff (f : option string) (r : row) :
  where_from f r = true <-> passes_from f r.
Proof.
  unfold where_from, passes_from. destruct f as [x|]; simpl.
  - destruct (String.eqb_spec x ""); simpl.
    + split; [congruence | reflexivity].
    + rewrite String.eqb_eq. split; [congruence | auto].
  - split; [discriminate | reflexivity].
Qed.

Lemma where_since_iff (s : option string) (r : row) :
  where_since s r = true <-> passes_since s r.
Proof.
  unfold where_since, passes_since. destruct s as [x|]; simpl.
  - destruct (String.eqb_spec x ""); simpl.
    + split; [congruence | reflexivity].
    + rewrite <- text_le_iff. split; [congruence | auto].
  - split; [discriminate | reflexivity].
Qed.

(** A row that is kept passes the two SQL filters. *)
Lemma row_matches_where (f s q : option string) (r : row) :
  row_matches f s q r = true -> passes_from f r /\ passes_since s r.
Proof.
  unfold row_matches, where_sql.
  rewrite !andb_true_iff, where_from_iff, where_since_iff. tauto.
Qed.

Lemma query_iff (q : option string) (r : row) :
  folding U ->
  (if truthy q then text_matches (or_empty q) (select_columns r) else true) = true
  <-> passes_query q r.
Proof.
  intros HU. unfold passes_query. destruct q as [x|]; simpl.
  - destruct (String.eqb_spec x ""); simpl.
    + split; [congruence | reflexivity].
    + rewrite text_matches_iff by assumption. split.
      * now intros H y [= <-] _.
      * intros H. now apply H.
  - split; [discriminate | reflexivity].
Qed.

Lemma row_matches_iff (f s q : option string) (r : row) :
  folding U ->
  row_matches f s q r = true <-> passes f s q r.
Proof.
  intros HU. unfold row_matches, where_sql, passes.
  now rewrite !andb_true_iff, where_from_iff, where_since_iff, (query_iff q r HU).
Qed.


End Listing.

(** The folding of the sample runtime has the two properties used of
    [str.lower()]. *)
Lemma lower_from_ascii (b : bool) (s : string) :
  isascii s = true -> Sample.lower_from b s = ascii_lower s.
Proof.
  revert b. induction s as [|c t IH]; intros b; [reflexivity|].
  cbn [isascii]. rewrite andb_true_iff. intros [Hc Ht].
  apply Nat.ltb_lt in Hc.
  assert (H206 : (Sample.code c =? 206)%nat = false)
    by (apply Nat.eqb_neq; unfold Sample.code; lia).
  assert (H207 : (Sample.code c =? 207)%nat = false)
    by (apply Nat.eqb_neq; unfold Sample.code; lia).
  cbn [Sample.lower_from ascii_lower].
  destruct t as [|d t'].
  - reflexivity.
  - unfold Sample.greek_capital, Sample.greek_small. rewrite H206, H207.
    cbn [andb orb negb]. f_equal. now apply IH.
Qed.

Lemma lower_from_empty (b : bool) (s : string) :
  Sample.lower_from b s = "" -> s = "".
Proof.
  destruct s as [|c t]; [reflexivity|]. cbn [Sample.lower_from].
  destruct t as [|d t']; [discriminate|].
  destruct (Sample.greek_capital c d).
  - destruct (Sample.code d =? 163)%nat.
    + destruct (b && negb (Sample.cased_ahead t')); discriminate.
    + destruct (Sample.code d <=? 159)%nat; discriminate.
  - destruct (Sample.greek_small c d); discriminate.
Qed.

Lemma sample_folding : folding Sample.unicode.
Proof.
  split; intros s.
  - apply lower_from_ascii.
  - apply lower_from_empty.
Qed.


(** ** Statistics *)

Lemma in_group_by_sender (tbl : table) (p : string * nat) :
  In p (group_by_sender tbl) <->
  In (fst p) (map from_msisdn tbl) /\ snd p = count_from (fst p) tbl.
Proof.
  unfold group_by_sender, senders. rewrite in_map_iff. split.
  - intros (s & <- & Hs). apply nodup_In in Hs. auto.
  - intros [Hs Hc]. exists (fst p). rewrite nodup_In. split; [|exact Hs].
    destruct p. simpl in *. now rewrite Hc.
Qed.

Lemma group_by_sender_fst (tbl : table) :
  map fst (group_by_sender tbl) = senders tbl.
Proof.
  unfold group_by_sender. rewrite map_map. simpl. apply map_id.
Qed.

Lemma count_from_positive (s : string) (tbl : table) :
  In s (map from_msisdn tbl) -> (1 <= count_from s tbl)%nat.
Proof.
  intros H. apply in_map_iff in H as (r & Hr & Hin).
  unfold count_from.
  assert (Hf : In r (filter (fun r => from_msisdn r =? s) tbl)).
  { apply filter_In. split; [exact Hin|]. now apply String.eqb_eq. }
  destruct (filter _ tbl); [contradiction | simpl; lia].
Qed.

Lemma count_desc_b_iff (a b : string * nat) :
  count_desc_b a b = true <-> count_desc a b.
Proof. apply Nat.leb_le. Qed.

(** The query always has a result. *)
Lemma top_senders_stable_admitted (tbl : table) :
  top_senders_admits tbl (top_senders_stable tbl).
Proof.
  exists (order_by count_desc_b (group_by_sender tbl)). split; [|reflexivity].
  split; [apply order_by_perm|].
  apply (StronglySorted_weaken (fun a b => count_desc_b a b = true));
    [intros a b; apply count_desc_b_iff|].
  apply order_by_sorted.
  - intros a b. unfold count_desc_b. rewrite !Nat.leb_le. lia.
  - intros a b c. unfold count_desc_b. rewrite !Nat.leb_le. lia.
Qed.

Lemma stats_stable_returned (tbl : table) : stats tbl (stats_stable tbl).
Proof.
  repeat split. apply top_senders_stable_admitted.
Qed.

(** What every ranking admitted by the query satisfies. *)
Lemma admitted_ranking (tbl : table) (res : list (string * nat)) :
  top_senders_admits tbl res ->
  List.length res = Nat.min 10 (count_senders tbl) /\
  (forall p, In p res ->
      In (fst p) (map from_msisdn tbl) /\
      snd p = count_from (fst p) tbl /\ (1 <= snd p)%nat) /\
  NoDup (map fst res) /\
  StronglySorted count_desc res /\
  (forall s p, In s (map from_msisdn tbl) -> ~ In s (map fst res) ->
               In p res -> (count_from s tbl <= snd p)%nat).
Proof.
  intros (ordered & [Hperm Hsorted] & ->).
  assert (Hsplit : ordered = firstn 10 ordered ++ skipn 10 ordered)
    by (symmetry; apply firstn_skipn).
  assert (Hnodup : NoDup (map fst ordered)).
  { eapply Permutation_NoDup; [apply Permutation_map; exact Hperm|].
    rewrite group_by_sender_fst. apply NoDup_nodup. }
  split; [|split; [|split; [|split]]].
  - rewrite length_firstn, <- (Permutation_length Hperm).
    unfold group_by_sender, count_senders. now rewrite length_map.
  - intros p Hp.
    assert (Hin : In p (group_by_sender tbl)).
    { apply (Permutation_in _ (Permutation_sym Hperm)).
      rewrite Hsplit. apply in_or_app. now left. }
    apply in_group_by_sender in Hin as [Hs Hc]. repeat split; auto.
    rewrite Hc. now apply count_from_positive.
  - rewrite Hsplit, map_app in Hnodup. now apply NoDup_app_remove_r in Hnodup.
  - rewrite Hsplit in Hsorted. now apply StronglySorted_app_l in Hsorted.
  - intros s p Hs Hout Hp.
    assert (Hin : In (s, count_from s tbl) ordered).
    { apply (Permutation_in _ Hperm). now apply in_group_by_sender. }
    rewrite Hsplit in Hin. apply in_app_or in Hin as [Hin | Hin].
    + exfalso. apply Hout. apply in_map_iff. now exists (s, count_from s tbl).
    + rewrite Hsplit in Hsorted.
      apply (StronglySorted_app_between _ _ _ Hsorted p _ Hp Hin).
Qed.

(** After three messages of one sender and one of another, [stats]
    has one possible answer. *)
Lemma stats_three_and_one_only (s : snapshot) :
  stats three_and_one s ->
  s = Snapshot 4 2 [("+100", 3); ("+200", 1)]
               (Some "2025-01-15T10:00:00Z") (Some "2025-01-15T10:00:00Z").
Proof.
  destruct s as [n k res lo hi]. intros (Hn & Hk & Hres & Hlo & Hhi).
  simpl in *. subst n k lo hi.
  destruct (admitted_ranking _ _ Hres) as (Hlen & Hin & Hnd & Hsorted & _).
  change (count_senders three_and_one) with 2 in Hlen. simpl in Hlen.
  destruct res as [|[s1 c1] [|[s2 c2] [|? ?]]]; try discriminate.
  assert (H1 := Hin (s1, c1) (or_introl eq_refl)).
  assert (H2 := Hin (s2, c2) (or_intror (or_introl eq_refl))).
  simpl in H1, H2. destruct H1 as (S1 & C1 & _), H2 as (S2 & C2 & _).
  inversion Hnd as [|? ? Hnot _]; subst. simpl in Hnot.
  inversion Hsorted as [|? ? _ Hall]; subst.
  inversion Hall as [|? ? Hle _]; subst. unfold count_desc in Hle. simpl in Hle.
  destruct S1 as [<- | [<- | [<- | [<- | []]]]],
           S2 as [<- | [<- | [<- | [<- | []]]]];
    try (exfalso; apply Hnot; now left);
    try (vm_compute in Hle; exfalso; lia);
    repeat f_equal.
Qed.

(** C3, as the code has it.  Whatever ranking [stats] returns: it has
    10 entries, or as many as there are senders if fewer; each entry
    is a sender of the table with its count of messages, no sender
    twice; the entries are in descending order of count; and no
    sender left out has more messages than a sender listed.  The
    query orders by the count alone: the order among senders with
    equal counts is not determined. *)
Theorem top_senders_by_count (tbl : table) (s : snapshot) :
  stats tbl s ->
  let res := messages_per_sender s in
  List.length res = Nat.min 10 (count_senders tbl) /\
  (forall p, In p res ->
      In (fst p) (map from_msisdn tbl) /\
      snd p = count_from (fst p) tbl /\ (1 <= snd p)%nat) /\
  NoDup (map fst res) /\
  StronglySorted count_desc res /\
  (forall sender p, In sender (map from_msisdn tbl) -> ~ In sender (map fst res) ->
               In p res -> (count_from sender tbl <= snd p)%nat).
Proof.
  intros (_ & _ & Hres & _). exact (admitted_ranking tbl _ Hres).
Qed.

(** C3, as the specification words it, fails: on a table with two
    senders of one message each, stored "+2" first, [stats] may answer
    with the ranking [("+2", 1); ("+1", 1)], which is also the one the
    stable ranking computes, while count descending then sender
    ascending asks for "+1" first. *)
Lemma tie_order_not_by_sender :
  let answer := Snapshot 2 2 [("+2", 1); ("+1", 1)]
                  (Some "2025-01-15T10:00:00Z") (Some "2025-01-15T10:00:00Z") in
  stats two_senders answer /\
  stats_stable two_senders = answer /\
  ~ StronglySorted ranked (messages_per_sender answer).
Proof.
  split; [|split].
  - apply (stats_stable_returned two_senders).
  - reflexivity.
  - simpl. intros H. inversion H as [|? ? _ Hall]; subst.
    inversion Hall as [|? ? Hr _]; subst.
    destruct Hr as [Hlt | [_ [Heq | Hlt]]]; simpl in *.
    + lia.
    + discriminate.
    + discriminate.
Qed.

End StorageFacts.

(* ================================================================== *)
(** * The metrics collector *)
(* ================================================================== *)

Module MetricsFacts.
Import Py Metrics Spec PyFacts.

Lemma get_incr_same_s (d : dict) (k : string) :
  get String.eqb (incr String.eqb d k) k = S (get String.eqb d k).
Proof. apply get_incr_same, String.eqb_spec. Qed.

Lemma get_incr_other_s (d : dict) (k k0 : string) :
  k0 <> k -> get String.eqb (incr String.eqb d k) k0 = get String.eqb d k0.
Proof. apply get_incr_other, String.eqb_spec. Qed.

Lemma Qle_bool_false (x y : Q) : Qle_bool x y = false <-> (y < x)%Q.
Proof.
  rewrite <- not_true_iff_false, Qle_bool_iff. split.
  - apply Qnot_le_lt.
  - apply Qlt_not_le.
Qed.

(** The three classes are exclusive and cover every latency. *)
Lemma classes (ms : Q) :
  (fast ms = true <-> (ms <= 100 # 1)%Q) /\
  (medium ms = true <-> (100 # 1 < ms)%Q /\ (ms <= 500 # 1)%Q) /\
  (slow ms = true <-> (500 # 1 < ms)%Q) /\
  (fast ms = true /\ medium ms = false /\ slow ms = false \/
   fast ms = false /\ medium ms = true /\ slow ms = false \/
   fast ms = false /\ medium ms = false /\ slow ms = true).
Proof.
  unfold fast, medium, slow.
  destruct (Qle_bool ms (100 # 1)) eqn:E1, (Qle_bool ms (500 # 1)) eqn:E5;
    try apply Qle_bool_iff in E1; try apply Qle_bool_iff in E5;
    try apply Qle_bool_false in E1; try apply Qle_bool_false in E5;
    simpl; intuition (try discriminate; try lra).
Qed.

Lemma bucket_of_class (ms : Q) :
  bucket_of ms = if fast ms then "100" else if medium ms then "500" else "+Inf".
Proof.
  unfold bucket_of, fast, medium.
  destruct (Qle_bool ms (100 # 1)); [reflexivity|].
  now destruct (Qle_bool ms (500 # 1)).
Qed.

(** One observation adds one to the bucket of its class and leaves
    the other two alone. *)
Lemma observe_latency_counts (ms : Q) (m : t) :
  count_100 (observe_latency ms m) = bump (fast ms) (count_100 m) /\
  count_500 (observe_latency ms m) = bump (medium ms) (count_500 m) /\
  count_inf (observe_latency ms m) = bump (slow ms) (count_inf m).
Proof.
  unfold count_100, count_500, count_inf, observe_latency. simpl.
  rewrite bucket_of_class.
  destruct (classes ms) as (_ & _ & _ & [(-> & -> & ->) | [(-> & -> & ->) | (-> & -> & ->)]]);
    simpl; repeat split;
    first [apply get_incr_same_s | apply get_incr_other_s; discriminate].
Qed.

Lemma observe_all_counts (l : list Q) (m : t) :
  count_100 (observe_all l m) = count_100 m + count_if fast l /\
  count_500 (observe_all l m) = count_500 m + count_if medium l /\
  count_inf (observe_all l m) = count_inf m + count_if slow l.
Proof.
  revert m. induction l as [|ms l IH]; intros m.
  - unfold count_if. simpl. lia.
  - change (observe_all (ms :: l) m) with (observe_all l (observe_latency ms m)).
    destruct (IH (observe_latency ms m)) as (-> & -> & ->).
    destruct (observe_latency_counts ms m) as (-> & -> & ->).
    unfold count_if, bump. simpl.
    destruct (fast ms), (medium ms), (slow ms); simpl; lia.
Qed.

Lemma count_classes (l : list Q) :
  count_if fast l + count_if medium l + count_if slow l = List.length l.
Proof.
  unfold count_if. induction l as [|ms l IH]; simpl; [reflexivity|].
  destruct (classes ms) as (_ & _ & _ & [(-> & -> & ->) | [(-> & -> & ->) | (-> & -> & ->)]]);
    simpl; lia.
Qed.

(** ** The exposition *)

Lemma join_unlines (sep : string) (ls : list string) :
  ls <> [] ->
  (join sep ls ++ sep)%string =
  String.concat "" (map (fun l => (l ++ sep)%string) ls).
Proof.
  unfold join. induction ls as [|x ls IH]; [congruence|]. intros _.
  destruct ls as [|y ls]; [reflexivity|].
  change (String.concat sep (x :: y :: ls))
    with (x ++ sep ++ String.concat sep (y :: ls))%string.
  change (String.concat "" (map (fun l => (l ++ sep)%string) (x :: y :: ls)))
    with ((x ++ sep) ++
          String.concat "" (map (fun l => (l ++ sep)%string) (y :: ls)))%string.
  rewrite <- IH by discriminate. now rewrite !append_assoc.
Qed.

Lemma format_http (path status : string) (value : nat) :
  format_sample (Sample "http_requests_total" [("path", path); ("status", status)] value)
  = http_line ((path, status), value).
Proof.
  unfold format_sample, http_line, format_label, join, quote.
  repeat (cbn; rewrite ?append_assoc). reflexivity.
Qed.

Lemma format_webhook (result : string) (value : nat) :
  format_sample (Sample "webhook_requests_total" [("result", result)] value)
  = webhook_line (result, value).
Proof.
  unfold format_sample, webhook_line, format_label, join, quote.
  repeat (cbn; rewrite ?append_assoc). reflexivity.
Qed.

(** The text of the exposition, line by line: one line for each key
    of the HTTP counter, one for each key of the webhook counter, in
    the order in which the keys were first counted, then the four
    latency lines. *)
Lemma render_lines (m : t) :
  render_prometheus m =
  unlines (map http_line (http_requests m) ++ map webhook_line (webhook_requests m) ++
           latency_lines (count_100 m) (count_500 m) (count_inf m)).
Proof.
  unfold render_prometheus, unlines.
  rewrite join_unlines.
  - f_equal. f_equal. unfold samples, http_samples, webhook_samples.
    rewrite !map_app, !map_map. f_equal; [|f_equal].
    + apply map_ext. intros [[path status] value]. apply format_http.
    + apply map_ext. intros [result value]. apply format_webhook.
  - unfold samples, latency_samples. intros H.
    apply (f_equal (@List.length _)) in H.
    rewrite !length_map, !length_app in H. simpl in H. lia.
Qed.

(** C8.  Each observation falls in exactly one of the classes
    [ms <= 100], [100 < ms <= 500], [500 < ms], and adds one to the
    bucket of that class and nothing to the other two; after any run
    of observations the three buckets have grown by the number of
    observations of their class; the text [render_prometheus]
    returns ends with the four latency lines, each closed by a
    newline, whose values are cumulative: the [le="100"] line is at
    most the [le="500"] line, which is at most the [le="+Inf"] line,
    which equals the unlabelled count line and, on a collector that
    started empty, the number of observations. *)
Theorem latency_histogram (l : list Q) (m0 : t) :
  let m := observe_all l m0 in
  (forall ms m1,
      ((ms <= 100 # 1)%Q /\ fast ms = true /\ medium ms = false /\ slow ms = false \/
       ((100 # 1 < ms)%Q /\ (ms <= 500 # 1)%Q) /\
         fast ms = false /\ medium ms = true /\ slow ms = false \/
       (500 # 1 < ms)%Q /\ fast ms = false /\ medium ms = false /\ slow ms = true) /\
      count_100 (observe_latency ms m1) = bump (fast ms) (count_100 m1) /\
      count_500 (observe_latency ms m1) = bump (medium ms) (count_500 m1) /\
      count_inf (observe_latency ms m1) = bump (slow ms) (count_inf m1) /\
      total (observe_latency ms m1) = S (total m1)) /\
  count_100 m = count_100 m0 + count_if fast l /\
  count_500 m = count_500 m0 + count_if medium l /\
  count_inf m = count_inf m0 + count_if slow l /\
  total m = total m0 + List.length l /\
  rendered_bucket "100" m = Some (count_100 m) /\
  rendered_bucket "500" m = Some (count_100 m + count_500 m) /\
  rendered_bucket "+Inf" m = Some (total m) /\
  rendered_count m = Some (total m) /\
  (exists head : list string,
      render_prometheus m =
      unlines (head ++ [bucket_line "100" (count_100 m);
                        bucket_line "500" (count_100 m + count_500 m);
                        bucket_line "+Inf" (total m);
                        count_line (total m)])) /\
  (count_100 m <= count_100 m + count_500 m)%nat /\
  (count_100 m + count_500 m <= total m)%nat /\
  total (observe_all l init) = List.length l.
Proof.
  intros m.
  assert (Htotal : forall l m1, total (observe_all l m1) = total m1 + List.length l).
  { intros l1 m1. unfold total.
    destruct (observe_all_counts l1 m1) as (-> & -> & ->).
    rewrite <- (count_classes l1). lia. }
  split; [|repeat split].
  - intros ms m1.
    destruct (observe_latency_counts ms m1) as (H1 & H2 & H3).
    split; [|split; [exact H1 | split; [exact H2 | split; [exact H3|]]]].
    + destruct (classes ms) as (F & M & S & [C | [C | C]]).
      * left. split; [apply F; tauto | exact C].
      * right. left. split; [apply M; tauto | exact C].
      * right. right. split; [apply S; tauto | exact C].
    + unfold total. rewrite H1, H2, H3. unfold bump.
      destruct (classes ms) as (_ & _ & _ & [(-> & -> & ->) | [(-> & -> & ->) | (-> & -> & ->)]]);
        lia.
  - apply observe_all_counts.
  - apply observe_all_counts.
  - apply observe_all_counts.
  - apply Htotal.
  - exists (map http_line (http_requests m) ++ map webhook_line (webhook_requests m)).
    rewrite render_lines. now rewrite <- app_assoc.
  - lia.
  - unfold total. lia.
  - apply (Htotal l init).
Qed.

End MetricsFacts.

(* ================================================================== *)
(** * The webhook handler *)
(* ================================================================== *)

Module MainFacts.
Import Py Sqlite Storage Main Spec PyFacts StorageFacts.

Section Handler.
Context {R : Runtime}.
Variables (secret : string) (fault : option sqlite_error) (now : datetime).
Variables (raw : bytes) (x_signature : option string) (st : state).

Let run := webhook secret fault now raw x_signature st.
Let expected := hexdigest (encode secret) raw.

(** The exits of the handler, in the order of its text. *)
Lemma webhook_exits :
  (truthy x_signature = false /\
   run = (HTTPException 401 "invalid signature", record "invalid_signature" st)) \/
  (truthy x_signature = true /\ isascii (or_empty x_signature) = false /\
   exists msg, run = (Unhandled (TypeError msg), st)) \/
  (truthy x_signature = true /\ isascii (or_empty x_signature) = true /\
   or_empty x_signature <> expected /\
   run = (HTTPException 401 "invalid signature", record "invalid_signature" st)) \/
  (x_signature = Some expected /\
   exists e, parse_raw raw = Raised e /\
     run = (HTTPException 422 e, record "validation_error" st)) \/
  (x_signature = Some expected /\
   exists msg, parse_raw raw = Returned msg /\
     run = match insert_message fault (db st) (params_of msg now) with
           | (Raised e, tbl) => (Unhandled (Sqlite e), State tbl (metrics st))
           | (Returned result, tbl) =>
               (Processed result, record result (State tbl (metrics st)))
           end).
Proof.
  subst run expected. unfold webhook.
  destruct (truthy x_signature) eqn:Ht; simpl; [|now left].
  right. unfold compare_digest, hexdigest. rewrite hexlify_isascii. simpl.
  destruct (isascii (or_empty x_signature)) eqn:Ha.
  - right.
    destruct (String.eqb_spec (hexlify (hmac_sha256 (encode secret) raw))
                              (or_empty x_signature)) as [E|E].
    + right.
      assert (Hs : x_signature = Some (hexlify (hmac_sha256 (encode secret) raw)))
        by (rewrite E; now apply truthy_or_empty).
      destruct (parse_raw raw) as [msg|e]; [right | left]; split; eauto.
    + left. repeat split; auto.
  - left. eauto.
Qed.

Lemma record_counts (l : string) (s : state) :
  Py.get String.eqb (Metrics.webhook_requests (metrics (record l s))) l =
    S (Py.get String.eqb (Metrics.webhook_requests (metrics s)) l) /\
  (forall l', l' <> l ->
     Py.get String.eqb (Metrics.webhook_requests (metrics (record l s))) l' =
     Py.get String.eqb (Metrics.webhook_requests (metrics s)) l') /\
  Metrics.http_requests (metrics (record l s)) = Metrics.http_requests (metrics s) /\
  Metrics.latency_buckets (metrics (record l s)) = Metrics.latency_buckets (metrics s) /\
  db (record l s) = db s.
Proof.
  simpl. repeat split.
  - apply get_incr_same, String.eqb_spec.
  - intros l' Hl. now apply get_incr_other; [apply String.eqb_spec|].
Qed.

(** The table after a request is the table before it, or that table
    with the row of the message at its end; the latter only for a
    request answered as created. *)
Lemma webhook_table :
  db (snd run) = db st \/
  exists msg r, parse_raw raw = Returned msg /\ stores (params_of msg now) r /\
    fst run = Processed "created" /\ db (snd run) = db st ++ [r].
Proof.
  destruct webhook_exits as [[_ ->] | [(_ & _ & msg & ->) | [(_ & _ & _ & ->) |
    [(_ & e & _ & ->) | (_ & msg & Hp & ->)]]]]; auto.
  destruct (insert_message_exits fault (db st) (params_of msg now))
    as [(r & Hr & ->) | [-> | (e & _ & _ & ->)]]; auto.
  right. exists msg, r. auto.
Qed.

(** Requests keep the identifiers of the table distinct. *)
Lemma webhook_unique_ids : unique_ids (db st) -> unique_ids (db (snd run)).
Proof.
  intros Hu.
  destruct webhook_exits as [[_ ->] | [(_ & _ & msg & ->) | [(_ & _ & _ & ->) |
    [(_ & e & _ & ->) | (_ & msg & Hp & ->)]]]]; auto.
  pose proof (insert_message_unique_ids fault (db st) (params_of msg now)
                (w_message_id msg) eq_refl Hu) as H.
  destruct (insert_message fault (db st) (params_of msg now)) as [[result|e] tbl];
    exact H.
Qed.

(** C2.  When the request is answered as an invalid signature or as
    a validation error, the table is the one before the call.  The
    first answer is given only when the signature header is absent
    or empty or differs from the hex HMAC-SHA256 of the body under
    the secret, the second only when the signature is that digest
    and the body fails to parse as a message. *)
Theorem rejection_leaves_store :
  outcome_of (fst run) = Some InvalidSignature \/
  outcome_of (fst run) = Some ValidationError ->
  db (snd run) = db st /\
  (outcome_of (fst run) = Some InvalidSignature ->
     truthy x_signature = false \/ or_empty x_signature <> expected) /\
  (outcome_of (fst run) = Some ValidationError ->
     x_signature = Some expected /\ exists e, parse_raw raw = Raised e).
Proof.
  intros Hrej.
  destruct webhook_exits as [[Ht E] | [(_ & _ & msg & E) | [(_ & _ & Hne & E) |
    [(Hs & e & Hp & E) | (_ & msg & Hp & E)]]]]; rewrite E in *; simpl in *.
  - split; [reflexivity|]. split; [auto | discriminate].
  - destruct Hrej; discriminate.
  - split; [reflexivity|]. split; [auto | discriminate].
  - split; [reflexivity|]. split; [discriminate | eauto].
  - exfalso.
    destruct (insert_message_exits fault (db st) (params_of msg now))
      as [(r & _ & Hi) | [Hi | (e & _ & _ & Hi)]]; rewrite Hi in *; simpl in *;
      destruct Hrej; discriminate.
Qed.

(** C7, as the code has it.  For a request whose signature header,
    if any, is made of ASCII characters: when the handler reaches
    one of the four outcomes, the webhook counter of that outcome's
    name grows by one, the webhook counters of all other labels and
    the other two families of counters keep their values, whether
    the request was accepted or rejected, and the table has gained
    the message's row for a creation and is unchanged otherwise; the
    handler reaches no outcome only when the backing store fails
    with a non-integrity error during the insert; and whenever the
    store does so, that is for a request whose signature header is
    given and is the digest and whose body is a valid message, that
    error leaves the handler, no outcome is reached, and the counters
    and the table are what they were. *)
Theorem outcome_recorded :
  isascii (or_empty x_signature) = true ->
  (forall e msg,
      truthy x_signature = true -> x_signature = Some expected ->
      parse_raw raw = Returned msg ->
      fault = Some e -> err_class e <> IntegrityError ->
      fst run = Unhandled (Sqlite e) /\ outcome_of (fst run) = None /\
      snd run = st /\ (forall l, counter l (snd run) = counter l st)) /\
  match outcome_of (fst run) with
  | Some o =>
      counter (label o) (snd run) = S (counter (label o) st) /\
      (forall l, l <> label o -> counter l (snd run) = counter l st) /\
      Metrics.http_requests (metrics (snd run)) = Metrics.http_requests (metrics st) /\
      Metrics.latency_buckets (metrics (snd run)) =
        Metrics.latency_buckets (metrics st) /\
      match o with
      | Created => exists r, db (snd run) = db st ++ [r]
      | _ => db (snd run) = db st
      end
  | None =>
      exists e, fault = Some e /\ err_class e <> IntegrityError /\
        fst run = Unhandled (Sqlite e) /\ snd run = st
  end.
Proof.
  intros Hascii. split.
  { intros e msg Ht Hs Hp Hf Hc.
    assert (E : run = (Unhandled (Sqlite e), st)).
    { destruct webhook_exits as [[Ht' _] | [(_ & Hn & _) | [(_ & _ & Hne & _) |
        [(_ & e' & Hp' & _) | (_ & msg' & Hp' & E)]]]]; try congruence.
      - exfalso. apply Hne. now rewrite Hs.
      - rewrite E. unfold insert_message, execute_insert. rewrite Hf.
        destruct (err_class e) eqn:Hcl; try congruence; now destruct st. }
    rewrite E. cbn [fst snd outcome_of]. auto. }
  pose proof (fun l s => record_counts l s) as Hrec. unfold counter.
  destruct webhook_exits as [[Ht E] | [(_ & Hn & _) | [(_ & _ & Hne & E) |
    [(Hs & e & Hp & E) | (_ & msg & Hp & E)]]]];
    try congruence; rewrite E; simpl outcome_of.
  - destruct (Hrec "invalid_signature" st) as (H1 & H2 & H3 & H4 & H5).
    cbn [fst snd label]. auto.
  - destruct (Hrec "invalid_signature" st) as (H1 & H2 & H3 & H4 & H5).
    cbn [fst snd label]. auto.
  - destruct (Hrec "validation_error" st) as (H1 & H2 & H3 & H4 & H5).
    cbn [fst snd label]. auto.
  - destruct (insert_message_exits fault (db st) (params_of msg now))
      as [(r & _ & ->) | [-> | (e & Hf & Hc & ->)]].
    + destruct (Hrec "created" (State (db st ++ [r]) (metrics st)))
        as (H1 & H2 & H3 & H4 & H5).
      simpl in *. repeat split; auto. now exists r.
    + destruct (Hrec "duplicate" (State (db st) (metrics st)))
        as (H1 & H2 & H3 & H4 & H5).
      simpl in *. auto.
    + simpl. exists e. repeat split; auto.
      now destruct st.
Qed.

End Handler.

(** [get_messages] asks the store only within the bounds, and returns
    what the store gives. *)
Lemma get_messages_bounds {U : Unicode} (limit offset : Z)
  (from_ since q : option string) (tbl : table) (p : page) :
  get_messages limit offset from_ since q tbl = Returned p ->
  (1 <= limit <= 100)%Z /\ (0 <= offset)%Z /\
  (data p, total p) = list_messages limit offset from_ since q tbl.
Proof.
  unfold get_messages.
  destruct (Z.ltb_spec limit 1); [discriminate|].
  destruct (Z.ltb_spec 100 limit); [discriminate|].
  destruct (Z.ltb_spec offset 0); [discriminate|]. cbn [orb].
  destruct (list_messages limit offset from_ since q tbl) as [d t].
  intros [= <-]. split; [lia | split; [lia | reflexivity]].
Qed.

(** Whatever the validation, the arguments bound for a message that
    passed it are complete, and carry its identifier. *)
Lemma validated_message_complete {R : Runtime} (msg : WebhookMessage datetime)
  (now : datetime) :
  complete (params_of msg now) = true /\
  p_message_id (params_of msg now) = Some (w_message_id msg).
Proof. split; reflexivity. Qed.

(** The middleware counts the request and its latency and leaves the
    webhook counters and the table alone. *)
Lemma dispatch_keeps_outcomes (path : string) (latency_ms : Q)
  (handler : state -> reply * state) (st : state) :
  fst (dispatch path latency_ms handler st) = fst (handler st) /\
  db (snd (dispatch path latency_ms handler st)) = db (snd (handler st)) /\
  forall l, counter l (snd (dispatch path latency_ms handler st)) =
            counter l (snd (handler st)).
Proof.
  unfold dispatch. destruct (handler st) as [r st1]. now repeat split.
Qed.

(** C7, as the specification words it, fails: while the database is
    locked, a correctly signed, valid request leaves the handler with
    the store's error, and none of the four outcomes is counted. *)
Lemma store_failure_not_counted :
  let run := webhook (R := Sample.runtime) Sample.secret (Some Sample.locked)
               Sample.now Sample.body (Some Sample.signature) Sample.fresh in
  fst run = Unhandled (Sqlite Sample.locked) /\
  (forall o, counter (label o) (snd run) = counter (label o) Sample.fresh) /\
  ~ (exists o, counter (label o) (snd run) = S (counter (label o) Sample.fresh)).
Proof.
  assert (E : webhook (R := Sample.runtime) Sample.secret (Some Sample.locked)
               Sample.now Sample.body (Some Sample.signature) Sample.fresh
              = (Unhandled (Sqlite Sample.locked), Sample.fresh))
    by (vm_compute; reflexivity).
  cbv zeta. rewrite E. cbn [fst snd]. split; [reflexivity|]. split; [reflexivity|].
  intros [o Ho]. lia.
Qed.

(** A signature header with a character outside ASCII stops the
    handler in [compare_digest]; nothing is counted either. *)
Lemma non_ascii_signature_unhandled :
  exists msg,
    webhook (R := Sample.runtime) Sample.secret None Sample.now Sample.body
      (Some (String (ascii_of_nat 233) EmptyString)) Sample.fresh
    = (Unhandled (TypeError msg), Sample.fresh).
Proof. eexists. vm_compute. reflexivity. Qed.

End MainFacts.

(* ================================================================== *)
(** * The theorems at work on the requests of the test-suite *)
(* ================================================================== *)

Module Scenarios.
Import Py Sqlite Storage Main Spec.
Import PyFacts SqliteFacts StorageFacts MetricsFacts MainFacts.

#[local] Existing Instance Sample.unicode.

(** The constants and the digests against the published ones: the
    first and the last round constant, the first word of the initial
    hash value, SHA-256 of "abc", and test case 2 of RFC 4231. *)
Example sha256_checked :
  nth 0 Hashlib.K 0%N = 0x428a2f98%N /\
  nth 63 Hashlib.K 0%N = 0xc67178f2%N /\
  fst (fst (fst (fst (fst (fst (fst Hashlib.initial)))))) = 0x6a09e667%N /\
  hexlify (Hashlib.of_bytes (Hashlib.sha256 (Hashlib.to_bytes "abc"))) =
    "ba7816bf8f01cfea414140de5dae2223b00361a396177a9cb410ff61f20015ad" /\
  hexlify (Hashlib.hmac_sha256 "Jefe" "what do ya want for nothing?") =
    "5bdcc146bf60754e6a042426089575c75a003f089d2739839dec58b964ec3843".
Proof. vm_compute. repeat split. Qed.

(** The digest computed here is the one [hmac] gives for the body of
    [test_webhook.py] under the secret of [conftest.py]. *)
Example signature_of_body :
  hexdigest (R := Sample.runtime) Sample.secret Sample.body = Sample.signature.
Proof. vm_compute. reflexivity. Qed.

Example body_parsed :
  params_of (R := Sample.runtime)
    (WebhookMsg "m1" "+919876543210" "+14155550100" "2025-01-15T10:00:00" (Some "Hello"))
    Sample.now = Sample.arguments /\
  parse_raw (Runtime := Sample.runtime) Sample.body =
    Returned (WebhookMsg "m1" "+919876543210" "+14155550100"
                         "2025-01-15T10:00:00" (Some "Hello")).
Proof. split; vm_compute; reflexivity. Qed.

(** First delivery, then the same delivery again: created, then
    duplicate, one row, one count under each label. *)
Example delivered_twice :
  let first := webhook (R := Sample.runtime) Sample.secret None Sample.now
                 Sample.body (Some Sample.signature) Sample.fresh in
  let second := webhook (R := Sample.runtime) Sample.secret None Sample.now
                  Sample.body (Some Sample.signature) (snd first) in
  fst first = Processed "created" /\
  fst second = Processed "duplicate" /\
  db (snd second) = db (snd first) /\
  List.length (rows_with_id "m1" (db (snd second))) = 1 /\
  counter "created" (snd second) = 1 /\
  counter "duplicate" (snd second) = 1.
Proof. vm_compute. repeat split. Qed.

(** Substring search on the text "Hello world". *)
Example hello_world :
  let m := Message (Some "m1") "+1" "+2" "2025-01-15T10:00:00Z" (Some "Hello world") in
  let n := Message (Some "m2") "+1" "+2" "2025-01-15T10:00:00Z" None in
  text_matches "hello" m = true /\ text_matches "WORLD" m = true /\
  text_matches "xyz" m = false /\ text_matches "hello" n = false.
Proof. vm_compute. repeat split. Qed.

(** Latencies of 30, 100, 250, 500 and 501 milliseconds. *)
Example five_latencies :
  Metrics.latency_samples
    (Metrics.observe_all [30 # 1; 100 # 1; 250 # 1; 500 # 1; 501 # 1]%Q Metrics.init)
  = [ Metrics.Sample "request_latency_ms_bucket" [("le", "100")] 2;
      Metrics.Sample "request_latency_ms_bucket" [("le", "500")] 4;
      Metrics.Sample "request_latency_ms_bucket" [("le", "+Inf")] 5;
      Metrics.Sample "request_latency_ms_count" [] 5 ].
Proof. vm_compute. reflexivity. Qed.

(** Idempotent insertion of a third message into the table of two
    senders. *)
Lemma insert_idempotent_witness :
  complete Sample.arguments3 = true /\
  p_message_id Sample.arguments3 = Some "m3" /\
  ~ In (Some "m3") (map message_id two_senders) /\
  exists r,
    stores Sample.arguments3 r /\
    insert_message None two_senders Sample.arguments3 =
      (Returned "created", two_senders ++ [r]) /\
    List.length (two_senders ++ [r]) = S (List.length two_senders) /\
    (forall tbl' b,
        In (Some "m3") (map message_id tbl') -> p_message_id b = Some "m3" ->
        insert_message None tbl' b = (Returned "duplicate", tbl')) /\
    (forall fault tbl' b,
        In (Some "m3") (map message_id tbl') -> p_message_id b = Some "m3" ->
        snd (insert_message fault tbl' b) = tbl') /\
    insert_message None (two_senders ++ [r]) Sample.arguments3 =
      (Returned "duplicate", two_senders ++ [r]) /\
    rows_with_id "m3" (two_senders ++ [r]) = [r].
Proof.
  assert (H1 : complete Sample.arguments3 = true) by reflexivity.
  assert (H2 : p_message_id Sample.arguments3 = Some "m3") by reflexivity.
  assert (H3 : ~ In (Some "m3") (map message_id two_senders))
    by (simpl; intros [H | [H | []]]; discriminate).
  split; [exact H1|]. split; [exact H2|]. split; [exact H3|].
  exact (insert_idempotent two_senders Sample.arguments3 "m3" H1 H2 H3).
Defined.

(** The second page of two rows out of four. *)
Lemma pagination_witness :
  (1 <= 2)%Z /\ (0 <= 3)%Z /\
  let page := fst (list_messages 2 3 None None None three_and_one) in
  let total := snd (list_messages 2 3 None None None three_and_one) in
  total = Z.of_nat (count_matching None None None three_and_one) /\
  (forall limit' offset',
      snd (list_messages limit' offset' None None None three_and_one) = total) /\
  Z.of_nat (List.length page) = Z.min 2 (Z.max 0 (total - 3)) /\
  ((total <= 3)%Z -> page = []).
Proof.
  assert (H1 : (1 <= 2)%Z) by lia.
  assert (H2 : (0 <= 3)%Z) by lia.
  split; [exact H1|]. split; [exact H2|].
  exact (pagination 2 3 None None None three_and_one H1 H2).
Defined.

(** The same listing from the table and from the table stored in
    reverse. *)
Lemma ordering_deterministic_witness :
  unique_ids two_senders /\
  Permutation two_senders (rev two_senders) /\
  fst (list_messages 50 0 None None None two_senders) =
    matching_rows None None None two_senders /\
  list_messages 50 0 None None None (rev two_senders) =
    list_messages 50 0 None None None two_senders.
Proof.
  assert (H1 : unique_ids two_senders).
  { unfold unique_ids. simpl. constructor.
    - simpl. intros [H | []]. discriminate.
    - constructor; [simpl; tauto | constructor]. }
  assert (H2 : Permutation two_senders (rev two_senders)) by apply perm_swap.
  split; [exact H1|]. split; [exact H2|].
  destruct (ordering_deterministic 50 0 None None None two_senders (rev two_senders)
              H1 H2) as (_ & _ & _ & _ & _ & Hall & _ & _ & _ & _ & _ & Hsame).
  split; [apply Hall; simpl; lia | exact Hsame].
Defined.


(** The ranking of a sender of three messages and a sender of one. *)
Lemma top_senders_by_count_witness :
  let answer := Snapshot 4 2 [("+100", 3); ("+200", 1)]
                  (Some "2025-01-15T10:00:00Z") (Some "2025-01-15T10:00:00Z") in
  stats three_and_one answer /\
  StronglySorted count_desc (messages_per_sender answer).
Proof.
  set (answer := Snapshot 4 2 [("+100", 3); ("+200", 1)]
                   (Some "2025-01-15T10:00:00Z") (Some "2025-01-15T10:00:00Z")).
  assert (H : stats three_and_one answer).
  { split; [reflexivity|]. split; [reflexivity|]. split; [|split; reflexivity].
    exists [("+100", 3); ("+200", 1)]. split; [|reflexivity]. split.
    - apply perm_swap.
    - repeat constructor; unfold count_desc; simpl; lia. }
  split; [exact H|].
  apply (top_senders_by_count three_and_one answer H).
Defined.

(** A missing sender is answered as a duplicate; a locked database is
    not. *)
Lemma integrity_errors_read_as_duplicate_witness :
  insert_message None two_senders
    (Params (Some "m9") None (Some "+14155550100") (Some "2025-01-15T10:00:00Z")
            None (Some "2025-01-15T10:00:01Z"))
  = (Returned "duplicate", two_senders) /\
  insert_message (Some Sample.locked) two_senders Sample.arguments3
  = (Raised Sample.locked, two_senders).
Proof.
  destruct integrity_errors_read_as_duplicate as (_ & Hnull & Hother & _).
  split.
  - apply Hnull. left. reflexivity.
  - apply Hother; [reflexivity | discriminate].
Defined.

(** The request of [test_invalid_signature] against a store of two
    messages. *)
Lemma rejection_leaves_store_witness :
  outcome_of (fst (webhook (R := Sample.runtime) Sample.secret None Sample.now
                     Sample.body (Some "bad") Sample.busy)) = Some InvalidSignature /\
  db (snd (webhook (R := Sample.runtime) Sample.secret None Sample.now
             Sample.body (Some "bad") Sample.busy)) = db Sample.busy.
Proof.
  assert (H : outcome_of (fst (webhook (R := Sample.runtime) Sample.secret None
                Sample.now Sample.body (Some "bad") Sample.busy))
              = Some InvalidSignature) by (vm_compute; reflexivity).
  split; [exact H|].
  apply (rejection_leaves_store (R := Sample.runtime) Sample.secret None Sample.now
           Sample.body (Some "bad") Sample.busy (or_introl H)).
Defined.

(** A second delivery of a stored message is counted as a duplicate. *)
Lemma outcome_recorded_witness :
  isascii (or_empty (Some Sample.signature)) = true /\
  counter "duplicate"
    (snd (webhook (R := Sample.runtime) Sample.secret None Sample.now
            Sample.body (Some Sample.signature) Sample.busy))
  = S (counter "duplicate" Sample.busy).
Proof.
  assert (H : isascii (or_empty (Some Sample.signature)) = true) by reflexivity.
  split; [exact H|].
  pose proof (outcome_recorded (R := Sample.runtime) Sample.secret None Sample.now
                Sample.body (Some Sample.signature) Sample.busy H) as Hrec.
  assert (E : webhook (R := Sample.runtime) Sample.secret None Sample.now
                Sample.body (Some Sample.signature) Sample.busy
              = (Processed "duplicate", record "duplicate" Sample.busy))
    by (vm_compute; reflexivity).
  cbv zeta in Hrec. rewrite E in Hrec. rewrite E.
  change (outcome_of (fst (Processed "duplicate", record "duplicate" Sample.busy)))
    with (Some Duplicate) in Hrec.
  exact (proj1 (proj2 Hrec)).
Defined.

End Scenarios.

(* ================================================================== *)
(** * More on the message store *)
(* ================================================================== *)

Module StorageMore.
Import Py Sqlite Storage Main Spec Terms.
Import PyFacts SqliteFacts StorageFacts.

Section Store.
Context {U : Unicode}.

(** ** Timestamps of [stats] *)

Lemma fold_min_spec (l : list string) (t : string) :
  let lo := fold_left text_min l t in
  In lo (t :: l) /\ forall x, In x (t :: l) -> text_leb lo x = true.
Proof.
  revert t. induction l as [|y l IH]; intros t; simpl.
  - split; [now left|]. intros x [<- | []]. apply text_leb_refl.
  - destruct (IH (text_min t y)) as [Hin Hle]. simpl in Hin, Hle. split.
    + destruct Hin as [Hin | Hin]; [|auto].
      rewrite <- Hin. unfold text_min. destruct (text_leb t y); auto.
    + assert (Ht : text_leb (text_min t y) t = true /\ text_leb (text_min t y) y = true).
      { unfold text_min. destruct (text_leb t y) eqn:E.
        - split; [apply text_leb_refl | exact E].
        - split; [|apply text_leb_refl].
          destruct (text_leb_total t y); congruence. }
      intros x [<- | [<- | Hx]].
      * eapply text_leb_trans; [apply Hle; now left | apply Ht].
      * eapply text_leb_trans; [apply Hle; now left | apply Ht].
      * apply Hle. now right.
Qed.

Lemma fold_max_spec (l : list string) (t : string) :
  let hi := fold_left text_max l t in
  In hi (t :: l) /\ forall x, In x (t :: l) -> text_leb x hi = true.
Proof.
  revert t. induction l as [|y l IH]; intros t; simpl.
  - split; [now left|]. intros x [<- | []]. apply text_leb_refl.
  - destruct (IH (text_max t y)) as [Hin Hle]. simpl in Hin, Hle. split.
    + destruct Hin as [Hin | Hin]; [|auto].
      rewrite <- Hin. unfold text_max. destruct (text_leb t y); auto.
    + assert (Ht : text_leb t (text_max t y) = true /\ text_leb y (text_max t y) = true).
      { unfold text_max. destruct (text_leb t y) eqn:E.
        - split; [exact E | apply text_leb_refl].
        - split; [apply text_leb_refl|].
          destruct (text_leb_total t y); congruence. }
      intros x [<- | [<- | Hx]].
      * eapply text_leb_trans; [apply Ht | apply Hle; now left].
      * eapply text_leb_trans; [apply Ht | apply Hle; now left].
      * apply Hle. now right.
Qed.

(** X1.  The two timestamps of [stats] are absent exactly on an empty
    table; otherwise the first is the timestamp of a stored row that
    is at most every stored timestamp, and the last one that is at
    least every stored timestamp. *)
Theorem stats_timestamps (tbl : table) (s : snapshot) :
  stats tbl s ->
  (first_message_ts s = None <-> tbl = []) /\
  (last_message_ts s = None <-> tbl = []) /\
  (forall lo, first_message_ts s = Some lo ->
     In lo (map ts tbl) /\ forall r, In r tbl -> text_le lo (ts r)) /\
  (forall hi, last_message_ts s = Some hi ->
     In hi (map ts tbl) /\ forall r, In r tbl -> text_le (ts r) hi).
Proof.
  intros (_ & _ & _ & Hlo & Hhi). rewrite Hlo, Hhi. unfold min_ts, max_ts.
  destruct tbl as [|r0 tbl]; simpl.
  - repeat split; try discriminate; try tauto.
  - pose proof (fold_min_spec (map ts tbl) (ts r0)) as [Hin1 Hle1].
    pose proof (fold_max_spec (map ts tbl) (ts r0)) as [Hin2 Hle2].
    split; [split; discriminate|]. split; [split; discriminate|]. split.
    + intros lo [= <-]. split; [exact Hin1|].
      intros r Hr. apply text_le_iff, Hle1.
      destruct Hr as [<- | Hr]; [now left | right; now apply in_map].
    + intros hi [= <-]. split; [exact Hin2|].
      intros r Hr. apply text_le_iff, Hle2.
      destruct Hr as [<- | Hr]; [now left | right; now apply in_map].
Qed.

(** ** Counts of [stats] *)

Lemma count_from_app (s : string) (t1 t2 : table) :
  count_from s (t1 ++ t2) = count_from s t1 + count_from s t2.
Proof. unfold count_from. now rewrite filter_app, length_app. Qed.

Lemma count_from_cons (s : string) (r : row) (tbl : table) :
  count_from s (r :: tbl) =
  (if from_msisdn r =? s then 1 else 0) + count_from s tbl.
Proof. unfold count_from. simpl. now destruct (from_msisdn r =? s). Qed.

Lemma sum_counts_cons (l : list string) (r : row) (tbl : table) :
  NoDup l ->
  list_sum (map (fun s => count_from s (r :: tbl)) l) =
  (if in_dec string_dec (from_msisdn r) l then 1 else 0) +
  list_sum (map (fun s => count_from s tbl) l).
Proof.
  induction 1 as [|a l Ha Hl IH]; simpl; [reflexivity|].
  rewrite IH, count_from_cons.
  destruct (String.eqb_spec (from_msisdn r) a) as [E | E].
  - destruct (string_dec a (from_msisdn r)); [|congruence].
    destruct (in_dec string_dec (from_msisdn r) l) as [Hin | _]; [|lia].
    exfalso. apply Ha. now rewrite <- E.
  - destruct (string_dec a (from_msisdn r)); [congruence|].
    destruct (in_dec string_dec (from_msisdn r) l); lia.
Qed.

(** The counts of distinct senders add up to the rows they sent. *)
Lemma sum_counts (l : list string) (tbl : table) :
  NoDup l ->
  list_sum (map (fun s => count_from s tbl) l) =
  List.length (filter (fun r => if in_dec string_dec (from_msisdn r) l then true else false) tbl).
Proof.
  intros Hl. induction tbl as [|r tbl IH].
  - simpl. induction l; simpl; auto. inversion Hl; subst. auto.
  - rewrite (sum_counts_cons l r tbl Hl), IH. simpl.
    now destruct (in_dec string_dec (from_msisdn r) l).
Qed.

Lemma groups_sum (tbl : table) :
  list_sum (map snd (group_by_sender tbl)) = List.length tbl.
Proof.
  unfold group_by_sender. rewrite map_map. simpl.
  rewrite (sum_counts (senders tbl) tbl) by apply NoDup_nodup.
  f_equal. apply forallb_filter_id. apply forallb_forall. intros r Hr.
  destruct (in_dec string_dec (from_msisdn r) (senders tbl)) as [|Hout]; [reflexivity|].
  exfalso. apply Hout. apply nodup_In. now apply in_map.
Qed.

Lemma list_sum_perm (l l' : list nat) : Permutation l l' -> list_sum l = list_sum l'.
Proof. induction 1; simpl; lia. Qed.

Lemma list_sum_firstn (n : nat) (l : list nat) : list_sum (firstn n l) <= list_sum l.
Proof.
  revert n. induction l as [|x l IH]; intros [|n]; simpl; try lia.
  specialize (IH n). lia.
Qed.

(** X2.  In every answer of [stats]: there are at most as many senders
    as messages, and none exactly when there is no message; the
    counts of the ranking never add up to more than the total, and
    add up to the total whenever there are at most 10 senders. *)
Theorem stats_counts (tbl : table) (s : snapshot) :
  stats tbl s ->
  senders_count s <= total_messages s /\
  (senders_count s = 0 <-> total_messages s = 0) /\
  list_sum (map snd (messages_per_sender s)) <= total_messages s /\
  (senders_count s <= 10 ->
   list_sum (map snd (messages_per_sender s)) = total_messages s).
Proof.
  intros (Hn & Hk & (ordered & [Hperm _] & Hres) & _). rewrite Hn, Hk, Hres.
  unfold count_all, count_senders.
  assert (Hsum : list_sum (map snd ordered) = List.length tbl).
  { rewrite <- (list_sum_perm _ _ (Permutation_map snd Hperm)). apply groups_sum. }
  assert (Hlen : List.length ordered = List.length (senders tbl)).
  { rewrite <- (Permutation_length Hperm). unfold group_by_sender. apply length_map. }
  assert (Hle : List.length (senders tbl) <= List.length tbl).
  { unfold senders. rewrite <- (length_map from_msisdn tbl).
    apply NoDup_incl_length; [apply NoDup_nodup|].
    intros x Hx. now apply nodup_In in Hx. }
  split; [exact Hle|]. split; [|split].
  - split; intros H0.
    + destruct tbl as [|r tbl]; [reflexivity|]. exfalso.
      assert (Hin : In (from_msisdn r) (senders (r :: tbl)))
        by (apply nodup_In; now left).
      destruct (senders (r :: tbl)); [contradiction | discriminate].
    + lia.
  - rewrite <- firstn_map, <- Hsum. apply list_sum_firstn.
  - intros H10. rewrite firstn_all2 by lia. exact Hsum.
Qed.

(** ** Pages *)

Lemma firstn_plus {A} (n m : nat) (l : list A) :
  firstn n l ++ firstn m (skipn n l) = firstn (n + m) l.
Proof.
  revert l. induction n as [|n IH]; intros [|x l]; simpl;
    try reflexivity.
  - now rewrite firstn_nil.
  - now rewrite IH.
Qed.

Lemma slice_concat {A} (l : list A) (a n m : Z) :
  (0 <= a)%Z -> (0 <= n)%Z -> (0 <= m)%Z ->
  slice l a (a + n) ++ slice l (a + n) (a + n + m) = slice l a (a + n + m).
Proof.
  intros Ha Hn Hm. rewrite !slice_nonneg by lia.
  replace (Z.to_nat (a + n + m) - Z.to_nat (a + n)) with (Z.to_nat m) by lia.
  replace (Z.to_nat (a + n) - Z.to_nat a) with (Z.to_nat n) by lia.
  replace (Z.to_nat (a + n + m) - Z.to_nat a) with (Z.to_nat n + Z.to_nat m) by lia.
  replace (Z.to_nat (a + n)) with (Z.to_nat n + Z.to_nat a) by lia.
  rewrite <- skipn_skipn. apply firstn_plus.
Qed.

(** X3.  Consecutive pages join without gap or overlap: the page at
    [offset] of [limit1] rows followed by the page at
    [offset + limit1] of [limit2] rows is the page at [offset] of
    [limit1 + limit2] rows; and the page at offset 0 with a limit of
    at least the total is the whole result. *)
Theorem pages_concatenate (limit1 limit2 offset : Z) (f s q : option string)
  (tbl : table) :
  (0 <= offset)%Z -> (0 <= limit1)%Z -> (0 <= limit2)%Z ->
  fst (list_messages limit1 offset f s q tbl) ++
  fst (list_messages limit2 (offset + limit1) f s q tbl) =
  fst (list_messages (limit1 + limit2) offset f s q tbl) /\
  ((snd (list_messages limit1 0 f s q tbl) <= limit1)%Z ->
   fst (list_messages limit1 0 f s q tbl) = matching_rows f s q tbl).
Proof.
  intros Ho H1 H2. unfold list_messages. cbn [fst snd]. split.
  - rewrite Z.add_assoc. now apply slice_concat.
  - intros Ht. rewrite slice_nonneg by lia. simpl.
    apply firstn_all2. lia.
Qed.

(** ** Filters *)

Lemma filter_order_by (p : row -> bool) (tbl : table) :
  unique_ids tbl ->
  filter p (order_by order_key_leb tbl) = order_by order_key_leb (filter p tbl).
Proof.
  intros Hu.
  apply (sorted_perm_unique (fun a b => order_key_leb a b = true)).
  - intros a b Ha Hb H1 H2. apply filter_In in Ha as [Ha _], Hb as [Hb _].
    apply (Permutation_in _ (Permutation_sym (order_by_perm _ _))) in Ha, Hb.
    apply (NoDup_map_eq message_id tbl); auto.
    now apply order_key_antisym.
  - apply StronglySorted_filter.
    apply order_by_sorted; [apply order_key_total | apply order_key_trans].
  - apply order_by_sorted; [apply order_key_total | apply order_key_trans].
  - transitivity (filter p tbl).
    + apply Permutation_filter. symmetry. apply order_by_perm.
    + apply order_by_perm.
Qed.

Lemma message_matches_select (f s q : option string) (r : row) :
  message_matches f s q (select_columns r) = row_matches f s q r.
Proof. reflexivity. Qed.

(** X4.  When the identifiers are distinct, a listing with filters is
    the listing without filters from which the messages that fail a
    filter are removed: the filters never add a row and never change
    the relative order of the rows they keep. *)
Theorem filters_only_remove (f s q : option string) (tbl : table) :
  unique_ids tbl ->
  matching_rows f s q tbl =
  filter (message_matches f s q) (matching_rows None None None tbl).
Proof.
  intros Hu. unfold matching_rows at 2. unfold search, base_select. simpl.
  rewrite filter_select.
  rewrite (filter_ext (where_sql None None) (fun _ => true)) by reflexivity.
  rewrite filter_true.
  rewrite (filter_ext _ (row_matches f s q)) by (intros r; apply message_matches_select).
  rewrite (filter_order_by _ _ Hu).
  unfold matching_rows, search, base_select, row_matches.
  destruct (truthy q).
  - rewrite filter_select. f_equal.
    rewrite <- filter_filter.
    assert (Hu' : unique_ids (filter (where_sql f s) tbl)).
    { unfold unique_ids in *. clear - Hu. induction tbl as [|r tbl IH]; simpl; [constructor|].
      inversion Hu as [|? ? Hr Ht]; subst.
      destruct (where_sql f s r); simpl; [|auto]. constructor; [|auto].
      intros Hin. apply Hr. apply in_map_iff in Hin as (x & Hx & Hin).
      apply filter_In in Hin as [Hin _]. rewrite <- Hx. now apply in_map. }
    now rewrite (filter_order_by _ _ Hu').
  - f_equal. f_equal. apply filter_ext. intros r. now rewrite andb_true_r.
Qed.

Lemma count_from_matching (f : string) (tbl : table) :
  f <> "" -> count_matching (Some f) None None tbl = count_from f tbl.
Proof.
  intros Hf. unfold count_matching, count_from. f_equal. apply filter_ext.
  intros r. unfold row_matches, where_sql, where_from, where_since. simpl.
  destruct (String.eqb_spec f ""); [contradiction|]. simpl.
  now rewrite !andb_true_r.
Qed.

(** X5.  A listing filtered by a sender returns only messages of that
    sender, and its total is the number of messages [stats] counts
    for that sender. *)
Theorem sender_listing_agrees_with_stats (limit offset : Z) (f : string) (tbl : table) :
  f <> "" ->
  snd (list_messages limit offset (Some f) None None tbl) = Z.of_nat (count_from f tbl) /\
  (forall m, In m (fst (list_messages limit offset (Some f) None None tbl)) -> m_from m = f) /\
  (forall p, In p (group_by_sender tbl) -> fst p = f ->
     snd (list_messages limit offset (Some f) None None tbl) = Z.of_nat (snd p)).
Proof.
  intros Hf.
  assert (Ht : snd (list_messages limit offset (Some f) None None tbl)
               = Z.of_nat (count_from f tbl)).
  { unfold list_messages. cbn [snd].
    now rewrite matching_rows_length, count_from_matching. }
  split; [exact Ht|]. split.
  - intros m Hm. unfold list_messages in Hm. cbn [fst] in Hm.
    destruct (slice_infix (matching_rows (Some f) None None tbl) offset (offset + limit))
      as (pre & post & E).
    assert (Hin : In m (matching_rows (Some f) None None tbl)).
    { rewrite E. apply in_or_app. right. apply in_or_app. now left. }
    apply (Permutation_in _ (matching_rows_perm _ _ _ _)) in Hin.
    apply in_map_iff in Hin as (r & <- & Hr). apply filter_In in Hr as [_ Hr].
    apply row_matches_where in Hr as (Hfrom & _). simpl. now apply (Hfrom f).
  - intros [x c] Hp Hx. simpl in *. subst x.
    apply in_group_by_sender in Hp as [_ Hc]. simpl in Hc. now rewrite Ht, Hc.
Qed.

(** ** Insert, then list *)

(** X6.  After an insert answered "created", the message is listed:
    under any filters the new row passes, the total that
    [list_messages] returns has grown by one, whatever the limit and
    the offset, and every page from offset 0 with a limit of at least
    that total holds the row; under filters it does not pass, the
    total returned is what it was. *)
Theorem created_message_is_listed (fault : option sqlite_error) (tbl tbl' : table)
  (a : params) (limit offset : Z) (f s q : option string) :
  insert_message fault tbl a = (Returned "created", tbl') ->
  exists r,
    stores a r /\ tbl' = tbl ++ [r] /\
    (row_matches f s q r = true ->
       snd (list_messages limit offset f s q tbl') =
         (snd (list_messages limit offset f s q tbl) + 1)%Z /\
       (forall limit',
           (snd (list_messages limit' 0 f s q tbl') <= limit')%Z ->
           In (select_columns r) (fst (list_messages limit' 0 f s q tbl')))) /\
    (row_matches f s q r = false ->
       snd (list_messages limit offset f s q tbl') =
         snd (list_messages limit offset f s q tbl)).
Proof.
  intros Hi.
  destruct (insert_message_exits fault tbl a) as [(r & Hr & E) | [E | (e & _ & _ & E)]];
    rewrite E in Hi; try discriminate.
  injection Hi as <-. exists r. split; [exact Hr|]. split; [reflexivity|].
  assert (Hlen : List.length (matching_rows f s q (tbl ++ [r])) =
                 List.length (matching_rows f s q tbl) +
                 (if row_matches f s q r then 1 else 0)).
  { rewrite !matching_rows_length. unfold count_matching.
    rewrite filter_app, length_app. simpl. now destruct (row_matches f s q r). }
  unfold list_messages. cbn [fst snd]. rewrite Hlen.
  split; intros Hm; rewrite Hm in *.
  - split; [lia|]. intros limit' Hl. rewrite slice_all by lia.
    apply (Permutation_in _ (Permutation_sym (matching_rows_perm f s q (tbl ++ [r])))).
    apply in_map. apply filter_In. split; [|exact Hm].
    apply in_or_app. right. now left.
  - f_equal. lia.
Qed.

(** ** The key *)

Lemma keys_app (t1 t2 : table) : keys (t1 ++ t2) = keys t1 ++ keys t2.
Proof. unfold keys. apply flat_map_app. Qed.

Lemma in_keys (tbl : table) (k : string) :
  In k (keys tbl) <-> In (Some k) (map message_id tbl).
Proof.
  unfold keys. rewrite in_flat_map, in_map_iff. split.
  - intros (r & Hr & Hk). exists r. split; [|exact Hr].
    destruct (message_id r); simpl in Hk; [|contradiction].
    destruct Hk as [-> | []]. reflexivity.
  - intros (r & Hk & Hr). exists r. split; [exact Hr|]. rewrite Hk. now left.
Qed.

(** X7.  The primary key holds for every call: whatever the values
    bound, and whatever the condition of the store, a table without
    a repeated identifier is left without a repeated identifier. *)
Theorem primary_key_kept (fault : option sqlite_error) (tbl : table) (a : params) :
  key_unique tbl -> key_unique (snd (insert_message fault tbl a)).
Proof.
  intros Hu.
  destruct (insert_message_table fault tbl a) as [-> | (r & Hr & E)]; [exact Hu|].
  assert (Hfree : key_taken tbl (p_message_id a) = false).
  { revert E. unfold insert_message, execute_insert.
    destruct fault as [e|]; [now destruct (err_class e)|].
    unfold insert_row, not_null, bind.
    destruct (p_from_msisdn a), (p_to_msisdn a), (p_ts a), (p_created_at a);
      try discriminate.
    now destruct (key_taken tbl (p_message_id a)). }
  rewrite E. simpl. unfold key_unique. rewrite keys_app.
  destruct Hr as (Hid & _). unfold keys at 2. simpl. rewrite <- Hid.
  destruct (p_message_id a) as [k|] eqn:Hk; simpl.
  - apply NoDup_app; repeat constructor; auto.
    intros y Hy [<- | []]. apply in_keys in Hy.
    assert (key_taken tbl (Some k) = true) by (apply key_taken_iff; eauto).
    congruence.
  - now rewrite app_nil_r.
Qed.

(** X8.  A call without identifier is never a duplicate: when the
    four mandatory values are given and the identifier is [None],
    the store that executes the statement answers "created" and adds
    a row without identifier, on every table, also one that already
    holds such rows. *)
Theorem missing_identifier_always_created (tbl : table) (a : params) :
  p_message_id a = None ->
  p_from_msisdn a <> None -> p_to_msisdn a <> None ->
  p_ts a <> None -> p_created_at a <> None ->
  exists r,
    message_id r = None /\ stores a r /\
    insert_message None tbl a = (Returned "created", tbl ++ [r]) /\
    insert_message None (tbl ++ [r]) a = (Returned "created", (tbl ++ [r]) ++ [r]).
Proof.
  destruct a as [k [f|] [t|] [s|] x [c|]]; simpl; intros -> H1 H2 H3 H4;
    try congruence.
  exists (Row None f t s x c).
  assert (Hfree : forall tb, key_taken tb None = false).
  { intros tb. destruct (key_taken tb None) eqn:E; [|reflexivity].
    apply key_taken_iff in E as (y & Hy & _). discriminate. }
  split; [reflexivity|]. split; [repeat split|].
  unfold insert_message, execute_insert, insert_row, not_null, bind. simpl.
  now rewrite !Hfree.
Qed.

(** The size of a page, for bounds in range. *)
Lemma pagination_lengths (limit offset : Z) (f s q : option string) (tbl : table) :
  (1 <= limit)%Z -> (0 <= offset)%Z ->
  Z.of_nat (List.length (fst (list_messages limit offset f s q tbl))) =
  Z.min limit (Z.max 0 (snd (list_messages limit offset f s q tbl) - offset)).
Proof.
  intros Hl Ho. unfold list_messages. cbn [fst snd].
  rewrite slice_length by lia. f_equal. lia.
Qed.

End Store.

End StorageMore.

(* ================================================================== *)
(** * More on the metrics collector *)
(* ================================================================== *)

Module MetricsMore.
Import Py Metrics App.
Import PyFacts MetricsFacts.

Lemma to_uint_not_nil (n : nat) : Nat.to_uint n <> Decimal.Nil.
Proof.
  intros Hn. pose proof (DecimalNat.Unsigned.to_of (Nat.to_uint n)) as T.
  rewrite DecimalNat.Unsigned.of_to, Hn in T. discriminate.
Qed.

Lemma str_of_nat_inj (n m : nat) : str_of_nat n = str_of_nat m -> n = m.
Proof.
  unfold str_of_nat. intros H.
  apply DecimalNat.Unsigned.to_uint_inj.
  assert (E : NilZero.uint_of_string (NilZero.string_of_uint (Nat.to_uint n)) =
              NilZero.uint_of_string (NilZero.string_of_uint (Nat.to_uint m)))
    by now rewrite H.
  rewrite !NilZero.usu in E by apply to_uint_not_nil.
  now injection E.
Qed.

Lemma pair_eqb_spec (a b : string * string) : reflect (a = b) (pair_eqb a b).
Proof.
  destruct a as [a1 a2], b as [b1 b2]. unfold pair_eqb. simpl.
  destruct (String.eqb_spec a1 b1), (String.eqb_spec a2 b2); constructor; congruence.
Qed.

Section Dict.
Context {K : Type} (keq : K -> K -> bool).
Hypothesis keq_spec : forall a b, reflect (a = b) (keq a b).

Lemma incr_keys (d : dict) (k : K) :
  map fst (incr keq d k) =
  if existsb (keq k) (map fst d) then map fst d else map fst d ++ [k].
Proof.
  induction d as [|[k' v] d IH]; simpl; [reflexivity|].
  destruct (keq_spec k' k) as [-> | Hne]; simpl.
  - destruct (keq_spec k k); [reflexivity | congruence].
  - destruct (keq_spec k k'); [congruence|]. simpl. rewrite IH.
    now destruct (existsb (keq k) (map fst d)).
Qed.

Lemma incr_nodup (d : dict) (k : K) :
  NoDup (map fst d) -> NoDup (map fst (incr keq d k)).
Proof.
  intros Hd. rewrite incr_keys.
  destruct (existsb (keq k) (map fst d)) eqn:E; [exact Hd|].
  apply NoDup_app; repeat constructor; auto.
  intros x Hx [<- | []].
  assert (existsb (keq k) (map fst d) = true); [|congruence].
  apply existsb_exists. exists k. split; [exact Hx|].
  now destruct (keq_spec k k).
Qed.

Lemma incr_in (d : dict) (k k0 : K) :
  In k0 (map fst (incr keq d k)) <-> k0 = k \/ In k0 (map fst d).
Proof.
  rewrite incr_keys. destruct (existsb (keq k) (map fst d)) eqn:E.
  - apply existsb_exists in E as (x & Hx & Hk).
    destruct (keq_spec k x) as [<-|]; [|discriminate].
    split; [auto | intros [-> | H]; auto].
  - rewrite in_app_iff. simpl. intuition.
Qed.

Lemma incr_positive (d : dict) (k : K) :
  Forall (fun kv => 1 <= snd kv) d -> Forall (fun kv => 1 <= snd kv) (incr keq d k).
Proof.
  induction 1 as [|[k' v] d Hv Hd IH]; simpl.
  - repeat constructor.
  - destruct (keq k' k); constructor; simpl in *; auto; lia.
Qed.

Lemma incr_sum (d : dict) (k : K) : dict_sum (incr keq d k) = S (dict_sum d).
Proof.
  induction d as [|[k' v] d IH]; simpl; [reflexivity|].
  destruct (keq k' k); simpl; [reflexivity|]. rewrite IH. lia.
Qed.
End Dict.

Lemma bump_count (p : op -> bool) (o : op) (ops : list op) :
  List.length (filter p (o :: ops)) = (if p o then 1 else 0) + List.length (filter p ops).
Proof. simpl. now destruct (p o). Qed.

(** X9.  Counters count calls.  After any run of calls on a
    collector, the webhook counter of a label has grown by the number
    of [inc_webhook] calls with that label, and the HTTP counter of a
    (path, status) pair by the number of [inc_http] calls with that
    path and that status: two statuses never share a counter. *)
Theorem counters_count_calls (ops : list op) (m : t) :
  (forall l, get String.eqb (webhook_requests (apply_all ops m)) l =
             get String.eqb (webhook_requests m) l +
             List.length (filter (is_webhook l) ops)) /\
  (forall path status,
      http_count path status (apply_all ops m) =
      http_count path status m + List.length (filter (is_http path status) ops)).
Proof.
  revert m. induction ops as [|o ops IH]; intros m.
  - simpl. split; intros; lia.
  - change (apply_all (o :: ops) m) with (apply_all ops (apply m o)).
    destruct (IH (apply m o)) as [Hw Hh]. split.
    + intros l. rewrite Hw, bump_count. destruct o as [p s | r | ms]; simpl.
      * lia.
      * destruct (String.eqb_spec r l) as [-> | Hne].
        -- rewrite get_incr_same_s. lia.
        -- rewrite get_incr_other_s by congruence. lia.
      * lia.
    + intros path status. rewrite Hh, bump_count. unfold http_count.
      destruct o as [p s | r | ms]; simpl; try lia.
      destruct (String.eqb_spec p path) as [-> | Hp]; simpl.
      * destruct (Nat.eqb_spec s status) as [-> | Hs].
        -- rewrite (get_incr_same _ pair_eqb_spec). lia.
        -- rewrite (get_incr_other _ pair_eqb_spec); [lia|].
           intros [= E]. apply str_of_nat_inj in E. congruence.
      * rewrite (get_incr_other _ pair_eqb_spec); [lia|]. congruence.
Qed.

Lemma apply_all_app (ops1 ops2 : list op) (m : t) :
  apply_all (ops1 ++ ops2) m = apply_all ops2 (apply_all ops1 m).
Proof. apply fold_left_app. Qed.

(** The keys held after a run of calls on a collector that started
    empty. *)
Lemma held_keys (ops : list op) :
  let m := apply_all ops init in
  NoDup (map fst (webhook_requests m)) /\
  NoDup (map fst (http_requests m)) /\
  (forall l, In l (map fst (webhook_requests m)) <-> In (IncWebhook l) ops) /\
  (forall path status,
      In (path, str_of_nat status) (map fst (http_requests m)) <->
      In (IncHttp path status) ops) /\
  Forall (fun kv => 1 <= snd kv) (webhook_requests m) /\
  Forall (fun kv => 1 <= snd kv) (http_requests m) /\
  List.length (samples m) =
    List.length (http_requests m) + List.length (webhook_requests m) + 4.
Proof.
  induction ops as [|o ops IH] using rev_ind.
  - simpl. repeat split; try constructor; try tauto;
      intros; simpl in *; tauto.
  - cbv zeta in *. rewrite apply_all_app. simpl.
    destruct IH as (N1 & N2 & I1 & I2 & P1 & P2 & _).
    set (m := apply_all ops init) in *.
    assert (Hlen : forall m', List.length (samples m') =
              List.length (http_requests m') + List.length (webhook_requests m') + 4).
    { intros m'. unfold samples, http_samples, webhook_samples.
      rewrite !length_app, !length_map. simpl. lia. }
    destruct o as [p s | r | ms]; simpl.
    + split; [exact N1|]. split; [apply (incr_nodup _ pair_eqb_spec); exact N2|].
      split; [|split; [|split; [exact P1|split; [now apply incr_positive|apply (Hlen (inc_http p s m))]]]].
      * intros l. rewrite I1, in_app_iff. simpl. intuition discriminate.
      * intros path status. rewrite (incr_in _ pair_eqb_spec), I2, in_app_iff. simpl.
        split.
        -- intros [[= -> E] | H]; [|auto]. apply str_of_nat_inj in E. subst. auto.
        -- intros [H | [[= -> ->] | []]]; auto.
    + split; [apply (incr_nodup _ String.eqb_spec); exact N1|]. split; [exact N2|].
      split; [|split; [|split; [now apply incr_positive|split; [exact P2|apply (Hlen (inc_webhook r m))]]]].
      * intros l. rewrite (incr_in _ String.eqb_spec), I1, in_app_iff. simpl.
        split.
        -- intros [-> | H]; auto.
        -- intros [H | [[= ->] | []]]; auto.
      * intros path status. rewrite I2, in_app_iff. simpl. intuition discriminate.
    + split; [exact N1|]. split; [exact N2|].
      split; [|split; [|split; [exact P1|split; [exact P2|apply (Hlen (observe_latency ms m))]]]].
      * intros l. rewrite I1, in_app_iff. simpl. intuition discriminate.
      * intros path status. rewrite I2, in_app_iff. simpl. intuition discriminate.
Qed.

(** X10.  One line per key.  On a collector that started empty, after
    any run of calls: no label and no (path, status) pair is held
    twice, a label is held exactly when [inc_webhook] was called with
    it, a pair exactly when [inc_http] was, every held count is at
    least 1, and the text [render_prometheus] returns is made of one
    line for each held pair, then one line for each held label, each
    with its count, then the four latency lines: as many lines as
    keys held, plus four. *)
Theorem one_sample_per_key (ops : list op) :
  let m := apply_all ops init in
  NoDup (map fst (webhook_requests m)) /\
  NoDup (map fst (http_requests m)) /\
  (forall l, In l (map fst (webhook_requests m)) <-> In (IncWebhook l) ops) /\
  (forall path status,
      In (path, str_of_nat status) (map fst (http_requests m)) <->
      In (IncHttp path status) ops) /\
  Forall (fun kv => 1 <= snd kv) (webhook_requests m) /\
  Forall (fun kv => 1 <= snd kv) (http_requests m) /\
  exists lines,
    render_prometheus m = Spec.unlines lines /\
    lines = map Spec.http_line (http_requests m) ++
            map Spec.webhook_line (webhook_requests m) ++
            Spec.latency_lines (count_100 m) (count_500 m) (count_inf m) /\
    List.length lines =
      List.length (http_requests m) + List.length (webhook_requests m) + 4.
Proof.
  intros m. destruct (held_keys ops) as (N1 & N2 & I1 & I2 & P1 & P2 & _).
  fold m in N1, N2, I1, I2, P1, P2.
  split; [exact N1|]. split; [exact N2|]. split; [exact I1|]. split; [exact I2|].
  split; [exact P1|]. split; [exact P2|].
  eexists. split; [apply render_lines|]. split; [reflexivity|].
  rewrite !length_app, !length_map. simpl. lia.
Qed.

End MetricsMore.

(* ================================================================== *)
(** * More on the handlers *)
(* ================================================================== *)

Module MainMore.
Import Py Sqlite Storage Main Spec Terms App.
Import PyFacts SqliteFacts StorageFacts StorageMore MetricsFacts MainFacts MetricsMore.

(** ** [str.replace] *)

Lemma contains_cons_false (old : string) (c : ascii) (s : string) :
  contains old (String c s) = false ->
  prefix old (String c s) = false /\ contains old s = false.
Proof. cbn [contains]. apply orb_false_iff. Qed.

Lemma replace_absent (old new s : string) :
  old <> "" -> contains old s = false -> replace old new s = s.
Proof.
  intros Hold. unfold replace. induction s as [|c s IH]; intros H; [reflexivity|].
  apply contains_cons_false in H as [Hp Hc]. cbn [replace_from].
  rewrite Hp. f_equal. now apply IH.
Qed.

Lemma replace_skip (old new o s : string) :
  replace_from old new (o ++ s)%string (String.length o) = replace_from old new s 0.
Proof.
  induction o as [|c o IH]; simpl.
  - destruct s; reflexivity.
  - exact IH.
Qed.

Lemma prefix_self (old s : string) : prefix old (old ++ s)%string = true.
Proof. apply prefix_iff. now exists s. Qed.

Lemma replace_prefix (old new s : string) :
  old <> "" ->
  replace old new (old ++ s)%string = (new ++ replace old new s)%string.
Proof.
  intros Hold. unfold replace. destruct old as [|c o]; [congruence|].
  change ((String c o ++ s)%string) with (String c (o ++ s)%string).
  cbn [replace_from].
  change (String c (o ++ s)%string) with ((String c o ++ s)%string).
  rewrite prefix_self. f_equal.
  replace (String.length (String c o) - 1) with (String.length o) by (simpl; lia).
  apply replace_skip.
Qed.

Lemma replace_free_prefix (c : ascii) (o new s t : string) :
  free_of c s = true ->
  replace (String c o) new (s ++ t)%string =
  (s ++ replace (String c o) new t)%string.
Proof.
  unfold replace. induction s as [|d s IH]; simpl; intros H; [reflexivity|].
  apply andb_true_iff in H as [Hd Hs].
  destruct (ascii_dec c d) as [<- | _].
  - rewrite Ascii.eqb_refl in Hd. discriminate.
  - f_equal. now apply IH.
Qed.

Lemma replace_from_length (old s : string) (k : nat) :
  String.length (replace_from old "" s k) <= String.length s.
Proof.
  revert k. induction s as [|c s IH]; intros k; [simpl; lia|].
  cbn [replace_from]. destruct k as [|k].
  - destruct (prefix old (String c s)).
    + change (("" ++ replace_from old "" s (String.length old - 1))%string)
        with (replace_from old "" s (String.length old - 1)).
      specialize (IH (String.length old - 1)). cbn [String.length]. lia.
    + specialize (IH 0). cbn [String.length]. lia.
  - specialize (IH k). cbn [String.length]. lia.
Qed.

Lemma replace_shortens (old s : string) :
  old <> "" -> contains old s = true ->
  String.length (replace old "" s) < String.length s.
Proof.
  intros Hold. unfold replace. induction s as [|c s IH]; intros H.
  - exfalso. simpl in H. rewrite orb_false_r in H.
    destruct old; [congruence | discriminate].
  - cbn [contains] in H. cbn [replace_from].
    destruct (prefix old (String c s)) eqn:Hp.
    + change (("" ++ replace_from old "" s (String.length old - 1))%string)
        with (replace_from old "" s (String.length old - 1)).
      pose proof (replace_from_length old s (String.length old - 1)).
      cbn [String.length]. lia.
    + cbn [orb] in H. apply IH in H. cbn [String.length]. lia.
Qed.

(** X11.  The database path.  A URL that does not start with
    [sqlite:///] is the path itself; of a URL that does, every
    occurrence of [sqlite:///] is removed, not only the leading one:
    the path is what follows the scheme exactly when that rest does
    not contain the scheme again. *)
Theorem db_path_strips_scheme (p : string) :
  (prefix scheme p = false -> db_path p = p) /\
  db_path (scheme ++ p) = replace scheme "" p /\
  (db_path (scheme ++ p) = p <-> contains scheme p = false).
Proof.
  assert (Hs : scheme <> "") by discriminate.
  assert (H1 : db_path (scheme ++ p) = replace scheme "" p).
  { unfold db_path. rewrite prefix_self.
    now rewrite (replace_prefix scheme "" p Hs). }
  split; [|split; [exact H1|]].
  - intros H. unfold db_path. now rewrite H.
  - rewrite H1. split.
    + intros E. destruct (contains scheme p) eqn:C; [|reflexivity].
      pose proof (replace_shortens scheme p Hs C) as L. rewrite E in L. lia.
    + now apply replace_absent.
Qed.

(** X12.  The timestamp text handed to the store.  When the ISO text
    of a time is a part without [+] followed by the offset [+00:00],
    the offset is stored as [Z]; when the ISO text does not contain
    [+00:00], it is stored as it is, offset included. *)
Theorem utc_offset_becomes_z {R : Runtime} (d : datetime) (s : string) :
  (isoformat d = (s ++ "+00:00")%string -> free_of "+" s = true ->
   iso_z d = (s ++ "Z")%string) /\
  (contains "+00:00" (isoformat d) = false -> iso_z d = isoformat d).
Proof.
  unfold iso_z. split.
  - intros E Hs. rewrite E.
    rewrite (replace_free_prefix "+" "00:00" "Z" s "+00:00" Hs).
    f_equal.
  - intros H. apply replace_absent; [discriminate | exact H].
Qed.

(** ** The signature gate *)

Section Gate.
Context {R : Runtime}.
Variables (secret : string) (fault : option sqlite_error) (now : datetime).
Variables (raw : bytes) (x_signature : option string) (st : state).

Let run := webhook secret fault now raw x_signature st.
Let expected := hexdigest (encode secret) raw.

(** The handler as a cascade of tests. *)
Lemma webhook_cascade :
  run =
  if truthy x_signature then
    if isascii (or_empty x_signature) then
      if expected =? or_empty x_signature then
        match parse_raw raw with
        | Raised e => (HTTPException 422 e, record "validation_error" st)
        | Returned msg =>
            match insert_message fault (db st) (params_of msg now) with
            | (Raised e, tbl) => (Unhandled (Sqlite e), State tbl (metrics st))
            | (Returned result, tbl) =>
                (Processed result, record result (State tbl (metrics st)))
            end
        end
      else (HTTPException 401 "invalid signature", record "invalid_signature" st)
    else (Unhandled (TypeError
            "comparing strings with non-ASCII characters is not supported"), st)
  else (HTTPException 401 "invalid signature", record "invalid_signature" st).
Proof.
  subst run expected. unfold webhook, compare_digest, hexdigest.
  rewrite hexlify_isascii.
  destruct (truthy x_signature); simpl; [|reflexivity].
  destruct (isascii (or_empty x_signature)); [|reflexivity].
  now destruct (hexlify (hmac_sha256 (encode secret) raw) =? or_empty x_signature).
Qed.

(** The replies after the insert. *)
Lemma after_insert (msg : WebhookMessage datetime) :
  let r := match insert_message fault (db st) (params_of msg now) with
           | (Raised e, tbl) => (Unhandled (Sqlite e), State tbl (metrics st))
           | (Returned result, tbl) =>
               (Processed result, record result (State tbl (metrics st)))
           end in
  (exists row, stores (params_of msg now) row /\
     r = (Processed "created", record "created" (State (db st ++ [row]) (metrics st)))) \/
  r = (Processed "duplicate", record "duplicate" st) \/
  (exists e, fault = Some e /\ err_class e <> IntegrityError /\
     r = (Unhandled (Sqlite e), st)).
Proof.
  destruct (insert_message_exits fault (db st) (params_of msg now))
    as [(row & Hrow & ->) | [-> | (e & Hf & Hc & ->)]]; cbv zeta.
  - left. eauto.
  - right. left. now destruct st.
  - right. right. exists e. repeat split; auto. now destruct st.
Qed.

(** X13.  The signature gate.  The request is answered 401 exactly
    when the header is absent or empty, or is ASCII text other than
    the lower-case hex digest of the body under the secret; it stops
    with a [TypeError] exactly when the header holds a non-ASCII
    character; in all other cases, that is exactly when the header is
    the digest, the body is parsed; and the table changes only for a
    request whose header is the digest and whose body is a valid
    message. *)
Theorem signature_gate :
  ((exists d, fst run = HTTPException 401 d) <->
     truthy x_signature = false \/
     (isascii (or_empty x_signature) = true /\ or_empty x_signature <> expected)) /\
  ((exists m, fst run = Unhandled (TypeError m)) <->
     truthy x_signature = true /\ isascii (or_empty x_signature) = false) /\
  ((exists result, fst run = Processed result) \/
   (exists d, fst run = HTTPException 422 d) \/
   (exists e, fst run = Unhandled (Sqlite e)) <->
     truthy x_signature = true /\ x_signature = Some expected) /\
  (db (snd run) <> db st ->
     x_signature = Some expected /\ exists msg, parse_raw raw = Returned msg).
Proof.
  rewrite webhook_cascade.
  assert (Hexp : isascii expected = true)
    by (subst expected; unfold hexdigest; apply hexlify_isascii).
  destruct (truthy x_signature) eqn:Ht.
  2:{ cbn [fst snd record db].
      firstorder (try discriminate; try congruence; eauto). }
  pose proof (truthy_or_empty x_signature Ht) as Hsome.
  destruct (isascii (or_empty x_signature)) eqn:Ha.
  2:{ cbn [fst snd record db].
      assert (Hne : x_signature <> Some expected)
        by (intros E; rewrite E in Ha; simpl in Ha; congruence).
      firstorder (try discriminate; try congruence; eauto). }
  destruct (String.eqb_spec expected (or_empty x_signature)) as [E | E].
  - assert (Hs : x_signature = Some expected) by (rewrite E; exact Hsome).
    destruct (parse_raw raw) as [msg | e] eqn:Hp.
    + destruct (after_insert msg) as [(row & _ & ->) | [-> | (e & _ & _ & ->)]];
        cbn [fst snd record db];
        firstorder (try discriminate; try congruence; eauto).
    + cbn [fst snd record db].
      firstorder (try discriminate; try congruence; eauto).
  - cbn [fst snd record db].
    assert (Hne : x_signature <> Some expected)
      by (intros H; rewrite H in E; simpl in E; congruence).
    firstorder (try discriminate; try congruence; eauto).
Qed.

End Gate.

(** The statement bound by the handler has every mandatory value. *)
Lemma insert_row_validated_like {R : Runtime} (msg : WebhookMessage datetime)
  (now : datetime) (tbl : table) :
  insert_row tbl (params_of msg now) =
  if key_taken tbl (Some (w_message_id msg))
  then Raised (integrity "UNIQUE constraint failed: messages.message_id")
  else Returned (tbl ++ [Row (Some (w_message_id msg)) (w_from msg) (w_to msg)
                             (iso_z (w_ts msg)) (w_text msg) (iso_z now)]).
Proof. reflexivity. Qed.

(** ** [GET /messages] *)

(** X14.  The bounds of [GET /messages].  A limit outside 1..100 is
    refused as "limit out of range", whatever the offset; with a limit
    in range a negative offset is refused as "offset out of range";
    otherwise the page returned is the one of the store for these
    arguments, echoes the limit and the offset, and holds at most
    [limit] rows, hence at most 100, and never more than the total. *)
Theorem get_messages_guard {U : Unicode} (lim off : Z) (f s q : option string)
  (tbl : table) :
  match get_messages lim off f s q tbl with
  | Raised e =>
      (e = (422, "limit out of range") /\ (lim < 1 \/ 100 < lim)%Z) \/
      (e = (422, "offset out of range") /\ (1 <= lim <= 100)%Z /\ (off < 0)%Z)
  | Returned p =>
      (1 <= lim <= 100)%Z /\ (0 <= off)%Z /\
      Main.limit p = lim /\ Main.offset p = off /\
      (data p, total p) = list_messages lim off f s q tbl /\
      (Z.of_nat (List.length (data p)) <= lim)%Z /\
      List.length (data p) <= 100 /\
      (Z.of_nat (List.length (data p)) <= total p)%Z
  end.
Proof.
  unfold get_messages.
  destruct (Z.ltb_spec lim 1); [left; split; [reflexivity | lia]|].
  destruct (Z.ltb_spec 100 lim); [left; split; [reflexivity | lia]|].
  cbn [orb].
  destruct (Z.ltb_spec off 0); [right; repeat split; lia|].
  pose proof (pagination_lengths lim off f s q tbl) as Hlen.
  assert (Ht : (0 <= snd (list_messages lim off f s q tbl))%Z)
    by (unfold list_messages; cbn [snd]; lia).
  destruct (list_messages lim off f s q tbl) as [d t] eqn:E. cbn [fst snd] in Hlen, Ht.
  cbn [data total Main.limit Main.offset].
  assert (Hd : (Z.of_nat (List.length d) = Z.min lim (Z.max 0 (t - off)))%Z)
    by (apply Hlen; lia).
  split; [lia|]. split; [lia|]. split; [reflexivity|]. split; [reflexivity|].
  split; [reflexivity|]. split; [lia|]. split; lia.
Qed.

End MainMore.

(* ================================================================== *)
(** * Runs of the application *)
(* ================================================================== *)

Module AppFacts.
Import Py Sqlite Storage Main Spec Terms App.
Import PyFacts SqliteFacts StorageFacts MetricsFacts MainFacts MetricsMore MainMore.

Section Server.
Context {U : Unicode} {R : Runtime}.
Variable secret : string.


(** What one delivery does to the table and to the counters. *)
Lemma webhook_effect (fault : option sqlite_error) (now : datetime) (raw : bytes)
  (x_signature : option string) (st : state) :
  let w := webhook secret fault now raw x_signature st in
  ((is_created (Webhook (fst w)) = true /\ exists row, db (snd w) = db st ++ [row]) \/
   (is_created (Webhook (fst w)) = false /\ db (snd w) = db st)) /\
  (forall l, counter l (snd w) =
             counter l st + (if outcome_is l (Webhook (fst w)) then 1 else 0)) /\
  Metrics.http_requests (metrics (snd w)) = Metrics.http_requests (metrics st) /\
  Metrics.latency_buckets (metrics (snd w)) = Metrics.latency_buckets (metrics st) /\
  outcome_is "created" (Webhook (fst w)) = is_created (Webhook (fst w)).
Proof.
  assert (Hrec : forall lab s l,
    counter l (record lab s) = counter l s + (if lab =? l then 1 else 0)).
  { intros lab s l. unfold counter, record. simpl.
    destruct (String.eqb_spec lab l) as [-> | Hne].
    - rewrite get_incr_same_s. lia.
    - rewrite get_incr_other_s by congruence. lia. }
  cbv zeta. rewrite webhook_cascade.
  destruct (truthy x_signature); [|simpl; repeat split; auto; apply Hrec].
  destruct (isascii (or_empty x_signature));
    [|simpl; repeat split; auto; intros; lia].
  destruct (hexdigest (encode secret) raw =? or_empty x_signature);
    [|simpl; repeat split; auto; apply Hrec].
  destruct (parse_raw raw) as [msg | e]; [|simpl; repeat split; auto; apply Hrec].
  destruct (after_insert secret fault now raw x_signature st msg)
    as [(row & _ & ->) | [-> | (e & _ & _ & ->)]].
  - simpl. split; [left; eauto|]. repeat split. intros l.
    rewrite (Hrec "created"). reflexivity.
  - simpl. split; [right; auto|]. repeat split. apply Hrec.
  - simpl. split; [right; auto|]. repeat split. intros; lia.
Qed.

(** What a route function does to the state. *)
Lemma handles_effect (st st1 : state) (q : request) (r : response) :
  handles secret st q r st1 ->
  ((is_created r = true /\ exists row, db st1 = db st ++ [row]) \/
   (is_created r = false /\ db st1 = db st)) /\
  (forall l, counter l st1 = counter l st + (if outcome_is l r then 1 else 0)) /\
  Metrics.http_requests (metrics st1) = Metrics.http_requests (metrics st) /\
  Metrics.latency_buckets (metrics st1) = Metrics.latency_buckets (metrics st) /\
  outcome_is "created" r = is_created r.
Proof.
  assert (Hsame : forall r0, is_created r0 = false ->
            (forall l, outcome_is l r0 = false) ->
            ((is_created r0 = true /\ exists row, db st = db st ++ [row]) \/
             (is_created r0 = false /\ db st = db st)) /\
            (forall l, counter l st = counter l st + (if outcome_is l r0 then 1 else 0)) /\
            Metrics.http_requests (metrics st) = Metrics.http_requests (metrics st) /\
            Metrics.latency_buckets (metrics st) = Metrics.latency_buckets (metrics st) /\
            outcome_is "created" r0 = is_created r0).
  { intros r0 Hc Ho. split; [right; auto|]. split; [|rewrite Ho, Hc; auto].
    intros l. rewrite Ho. lia. }
  destruct 1.
  - apply webhook_effect.
  - unfold messages.
    destruct (get_messages _ _ _ _ _ _) as [p | [c d]];
      [destruct fault|]; now apply Hsame.
  - now apply Hsame.
  - now apply Hsame.
  - now apply Hsame.
  - unfold ready. destruct (negb (truthy (Some secret))); [|destruct fault];
      now apply Hsame.
  - now apply Hsame.
  - now apply Hsame.
Qed.

Lemma counted_effect (q : request) (ms : Q) (r : response) (st : state) :
  db (counted q ms r st) = db st /\
  (forall l, counter l (counted q ms r st) = counter l st) /\
  Metrics.total (metrics (counted q ms r st)) = S (Metrics.total (metrics st)) /\
  dict_sum (Metrics.http_requests (metrics (counted q ms r st))) =
    S (dict_sum (Metrics.http_requests (metrics st))) /\
  (forall path status_code,
      http_count path status_code (metrics (counted q ms r st)) =
      http_count path status_code (metrics st) +
      (if (path_of q =? path) && (status r =? status_code)%nat then 1 else 0)).
Proof.
  unfold counted. simpl. split; [reflexivity|]. split; [reflexivity|].
  split; [|split].
  - pose proof (observe_latency_counts ms (metrics st)) as (H1 & H2 & H3).
    unfold Metrics.total. unfold Metrics.count_100, Metrics.count_500,
      Metrics.count_inf, Metrics.inc_http in *. simpl in *.
    rewrite H1, H2, H3. unfold bump.
    destruct (classes ms) as (_ & _ & _ & [(-> & -> & ->) | [(-> & -> & ->) | (-> & -> & ->)]]);
      lia.
  - apply incr_sum.
  - intros path status_code. unfold http_count. simpl.
    destruct (String.eqb_spec (path_of q) path) as [-> | Hp]; simpl.
    + destruct (Nat.eqb_spec (status r) status_code) as [-> | Hs].
      * rewrite (get_incr_same _ pair_eqb_spec). lia.
      * rewrite (get_incr_other _ pair_eqb_spec); [lia|].
        intros [= E]. apply str_of_nat_inj in E. congruence.
    + rewrite (get_incr_other _ pair_eqb_spec); [lia|]. congruence.
Qed.

(** The table of a run only grows. *)
Lemma rows_grow (st st' : state) (reqs : list (request * Q)) (rs : list response) :
  run secret st reqs rs st' -> exists added, db st' = db st ++ added.
Proof.
  induction 1 as [st | st q ms r st1 reqs rs st2 Hh Hrun IH].
  - exists []. now rewrite app_nil_r.
  - destruct IH as (added & Hdb).
    destruct (handles_effect _ _ _ _ Hh) as ([(_ & row & Hrow) | (_ & Hrow)] & _).
    + exists (row :: added). rewrite Hdb. simpl. rewrite Hrow, <- app_assoc. reflexivity.
    + exists added. rewrite Hdb. simpl. now rewrite Hrow.
Qed.

(** X15.  Rows are only added.  Over any run of requests the table at
    the end is the table at the start followed by one row for each
    response that is a created message, in the order of the
    responses, and the webhook counter "created" has grown by that
    number of rows: no request removes or changes a stored row. *)
Theorem rows_only_added (st st' : state) (reqs : list (request * Q)) (rs : list response) :
  run secret st reqs rs st' ->
  exists added,
    db st' = db st ++ added /\
    List.length added = List.length (filter is_created rs) /\
    counter "created" st' = counter "created" st + List.length added.
Proof.
  induction 1 as [st | st q ms r st1 reqs rs st2 Hh Hrun IH].
  - exists []. rewrite app_nil_r. simpl. repeat split. lia.
  - destruct IH as (added & Hdb & Hlen & Hcnt).
    destruct (counted_effect q ms r st1) as (Cdb & Ccnt & _).
    destruct (handles_effect _ _ _ _ Hh) as (Hrows & Hc & _ & _ & Hsame).
    rewrite Cdb in Hdb. rewrite Ccnt, (Hc "created") in Hcnt.
    rewrite Hsame in Hcnt. simpl.
    destruct Hrows as [(Hcr & row & Hrow) | (Hcr & Hrow)]; rewrite Hcr in *.
    + exists (row :: added). rewrite Hdb, Hrow, <- app_assoc. simpl.
      repeat split; lia.
    + exists added. rewrite Hdb, Hrow. repeat split; lia.
Qed.

(** X16.  Identifiers stay distinct.  Over any run of requests, a
    table in which no two rows share an identifier and every row has
    one is still such a table at the end: every table reached from an
    empty database can be listed in one order only. *)
Theorem identifiers_stay_distinct (st st' : state) (reqs : list (request * Q))
  (rs : list response) :
  run secret st reqs rs st' ->
  unique_ids (db st) /\ ~ In None (map message_id (db st)) ->
  unique_ids (db st') /\ ~ In None (map message_id (db st')).
Proof.
  induction 1 as [st | st q ms r st1 reqs rs st2 Hh Hrun IH]; [auto|].
  intros [Hu Hn]. apply IH. clear IH Hrun.
  replace (db (counted q ms r st1)) with (db st1) by reflexivity.
  destruct Hh; auto.
  split; [now apply webhook_unique_ids|].
  destruct (webhook_table secret fault now raw x_signature st)
    as [-> | (msg & row & _ & (Hid & _) & _ & ->)]; [exact Hn|].
  rewrite map_app, in_app_iff. simpl. intros [H | [H | []]]; [auto|].
  simpl in Hid. congruence.
Qed.

(** X17.  Every request is counted once.  Over any run of requests,
    whatever the routes and whatever their outcome, an exception
    leaving the handler included: there is one response per request,
    the number of latency observations has grown by the number of
    requests, and so has the sum of all HTTP counters; the two stay
    equal if they started equal. *)
Theorem every_request_counted (st st' : state) (reqs : list (request * Q))
  (rs : list response) :
  run secret st reqs rs st' ->
  List.length rs = List.length reqs /\
  Metrics.total (metrics st') = Metrics.total (metrics st) + List.length reqs /\
  dict_sum (Metrics.http_requests (metrics st')) =
    dict_sum (Metrics.http_requests (metrics st)) + List.length reqs.
Proof.
  induction 1 as [st | st q ms r st1 reqs rs st2 Hh Hrun IH].
  - simpl. repeat split; lia.
  - destruct IH as (Hlen & Ht & Hs).
    destruct (counted_effect q ms r st1) as (_ & _ & Ct & Cs & _).
    destruct (handles_effect _ _ _ _ Hh) as (_ & _ & Hhttp & Hlat & _).
    rewrite Ct in Ht. rewrite Cs in Hs. simpl.
    unfold Metrics.total, Metrics.count_100, Metrics.count_500, Metrics.count_inf in *.
    rewrite Hlat in Ht. rewrite Hhttp in Hs. repeat split; lia.
Qed.

(** X18.  What an HTTP counter counts.  Over any run of requests, the
    counter of a (path, status) pair has grown by the number of
    requests of the run made on that path and answered with that
    status, 500 standing for an exception that left the handler. *)
Theorem http_counter_counts_hits (st st' : state) (reqs : list (request * Q))
  (rs : list response) (path : string) (status_code : nat) :
  run secret st reqs rs st' ->
  http_count path status_code (metrics st') =
  http_count path status_code (metrics st) + hits path status_code reqs rs.
Proof.
  induction 1 as [st | st q ms r st1 reqs rs st2 Hh Hrun IH].
  - unfold hits. simpl. lia.
  - destruct (counted_effect q ms r st1) as (_ & _ & _ & _ & Ch).
    destruct (handles_effect _ _ _ _ Hh) as (_ & _ & Hhttp & _).
    rewrite IH, Ch. unfold http_count at 1. rewrite Hhttp. fold (http_count path status_code (metrics st)).
    unfold hits. simpl.
    destruct ((path_of q =? path) && (status r =? status_code)%nat); simpl; lia.
Qed.

(** X19.  What a webhook counter counts.  Over any run of requests,
    the webhook counter of a label has grown by the number of
    responses of the run that are the webhook outcome of that label;
    requests on other routes, and deliveries that end in an
    exception, move no webhook counter. *)
Theorem webhook_counter_counts_outcomes (st st' : state) (reqs : list (request * Q))
  (rs : list response) (l : string) :
  run secret st reqs rs st' ->
  counter l st' = counter l st + List.length (filter (outcome_is l) rs).
Proof.
  induction 1 as [st | st q ms r st1 reqs rs st2 Hh Hrun IH].
  - simpl. lia.
  - destruct (counted_effect q ms r st1) as (_ & Cc & _).
    destruct (handles_effect _ _ _ _ Hh) as (_ & Hc & _).
    rewrite IH, Cc, Hc. simpl. destruct (outcome_is l r); simpl; lia.
Qed.

(** X20.  Redelivery.  In any run that begins with a delivery answered
    as processed by an available store, delivering the same body with
    the same signature once more at the end of the run, at any later
    time and with the store available, is answered "duplicate" and
    leaves the table as it is, whatever was served in between. *)
Theorem redelivery_is_duplicate (st st' : state) (now now' : datetime) (raw : bytes)
  (x_signature : option string) (latency_ms : Q) (result : string)
  (reqs : list (request * Q)) (rs : list response) :
  run secret st ((PostWebhook None now raw x_signature, latency_ms) :: reqs)
      (Webhook (Processed result) :: rs) st' ->
  webhook secret None now' raw x_signature st' =
    (Processed "duplicate", record "duplicate" st').
Proof.
  intros Hrun. inversion Hrun as [|q ms r st1 reqs0 rs0 st2 Hh Hrest]; subst.
  inversion Hh; subst. clear Hh.
  match goal with H : fst _ = Processed _ |- _ => rename H into Hr end.
  destruct (rows_grow _ _ _ _ Hrest) as (added & Hdb).
  replace (db (counted (PostWebhook None now raw x_signature) latency_ms
                (Webhook (Processed result))
                (snd (webhook secret None now raw x_signature st))))
    with (db (snd (webhook secret None now raw x_signature st))) in Hdb by reflexivity.
  revert Hr Hdb. rewrite !webhook_cascade.
  destruct (truthy x_signature); [|discriminate].
  destruct (isascii (or_empty x_signature)); [|discriminate].
  destruct (hexdigest (encode secret) raw =? or_empty x_signature); [|discriminate].
  destruct (parse_raw raw) as [msg | e]; [|discriminate].
  intros Hr Hdb.
  assert (Hin : In (Some (w_message_id msg)) (map message_id (db st'))).
  { rewrite Hdb, map_app. apply in_or_app. left. revert Hr. clear Hdb.
    destruct (after_insert secret None now raw x_signature st msg)
      as [(row & (Hid & _) & ->) | [E | (e & Hf & _)]]; [| |discriminate].
    - intros _. simpl. rewrite map_app. apply in_or_app. right. simpl.
      left. now rewrite <- Hid.
    - rewrite E. intros _. simpl.
      destruct (insert_message_exits None (db st) (params_of msg now))
        as [(row & _ & Hi) | [Hi | (e & Hf & _)]]; [| |discriminate].
      + rewrite Hi in E. discriminate.
      + clear E. revert Hi. unfold insert_message, execute_insert.
        rewrite (insert_row_validated_like msg now (db st)).
        destruct (key_taken (db st) (Some (w_message_id msg))) eqn:Hk;
          [|discriminate].
        intros _. apply key_taken_iff in Hk as (k & [= <-] & Hk). exact Hk. }
  rewrite (insert_message_taken (db st') (params_of msg now') (w_message_id msg)
             eq_refl Hin).
  now destruct st'.
Qed.

End Server.

End AppFacts.

(* ================================================================== *)
(** * The further theorems at work *)
(* ================================================================== *)

Module MoreScenarios.
Import Py Sqlite Storage Main Spec Terms App.
Import PyFacts SqliteFacts StorageFacts StorageMore MetricsFacts MainFacts.
Import MetricsMore MainMore AppFacts.

#[local] Existing Instance Sample.unicode.

(** [History.answer] is an answer of [stats] on [History.rows]. *)
Ltac history_answer :=
  split; [reflexivity|]; split; [reflexivity|]; split; [|split; reflexivity];
  exists [("+100", 2); ("+200", 1)]; split; [|reflexivity]; split;
  [apply perm_swap | repeat constructor; unfold count_desc; simpl; lia].

(** The earliest and the latest of three timestamps. *)
Lemma stats_timestamps_witness :
  stats History.rows History.answer /\
  (forall r, In r History.rows -> text_le "2025-01-14T09:00:00Z" (ts r)) /\
  (forall r, In r History.rows -> text_le (ts r) "2025-01-16T08:30:00Z").
Proof.
  assert (H : stats History.rows History.answer) by history_answer.
  split; [exact H|].
  destruct (stats_timestamps History.rows History.answer H) as (_ & _ & Hlo & Hhi).
  split; [apply (Hlo _ eq_refl) | apply (Hhi _ eq_refl)].
Defined.

(** Two senders, three messages. *)
Lemma stats_counts_witness :
  stats History.rows History.answer /\
  list_sum (map snd (messages_per_sender History.answer)) =
    total_messages History.answer.
Proof.
  assert (H : stats History.rows History.answer) by history_answer.
  split; [exact H|].
  apply (stats_counts History.rows History.answer H). simpl. lia.
Defined.

(** One row, then the next two, are the first three. *)
Lemma pages_concatenate_witness :
  (0 <= 0)%Z /\ (0 <= 1)%Z /\ (0 <= 2)%Z /\
  fst (list_messages 1 0 None None None History.rows) ++
  fst (list_messages 2 (0 + 1) None None None History.rows) =
  fst (list_messages (1 + 2) 0 None None None History.rows).
Proof.
  assert (H0 : (0 <= 0)%Z) by lia.
  assert (H1 : (0 <= 1)%Z) by lia.
  assert (H2 : (0 <= 2)%Z) by lia.
  split; [exact H0|]. split; [exact H1|]. split; [exact H2|].
  apply (pages_concatenate 1 2 0 None None None History.rows H0 H1 H2).
Defined.

Ltac history_unique :=
  unfold unique_ids; simpl; repeat constructor; simpl;
  intros H; repeat (destruct H as [H | H]; [discriminate|]); exact H.

(** The messages of "+100" that say "hello". *)
Lemma filters_only_remove_witness :
  unique_ids History.rows /\
  matching_rows (Some "+100") None (Some "hello") History.rows =
  filter (message_matches (Some "+100") None (Some "hello"))
         (matching_rows None None None History.rows).
Proof.
  assert (H : unique_ids History.rows) by history_unique.
  split; [exact H|].
  apply (filters_only_remove (Some "+100") None (Some "hello") History.rows H).
Defined.

(** The messages of "+100". *)
Lemma sender_listing_agrees_with_stats_witness :
  "+100" <> "" /\
  snd (list_messages 50 0 (Some "+100") None None History.rows) =
    Z.of_nat (count_from "+100" History.rows).
Proof.
  assert (H : "+100" <> "") by discriminate.
  split; [exact H|].
  apply (sender_listing_agrees_with_stats 50 0 "+100" History.rows H).
Defined.

(** A third message, then a listing by its sender. *)
Lemma created_message_is_listed_witness :
  insert_message None two_senders Sample.arguments3 =
    (Returned "created", two_senders ++ [Sample.row3]) /\
  exists r,
    stores Sample.arguments3 r /\ two_senders ++ [Sample.row3] = two_senders ++ [r] /\
    (row_matches (Some "+919876543210") None None r = true ->
       snd (list_messages 50 0 (Some "+919876543210") None None
              (two_senders ++ [Sample.row3])) =
         (snd (list_messages 50 0 (Some "+919876543210") None None two_senders) + 1)%Z /\
       (forall limit',
           (snd (list_messages limit' 0 (Some "+919876543210") None None
                   (two_senders ++ [Sample.row3])) <= limit')%Z ->
           In (select_columns r)
              (fst (list_messages limit' 0 (Some "+919876543210") None None
                      (two_senders ++ [Sample.row3]))))) /\
    (row_matches (Some "+919876543210") None None r = false ->
       snd (list_messages 50 0 (Some "+919876543210") None None
              (two_senders ++ [Sample.row3])) =
         snd (list_messages 50 0 (Some "+919876543210") None None two_senders)).
Proof.
  assert (H : insert_message None two_senders Sample.arguments3 =
              (Returned "created", two_senders ++ [Sample.row3])) by reflexivity.
  split; [exact H|].
  apply (created_message_is_listed None two_senders (two_senders ++ [Sample.row3])
           Sample.arguments3 50 0 (Some "+919876543210") None None H).
Defined.

(** A call without identifier on the history. *)
Lemma primary_key_kept_witness :
  key_unique History.rows /\
  key_unique (snd (insert_message None History.rows History.anonymous)).
Proof.
  assert (H : key_unique History.rows).
  { unfold key_unique. simpl. repeat constructor; simpl;
      intros H; repeat (destruct H as [H | H]; [discriminate|]); exact H. }
  split; [exact H|].
  apply (primary_key_kept None History.rows History.anonymous H).
Defined.

Lemma missing_identifier_always_created_witness :
  p_message_id History.anonymous = None /\
  exists r,
    message_id r = None /\ stores History.anonymous r /\
    insert_message None History.rows History.anonymous =
      (Returned "created", History.rows ++ [r]) /\
    insert_message None (History.rows ++ [r]) History.anonymous =
      (Returned "created", (History.rows ++ [r]) ++ [r]).
Proof.
  assert (H : p_message_id History.anonymous = None) by reflexivity.
  split; [exact H|].
  apply (missing_identifier_always_created History.rows History.anonymous H);
    discriminate.
Defined.

(** The delivery of the test-suite is answered as created. *)
Lemma delivery_created : fst History.delivered = Processed "created".
Proof. vm_compute. reflexivity. Qed.

(** The run: that delivery, then a liveness probe. *)
Lemma history_run :
  run Sample.secret Sample.fresh History.requests History.responses History.at_end.
Proof.
  unfold History.requests, History.responses, History.at_end, History.after_delivery.
  pose proof (handles_webhook (R := Sample.runtime) Sample.secret Sample.fresh None
                Sample.now Sample.body (Some Sample.signature)) as Hh.
  change (webhook (R := Sample.runtime) Sample.secret None Sample.now Sample.body
            (Some Sample.signature) Sample.fresh) with History.delivered in Hh.
  rewrite delivery_created in Hh.
  eapply run_step; [exact Hh|].
  eapply run_step; [apply handles_live|].
  apply run_done.
Qed.

Lemma rows_only_added_witness :
  run Sample.secret Sample.fresh History.requests History.responses History.at_end /\
  exists added,
    db History.at_end = db Sample.fresh ++ added /\
    List.length added = List.length (filter is_created History.responses) /\
    counter "created" History.at_end = counter "created" Sample.fresh + List.length added.
Proof.
  split; [exact history_run|].
  apply (rows_only_added Sample.secret _ _ _ _ history_run).
Defined.

Lemma identifiers_stay_distinct_witness :
  run Sample.secret Sample.fresh History.requests History.responses History.at_end /\
  unique_ids (db History.at_end).
Proof.
  split; [exact history_run|].
  apply (identifiers_stay_distinct Sample.secret _ _ _ _ history_run).
  split; [constructor | simpl; tauto].
Defined.

Lemma every_request_counted_witness :
  run Sample.secret Sample.fresh History.requests History.responses History.at_end /\
  Metrics.total (metrics History.at_end) =
    Metrics.total (metrics Sample.fresh) + List.length History.requests.
Proof.
  split; [exact history_run|].
  apply (every_request_counted Sample.secret _ _ _ _ history_run).
Defined.

Lemma http_counter_counts_hits_witness :
  run Sample.secret Sample.fresh History.requests History.responses History.at_end /\
  http_count "/webhook" 200 (metrics History.at_end) =
    http_count "/webhook" 200 (metrics Sample.fresh) +
    hits "/webhook" 200 History.requests History.responses.
Proof.
  split; [exact history_run|].
  apply (http_counter_counts_hits Sample.secret _ _ _ _ "/webhook" 200 history_run).
Defined.

Lemma webhook_counter_counts_outcomes_witness :
  run Sample.secret Sample.fresh History.requests History.responses History.at_end /\
  counter "created" History.at_end =
    counter "created" Sample.fresh +
    List.length (filter (outcome_is "created") History.responses).
Proof.
  split; [exact history_run|].
  apply (webhook_counter_counts_outcomes Sample.secret _ _ _ _ "created" history_run).
Defined.

Lemma redelivery_is_duplicate_witness :
  run Sample.secret Sample.fresh History.requests History.responses History.at_end /\
  webhook (R := Sample.runtime) Sample.secret None "2025-01-16T00:00:00" Sample.body
          (Some Sample.signature) History.at_end =
    (Processed "duplicate", record "duplicate" History.at_end).
Proof.
  split; [exact history_run|].
  apply (redelivery_is_duplicate (R := Sample.runtime) Sample.secret Sample.fresh
           History.at_end Sample.now "2025-01-16T00:00:00" Sample.body
           (Some Sample.signature) (12 # 1)%Q "created"
           [(GetLive (R := Sample.runtime), (1 # 2)%Q)] [PlainText 200 "OK"]).
  exact history_run.
Defined.

End MoreScenarios.
